(** * Procedural mesh generation (Util/MeshGenerator.cpp)

    A shallow embedding of choreonoid's [MeshGenerator]: the primitive
    surface samplers (box, sphere, cylinder, cone, capsule, disc, torus,
    arrow, elevation grid), the extrusion sweep with its line set, and
    the texture coordinate builders, followed by the properties of the
    generated meshes.

    Numbers.  [int] is modelled by [Z]; the C++ operators [/] and [%] on
    [int] truncate towards zero and are [Z.quot] and [Z.rem].  [double]
    and [float] are modelled by the real numbers [R]: rounding, NaN and
    infinities are outside the model, and the conversions between
    [double] and [float] are the identity. *)

From Stdlib Require Import Reals ZArith List Bool Lia Lra.
Import ListNotations.

Set Implicit Arguments.
Set Warnings "-register-all".

Local Open Scope Z_scope.

(** ** Loops over [int] ranges *)

(** [for(int i = lo; i < hi; ++i)] visits [range lo hi] in order. *)
Definition range (lo hi : Z) : list Z :=
  map (fun k => lo + Z.of_nat k) (seq 0 (Z.to_nat (hi - lo))).

(** [v.size()] as an [int]. *)
Definition size {A : Type} (l : list A) : Z := Z.of_nat (length l).

(** [v[i]] on a [std::vector]; an index outside the vector is undefined
    behaviour in the source and reads [d] here. *)
Definition at_ {A : Type} (d : A) (l : list A) (i : Z) : A :=
  if i <? 0 then d else nth (Z.to_nat i) l d.

(** ** Eigen vectors *)

Record Vector3 : Type := V3 { vx : R; vy : R; vz : R }.
Record Vector2 : Type := V2 { ux : R; uy : R }.

(** [Vector3f] and [Vector2f] hold [float]s; see the note on numbers. *)
Definition Vector3f : Type := Vector3.
Definition Vector2f : Type := Vector2.

Definition Vector3_Zero : Vector3 := V3 0 0 0.
Definition Vector3f_UnitZ : Vector3f := V3 0 0 1.

(** ** The mesh (SgMesh) *)

(** A triangle is three vertex indices, as passed to [addTriangle]. *)
Definition Triangle : Type := (Z * Z * Z)%type.

(** The analytic primitive tag of a mesh. *)
Inductive Primitive : Type :=
| MESH
| Box (size : Vector3)
| Sphere (radius : R)
| Cylinder (radius height : R)
| Cone (radius height : R)
| Capsule (radius height : R).

Record BoundingBox : Type := BBox { bbMin : Vector3; bbMax : Vector3 }.

(** Modelled from the spec: the mesh class [SgMesh], declared outside
    MeshGenerator.cpp.  It owns a vertex array, the triangles, optional
    normals and texture coordinates with their index arrays, an optional
    primitive tag and a bounding box; an array that is absent is empty
    here. *)
Record SgMesh : Type := mkMesh {
  vertices : list Vector3f;
  triangles : list Triangle;
  normals : list Vector3f;
  normalIndices : list Z;
  texCoords : list Vector2f;
  texCoordIndices : list Z;
  primitive : Primitive;
  boundingBox : option BoundingBox
}.

(** [new SgMesh] *)
Definition newMesh : SgMesh := mkMesh [] [] [] [] [] [] MESH None.

Definition setVertices (vs : list Vector3f) (m : SgMesh) : SgMesh :=
  mkMesh vs (triangles m) (normals m) (normalIndices m)
         (texCoords m) (texCoordIndices m) (primitive m) (boundingBox m).

Definition addTriangles (ts : list Triangle) (m : SgMesh) : SgMesh :=
  mkMesh (vertices m) (triangles m ++ ts) (normals m) (normalIndices m)
         (texCoords m) (texCoordIndices m) (primitive m) (boundingBox m).

Definition setNormals (ns : list Vector3f) (idx : list Z) (m : SgMesh) : SgMesh :=
  mkMesh (vertices m) (triangles m) ns idx
         (texCoords m) (texCoordIndices m) (primitive m) (boundingBox m).

Definition setTexCoords (tc : list Vector2f) (idx : list Z) (m : SgMesh) : SgMesh :=
  mkMesh (vertices m) (triangles m) (normals m) (normalIndices m)
         tc idx (primitive m) (boundingBox m).

Definition setPrimitive (p : Primitive) (m : SgMesh) : SgMesh :=
  mkMesh (vertices m) (triangles m) (normals m) (normalIndices m)
         (texCoords m) (texCoordIndices m) p (boundingBox m).

Definition numTriangles (m : SgMesh) : Z := size (triangles m).

(** [mesh->triangleVertices()]: the flat index array behind the triangles. *)
Definition triangleVertices (m : SgMesh) : list Z :=
  flat_map (fun t : Triangle => let '(a, b, c) := t in [a; b; c]) (triangles m).

(** Modelled from the spec: [mesh->updateBoundingBox()] recomputes the
    bounding volume of the mesh, the box spanned by its vertices (no box
    when there is no vertex). *)
Definition expandBy (b : option BoundingBox) (v : Vector3) : option BoundingBox :=
  match b with
  | None => Some (BBox v v)
  | Some (BBox lo hi) =>
      Some (BBox (V3 (Rmin (vx lo) (vx v)) (Rmin (vy lo) (vy v)) (Rmin (vz lo) (vz v)))
                 (V3 (Rmax (vx hi) (vx v)) (Rmax (vy hi) (vy v)) (Rmax (vz hi) (vz v))))
  end.

Definition updateBoundingBox (m : SgMesh) : SgMesh :=
  mkMesh (vertices m) (triangles m) (normals m) (normalIndices m)
         (texCoords m) (texCoordIndices m) (primitive m)
         (fold_left expandBy (vertices m) None).

(** ** Comparisons on [double] *)

Definition Rltb (x y : R) : bool := if Rlt_dec x y then true else false.
Definition Rleb (x y : R) : bool := if Rle_dec x y then true else false.
Definition Reqb (x y : R) : bool := if Req_dec_T x y then true else false.

(** Eigen's [operator==]: exact, coefficient by coefficient. *)
Definition Vector3_eqb (a b : Vector3) : bool :=
  Reqb (vx a) (vx b) && Reqb (vy a) (vy b) && Reqb (vz a) (vz b).

Definition Vector2_eqb (a b : Vector2) : bool :=
  Reqb (ux a) (ux b) && Reqb (uy a) (uy b).

(** ** Collaborators *)

(** Modelled from the spec: the group of shapes with transforms that
    [generateArrow] hands to the mesh extractor. *)
Inductive SgNode : Type :=
| SgShape (mesh : option SgMesh)
| SgPosTransform (translation : Vector3) (children : list SgNode)
| SgGroup (children : list SgNode).

(** Modelled from the spec: the services the generator consumes, none of
    which is part of MeshGenerator.cpp; they are parameters of the model.
    - [MeshFilter_generateNormals mesh creaseAngle] is the normal array and
      the normal index array that [MeshFilter::generateNormals] stores in
      the mesh;
    - [Triangulator_apply vertices polygon] is [triangulator.triangles()]
      after [setVertices] and [apply]: a flat list of positions in
      [polygon], three per triangle;
    - [MeshExtractor_integrate node] is the pointer returned by
      [meshExtractor.integrate], [None] for a null pointer. *)
Class Collaborators : Type := {
  MeshFilter_generateNormals : SgMesh -> R -> list Vector3f * list Z;
  Triangulator_apply : list Vector3f -> list Z -> list Z;
  MeshExtractor_integrate : SgNode -> option SgMesh
}.

(** ** The generator object *)

(** The mesh filter owned by a generator, created at the first normal
    generation; the model keeps the crease angles of the normal
    generations it was asked for, latest first. *)
Record MeshFilter : Type := { creaseAngles : list R }.

Record MeshGenerator : Type := mkGenerator {
  isNormalGenerationEnabled_ : bool;
  isBoundingBoxUpdateEnabled_ : bool;
  meshFilter : option MeshFilter;
  divisionNumber_ : Z
}.

Definition defaultDivisionNumber : Z := 20.

(** [MeshGenerator::MeshGenerator()] *)
Definition MeshGenerator_new : MeshGenerator :=
  mkGenerator true true None defaultDivisionNumber.

Definition setDivisionNumber (n : Z) (g : MeshGenerator) : MeshGenerator :=
  mkGenerator (isNormalGenerationEnabled_ g) (isBoundingBoxUpdateEnabled_ g) (meshFilter g)
              (if n <? 0 then defaultDivisionNumber else n).

Definition divisionNumber (g : MeshGenerator) : Z := divisionNumber_ g.

Definition setNormalGenerationEnabled (on : bool) (g : MeshGenerator) : MeshGenerator :=
  mkGenerator on (isBoundingBoxUpdateEnabled_ g) (meshFilter g) (divisionNumber_ g).

Definition enableNormalGeneration (on : bool) (g : MeshGenerator) : MeshGenerator :=
  mkGenerator on (isBoundingBoxUpdateEnabled_ g) (meshFilter g) (divisionNumber_ g).

Definition setBoundingBoxUpdateEnabled (on : bool) (g : MeshGenerator) : MeshGenerator :=
  mkGenerator (isNormalGenerationEnabled_ g) on (meshFilter g) (divisionNumber_ g).

(** The configurations a client can reach through the public interface. *)
Inductive reachable : MeshGenerator -> Prop :=
| reach_new : reachable MeshGenerator_new
| reach_division n g : reachable g -> reachable (setDivisionNumber n g)
| reach_normal on g : reachable g -> reachable (setNormalGenerationEnabled on g)
| reach_bbox on g : reachable g -> reachable (setBoundingBoxUpdateEnabled on g).

(** Member functions read and update the generator: a state monad. *)
Definition Gen (A : Type) : Type := MeshGenerator -> A * MeshGenerator.

Definition ret {A : Type} (a : A) : Gen A := fun g => (a, g).

Definition bind {A B : Type} (c : Gen A) (k : A -> Gen B) : Gen B :=
  fun g => let (a, g') := c g in k a g'.

Definition get : Gen MeshGenerator := fun g => (g, g).

Notation "x <- c ;; k" := (bind c (fun x => k))
  (at level 61, c at next level, right associativity).

(** The mesh a call returns ([None] for [nullptr]). *)
Definition result {A : Type} (c : Gen A) (g : MeshGenerator) : A := fst (c g).

(** The generator after the call. *)
Definition after {A : Type} (c : Gen A) (g : MeshGenerator) : MeshGenerator := snd (c g).

(** The crease angles the normal generator was invoked with so far. *)
Definition normalRequests (g : MeshGenerator) : list R :=
  match meshFilter g with
  | None => []
  | Some f => creaseAngles f
  end.

(** ** libm and Eigen functions on reals *)

(** [atan2(y, x)] *)
Definition atan2 (y x : R) : R :=
  if Rltb 0 x then atan (y / x)
  else if Rltb x 0 then
    (if Rleb 0 y then atan (y / x) + PI else atan (y / x) - PI)
  else if Rltb 0 y then PI / 2
  else if Rltb y 0 then - PI / 2
  else 0.

Definition squaredNorm2 (a : Vector2) : R := ux a * ux a + uy a * uy a.

(** [a.isApprox(b)] on [Vector2f], with the default precision of [float]. *)
Definition isApprox (a b : Vector2f) : bool :=
  Rleb (squaredNorm2 (V2 (ux a - ux b) (uy a - uy b)))
       (1e-5 * 1e-5 * Rmin (squaredNorm2 a) (squaredNorm2 b)).

(** ** Eigen: vectors, matrices, rotations *)

Local Open Scope R_scope.

Definition Vector3_sub (a b : Vector3) : Vector3 :=
  V3 (vx a - vx b) (vy a - vy b) (vz a - vz b).

Definition Vector3_add (a b : Vector3) : Vector3 :=
  V3 (vx a + vx b) (vy a + vy b) (vz a + vz b).

Definition Vector3_scale (k : R) (a : Vector3) : Vector3 :=
  V3 (k * vx a) (k * vy a) (k * vz a).

Definition cross (a b : Vector3) : Vector3 :=
  V3 (vy a * vz b - vz a * vy b)
     (vz a * vx b - vx a * vz b)
     (vx a * vy b - vy a * vx b).

Definition dot (a b : Vector3) : R := vx a * vx b + vy a * vy b + vz a * vz b.

Definition squaredNorm (a : Vector3) : R := dot a a.

Definition norm (a : Vector3) : R := sqrt (squaredNorm a).

(** [a.normalized()]: a vector of squared norm zero is returned as it is. *)
Definition normalized (a : Vector3) : Vector3 :=
  if Rltb 0 (squaredNorm a) then Vector3_scale (/ sqrt (squaredNorm a)) a else a.

(** A 3x3 matrix, by rows. *)
Record Matrix3 : Type := M3 { row0 : Vector3; row1 : Vector3; row2 : Vector3 }.

(** [m << x, y, z] with three column vectors. *)
Definition fromColumns (x y z : Vector3) : Matrix3 :=
  M3 (V3 (vx x) (vx y) (vx z)) (V3 (vy x) (vy y) (vy z)) (V3 (vz x) (vz y) (vz z)).

Definition Matrix3_apply (m : Matrix3) (v : Vector3) : Vector3 :=
  V3 (dot (row0 m) v) (dot (row1 m) v) (dot (row2 m) v).

Definition column0 (m : Matrix3) : Vector3 := V3 (vx (row0 m)) (vx (row1 m)) (vx (row2 m)).
Definition column1 (m : Matrix3) : Vector3 := V3 (vy (row0 m)) (vy (row1 m)) (vy (row2 m)).
Definition column2 (m : Matrix3) : Vector3 := V3 (vz (row0 m)) (vz (row1 m)) (vz (row2 m)).

Definition Matrix3_mul (a b : Matrix3) : Matrix3 :=
  fromColumns (Matrix3_apply a (column0 b)) (Matrix3_apply a (column1 b))
              (Matrix3_apply a (column2 b)).

Record AngleAxis : Type := mkAngleAxis { angle : R; axis : Vector3 }.

(** [AngleAxis::toRotationMatrix()] *)
Definition toRotationMatrix (r : AngleAxis) : Matrix3 :=
  let sin_axis := Vector3_scale (sin (angle r)) (axis r) in
  let c := cos (angle r) in
  let cos1_axis := Vector3_scale (1 - c) (axis r) in
  let txy := vx cos1_axis * vy (axis r) in
  let txz := vx cos1_axis * vz (axis r) in
  let tyz := vy cos1_axis * vz (axis r) in
  M3 (V3 (vx cos1_axis * vx (axis r) + c) (txy - vz sin_axis) (txz + vy sin_axis))
     (V3 (txy + vz sin_axis) (vy cos1_axis * vy (axis r) + c) (tyz - vx sin_axis))
     (V3 (txz - vy sin_axis) (tyz + vx sin_axis) (vz cos1_axis * vz (axis r) + c)).

Local Close Scope R_scope.

(** ** Geometry input descriptors *)

(** Modelled from the spec: the descriptors are declared in
    MeshGenerator.h, which is not among the sources; the fields are those
    that MeshGenerator.cpp reads. *)

Module ElevationGrid.
Record t : Type := mk {
  xDimension : Z;
  zDimension : Z;
  xSpacing : R;
  zSpacing : R;
  height : list R;
  ccw : bool;
  creaseAngle : R
}.
End ElevationGrid.

Module Extrusion.
Record t : Type := mk {
  crossSection : list Vector2;
  spine : list Vector3;
  scale : list Vector2;
  orientation : list AngleAxis;
  creaseAngle : R;
  beginCap : bool;
  endCap : bool
}.
End Extrusion.

Section Generator.

Context {collaborators : Collaborators}.

(** ** Normals *)

Definition generateNormals (mesh : SgMesh) (creaseAngle : R) : Gen SgMesh :=
  fun g =>
    if isNormalGenerationEnabled_ g then
      let filter := match meshFilter g with
                    | None => Build_MeshFilter []
                    | Some f => f
                    end in
      let (ns, idx) := MeshFilter_generateNormals mesh creaseAngle in
      (setNormals ns idx mesh,
       mkGenerator (isNormalGenerationEnabled_ g) (isBoundingBoxUpdateEnabled_ g)
                   (Some (Build_MeshFilter (creaseAngle :: creaseAngles filter)))
                   (divisionNumber_ g))
    else (mesh, g).

(** [if(isBoundingBoxUpdateEnabled_){ mesh->updateBoundingBox(); }] *)
Definition updateBoundingBoxIfEnabled (mesh : SgMesh) : Gen SgMesh :=
  fun g => (if isBoundingBoxUpdateEnabled_ g then updateBoundingBox mesh else mesh, g).

(** ** Box *)

Definition generateTextureCoordinateForBox (mesh : SgMesh) : SgMesh :=
  setTexCoords
    [V2 0 0; V2 1 0; V2 0 1; V2 1 1]
    [3; 2; 0;
     0; 1; 3;
     1; 2; 0;
     1; 3; 2;
     3; 2; 0;
     3; 0; 1;
     2; 0; 1;
     2; 1; 3;
     0; 1; 3;
     0; 3; 2;
     2; 1; 3;
     2; 0; 1]
    mesh.

Definition boxVertices (x y z : R) : list Vector3f :=
  [V3 x y z;
   V3 (- x) y z;
   V3 (- x) (- y) z;
   V3 x (- y) z;
   V3 x y (- z);
   V3 (- x) y (- z);
   V3 (- x) (- y) (- z);
   V3 x (- y) (- z)].

Definition boxTriangles : list Triangle :=
  [(0,1,2); (2,3,0);
   (0,5,1); (0,4,5);
   (1,5,6); (1,6,2);
   (2,6,7); (2,7,3);
   (3,7,4); (3,4,0);
   (4,6,5); (4,7,6)].

Definition generateBox (size : Vector3) (enableTextureCoordinate : bool)
  : Gen (option SgMesh) :=
  if Rltb (vx size) 0 || Rltb (vy size) 0 || Rltb (vz size) 0 then
    ret None
  else
    let x := (vx size * 0.5)%R in
    let y := (vy size * 0.5)%R in
    let z := (vz size * 0.5)%R in
    let mesh := newMesh in
    let mesh := setVertices (boxVertices x y z) mesh in
    let mesh := addTriangles boxTriangles mesh in
    let mesh := setPrimitive (Box size) mesh in
    mesh <- updateBoundingBoxIfEnabled mesh ;;
    mesh <- generateNormals mesh 0 ;;
    let mesh := if enableTextureCoordinate
                then generateTextureCoordinateForBox mesh else mesh in
    ret (Some mesh).

(** ** Texture coordinate points *)

Fixpoint findTexCoordPoint_from (i : Z) (texCoords : list Vector2f) (point : Vector2f) : Z :=
  match texCoords with
  | [] => -1
  | p :: rest =>
      if isApprox p point then i else findTexCoordPoint_from (i + 1) rest point
  end.

Definition findTexCoordPoint (texCoords : list Vector2f) (point : Vector2f) : Z :=
  findTexCoordPoint_from 0 texCoords point.

(** The arrays a texture coordinate builder fills, with its counter. *)
Record TexState : Type := mkTex {
  coords : list Vector2f;
  indices : list Z;
  texIndex : Z
}.

(** Reuse an approximately equal point, or append a new one. *)
Definition pushTexPoint (st : TexState) (texPoint : Vector2f) : TexState :=
  let k := findTexCoordPoint (coords st) texPoint in
  if 0 <=? k then
    mkTex (coords st) (indices st ++ [k]) (texIndex st)
  else
    mkTex (coords st ++ [texPoint]) (indices st ++ [texIndex st]) (texIndex st + 1).

Definition pushTexIndex (st : TexState) (k : Z) : TexState :=
  mkTex (coords st) (indices st ++ [k]) (texIndex st).

(** The three corners of a triangle. *)
Definition corners (vs : list Vector3f) (t : Triangle) : list Vector3f :=
  let '(a, b, c) := t in
  [at_ Vector3_Zero vs a; at_ Vector3_Zero vs b; at_ Vector3_Zero vs c].

(** The corners with their position [j = 0, 1, 2]. *)
Definition numbered {A : Type} (l : list A) : list (Z * A) :=
  combine (range 0 (size l)) l.

(** The last [j] whose corner satisfies [f], or [-1]. *)
Definition lastWhere (f : Vector3f -> bool) (point : list Vector3f) : Z :=
  fold_left (fun found jp => if f (snd jp) then fst jp else found) (numbered point) (-1).

(** Longitude of a point mapped to [0, 1]. *)
Definition longitude (p : Vector3f) : R := ((atan2 (vx p) (vz p) + PI) / 2 / PI)%R.

(** The seam rule shared by the sphere and the cylinder side. *)
Definition seamAdjust (over : bool) (sj : R) : R :=
  let sj := if Rltb sj 1.0e-6 then 0%R else sj in
  let sj := if Rltb 1 sj then 1%R else sj in
  if over && Reqb sj 0 then 1%R else sj.

(** ** Sphere *)

Definition sphereRadius (mesh : SgMesh) : R :=
  match primitive mesh with
  | Sphere radius => radius
  | _ => 0%R
  end.

Definition sphereTexTriangle (vs : list Vector3f) (radius : R)
           (st : TexState) (t : Triangle) : TexState :=
  let point := corners vs t in
  let s := map longitude point in
  let over := existsb (fun sj => Rltb 0.5 sj) s in
  fold_left
    (fun st ps =>
       let sj := seamAdjust over (snd ps) in
       let w := (vy (fst ps) / radius)%R in
       let w := if Rltb 1 w then 1%R else w in
       let w := if Rltb w (-1) then (-1)%R else w in
       pushTexPoint st (V2 sj (1 - acos w / PI)))
    (combine point s) st.

Definition generateTextureCoordinateForSphere (mesh : SgMesh) : SgMesh :=
  let st := fold_left (sphereTexTriangle (vertices mesh) (sphereRadius mesh))
                      (triangles mesh) (mkTex [] [] 0) in
  setTexCoords (coords st) (indices st) mesh.

Definition sphereRing (radius : R) (vdn hdn : Z) : list Vector3f :=
  flat_map
    (fun i =>
       let tv := (IZR i * PI / IZR vdn)%R in
       map (fun j =>
              let th := (IZR j * 2.0 * PI / IZR hdn)%R in
              V3 (radius * sin tv * cos th) (radius * cos tv) (radius * sin tv * sin th))
           (range 0 hdn))
    (range 1 vdn).

Definition sphereVertices (radius : R) (vdn hdn : Z) : list Vector3f :=
  sphereRing radius vdn hdn ++ [V3 0 radius 0; V3 0 (- radius) 0].

(** The band of triangle pairs between ring [i] and ring [i + 1]. *)
Definition bandTriangles (hdn i : Z) : list Triangle :=
  let upper := i * hdn in
  let lower := (i + 1) * hdn in
  flat_map
    (fun j =>
       [(j + upper, Z.rem (j + 1) hdn + lower, j + lower);
        (j + upper, Z.rem (j + 1) hdn + upper, Z.rem (j + 1) hdn + lower)])
    (range 0 hdn).

Definition sphereTriangles (vdn hdn topIndex bottomIndex : Z) : list Triangle :=
  (* top faces *)
  map (fun i => (topIndex, Z.rem (i + 1) hdn, i)) (range 0 hdn)
  (* side faces *)
  ++ flat_map (bandTriangles hdn) (range 0 (vdn - 2))
  (* bottom faces *)
  ++ (let offset := (vdn - 2) * hdn in
      map (fun i => (bottomIndex, Z.rem i hdn + offset, Z.rem (i + 1) hdn + offset))
          (range 0 hdn)).

Definition generateSphere (radius : R) (enableTextureCoordinate : bool)
  : Gen (option SgMesh) :=
  g <- get ;;
  if Rltb radius 0 || (divisionNumber_ g <? 4) then
    ret None
  else
    let mesh := newMesh in
    let vdn := Z.quot (divisionNumber_ g) 2 in
    let hdn := divisionNumber_ g in
    let ring := sphereRing radius vdn hdn in
    let topIndex := size ring in
    let bottomIndex := size ring + 1 in
    let mesh := setVertices (sphereVertices radius vdn hdn) mesh in
    let mesh := addTriangles (sphereTriangles vdn hdn topIndex bottomIndex) mesh in
    let mesh := setPrimitive (Sphere radius) mesh in
    mesh <- updateBoundingBoxIfEnabled mesh ;;
    mesh <- generateNormals mesh PI ;;
    let mesh := if enableTextureCoordinate
                then generateTextureCoordinateForSphere mesh else mesh in
    ret (Some mesh).

(** ** Cylinder *)

(** Cap of a cylinder or base of a cone: unwrapped radially around the
    centre point, which is texture coordinate 0. *)
Definition capTexTriangle (flip : bool) (center : Z) (point : list Vector3f)
           (st : TexState) : TexState :=
  fold_left
    (fun st jp =>
       if negb (fst jp =? center) then
         let angle := atan2 (vz (snd jp)) (vx (snd jp)) in
         pushTexPoint st
           (V2 (0.5 + 0.5 * cos angle)
               (if flip then 0.5 - 0.5 * sin angle else 0.5 + 0.5 * sin angle))
       else
         pushTexIndex st 0)
    (numbered point) st.

Definition onAxis (p : Vector3f) : bool := Reqb (vx p) 0 && Reqb (vz p) 0.

Definition cylinderTexTriangle (vs : list Vector3f) (st : TexState) (t : Triangle)
  : TexState :=
  let point := corners vs t in
  let y0 := vy (hd Vector3_Zero point) in
  let notside := forallb (fun p => Reqb y0 (vy p)) (tl point) in
  let center := lastWhere onAxis point in
  if negb notside then
    (* side *)
    let s := map longitude point in
    let over := existsb (fun sj => Rltb 0.5 sj) s in
    fold_left
      (fun st ps =>
         let sj := seamAdjust over (snd ps) in
         pushTexPoint st (V2 sj (if Rltb 0 (vy (fst ps)) then 1 else 0)))
      (combine point s) st
  else
    (* top / bottom *)
    capTexTriangle (Rltb 0 y0) center point st.

Definition generateTextureCoordinateForCylinder (mesh : SgMesh) : SgMesh :=
  let st := fold_left (cylinderTexTriangle (vertices mesh))
                      (triangles mesh) (mkTex [V2 0.5 0.5] [] 1) in
  setTexCoords (coords st) (indices st) mesh.

(** The top ring [vertices[i]] followed by the bottom ring
    [vertices[i + divisionNumber_]]. *)
Definition cylinderRings (radius y : R) (n : Z) : list Vector3f :=
  let angle i := (IZR i * 2.0 * PI / IZR n)%R in
  map (fun i => V3 (radius * cos (angle i)) y (radius * sin (angle i))) (range 0 n)
  ++ map (fun i => V3 (radius * cos (angle i)) (- y) (radius * sin (angle i))) (range 0 n).

Definition cylinderVertices (radius y : R) (n : Z) : list Vector3f :=
  cylinderRings radius y n ++ [V3 0 y 0; V3 0 (- y) 0].

Definition cylinderTriangles (n topCenterIndex bottomCenterIndex : Z)
           (bottom top side : bool) : list Triangle :=
  flat_map
    (fun i =>
       (* top face *)
       (if top then [(topCenterIndex, Z.rem (i + 1) n, i)] else [])
       (* side face (upward convex triangle, downward convex triangle) *)
       ++ (if side then [(i, Z.rem (i + 1) n + n, i + n);
                         (i, Z.rem (i + 1) n, Z.rem (i + 1) n + n)] else [])
       (* bottom face *)
       ++ (if bottom then [(bottomCenterIndex, i + n, Z.rem (i + 1) n + n)] else []))
    (range 0 n).

Definition generateCylinder (radius height : R) (bottom top side : bool)
           (enableTextureCoordinate : bool) : Gen (option SgMesh) :=
  g <- get ;;
  if Rltb height 0 || Rltb radius 0 then
    ret None
  else
    let n := divisionNumber_ g in
    let mesh := newMesh in
    let y := (height / 2.0)%R in
    let topCenterIndex := size (cylinderRings radius y n) in
    let bottomCenterIndex := size (cylinderRings radius y n) + 1 in
    let mesh := setVertices (cylinderVertices radius y n) mesh in
    let mesh := addTriangles
                  (cylinderTriangles n topCenterIndex bottomCenterIndex bottom top side)
                  mesh in
    let mesh := setPrimitive (Cylinder radius height) mesh in
    mesh <- updateBoundingBoxIfEnabled mesh ;;
    mesh <- generateNormals mesh (PI / 2.0) ;;
    let mesh := if enableTextureCoordinate
                then generateTextureCoordinateForCylinder mesh else mesh in
    ret (Some mesh).

(** ** Cone *)

Definition coneSideTexTriangle (top : Z) (point : list Vector3f) (st : TexState)
  : TexState :=
  (* s[j] for the corners other than the apex *)
  let s_pre :=
    fold_left
      (fun (acc : list R * option R) jp =>
         let '(s, pre) := acc in
         if negb (fst jp =? top) then
           let sj := longitude (snd jp) in
           let sj := match pre with
                     | Some sp => if Rltb 0.5 sp && Rltb sj 1.0e-6 then 1%R else sj
                     | None => sj
                     end in
           (s ++ [sj], Some sj)
         else (s ++ [0%R], pre))
      (numbered point) ([], None) in
  let s := fst s_pre in
  fold_left
    (fun st js =>
       if negb (fst js =? top) then
         pushTexPoint st (V2 (snd js) 0)
       else
         pushTexPoint st (V2 ((at_ 0%R s 0 + at_ 0%R s 1 + at_ 0%R s 2) / 2.0) 1))
    (numbered s) st.

Definition coneTexTriangle (vs : list Vector3f) (st : TexState) (t : Triangle)
  : TexState :=
  let point := corners vs t in
  let top := lastWhere (fun p => Rltb 0 (vy p)) point in
  let center := lastWhere onAxis point in
  if 0 <=? top then
    (* side *)
    coneSideTexTriangle top point st
  else
    (* bottom *)
    capTexTriangle false center point st.

Definition generateTextureCoordinateForCone (mesh : SgMesh) : SgMesh :=
  let st := fold_left (coneTexTriangle (vertices mesh))
                      (triangles mesh) (mkTex [V2 0.5 0.5] [] 1) in
  setTexCoords (coords st) (indices st) mesh.

Definition coneRing (radius height : R) (n : Z) : list Vector3f :=
  map (fun i =>
         let angle := (IZR i * 2.0 * PI / IZR n)%R in
         V3 (radius * cos angle) (- height / 2.0) (radius * sin angle))
      (range 0 n).

Definition coneVertices (radius height : R) (n : Z) : list Vector3f :=
  coneRing radius height n ++ [V3 0 (height / 2.0) 0; V3 0 (- height / 2.0) 0].

Definition coneTriangles (n topIndex bottomCenterIndex : Z) (bottom side : bool)
  : list Triangle :=
  flat_map
    (fun i =>
       (* side faces *)
       (if side then [(topIndex, Z.rem (i + 1) n, i)] else [])
       (* bottom faces *)
       ++ (if bottom then [(bottomCenterIndex, i, Z.rem (i + 1) n)] else []))
    (range 0 n).

Definition generateCone (radius height : R) (bottom side : bool)
           (enableTextureCoordinate : bool) : Gen (option SgMesh) :=
  g <- get ;;
  if Rltb radius 0 || Rltb height 0 then
    ret None
  else
    let n := divisionNumber_ g in
    let mesh := newMesh in
    let topIndex := size (coneRing radius height n) in
    let bottomCenterIndex := size (coneRing radius height n) + 1 in
    let mesh := setVertices (coneVertices radius height n) mesh in
    let mesh := addTriangles (coneTriangles n topIndex bottomCenterIndex bottom side) mesh in
    let mesh := setPrimitive (Cone radius height) mesh in
    mesh <- updateBoundingBoxIfEnabled mesh ;;
    mesh <- generateNormals mesh (PI / 2.0) ;;
    let mesh := if enableTextureCoordinate
                then generateTextureCoordinateForCone mesh else mesh in
    ret (Some mesh).

(** ** Capsule *)

Definition capsuleRing (radius height : R) (vdn hdn : Z) : list Vector3f :=
  flat_map
    (fun i =>
       let y := if i <=? Z.quot vdn 2 then (height / 2.0)%R else (- height / 2.0)%R in
       let tv := if i <=? Z.quot vdn 2 then (IZR i * PI / IZR vdn)%R
                 else (IZR (i - 1) * PI / IZR vdn)%R in
       map (fun j =>
              let th := (IZR j * 2.0 * PI / IZR hdn)%R in
              V3 (radius * sin tv * cos th) (radius * cos tv + y) (radius * sin tv * sin th))
           (range 0 hdn))
    (range 1 (vdn + 1)).

Definition capsuleVertices (radius height : R) (vdn hdn : Z) : list Vector3f :=
  capsuleRing radius height vdn hdn
  ++ [V3 0 (radius + height / 2.0) 0; V3 0 (- radius - height / 2.0) 0].

Definition capsuleTriangles (vdn hdn topIndex bottomIndex : Z) : list Triangle :=
  (* top faces *)
  map (fun i => (topIndex, Z.rem (i + 1) hdn, i)) (range 0 hdn)
  (* side faces *)
  ++ flat_map (bandTriangles hdn) (range 0 (vdn - 1))
  (* bottom faces *)
  ++ (let offset := (vdn - 1) * hdn in
      map (fun i => (bottomIndex, Z.rem i hdn + offset, Z.rem (i + 1) hdn + offset))
          (range 0 hdn)).

(** The latitudinal division number, made even. *)
Definition capsuleVdn (n : Z) : Z :=
  let vdn := Z.quot n 2 in
  if negb (Z.rem vdn 2 =? 0) then vdn + 1 else vdn.

Definition generateCapsule (radius height : R) : Gen (option SgMesh) :=
  g <- get ;;
  if Rltb height 0 || Rltb radius 0 then
    ret None
  else
    let mesh := newMesh in
    let vdn := capsuleVdn (divisionNumber_ g) in
    let hdn := divisionNumber_ g in
    let ring := capsuleRing radius height vdn hdn in
    let topIndex := size ring in
    let bottomIndex := size ring + 1 in
    let mesh := setVertices (capsuleVertices radius height vdn hdn) mesh in
    let mesh := addTriangles (capsuleTriangles vdn hdn topIndex bottomIndex) mesh in
    let mesh := setPrimitive (Capsule radius height) mesh in
    mesh <- updateBoundingBoxIfEnabled mesh ;;
    mesh <- generateNormals mesh (PI / 2.0) ;;
    ret (Some mesh).

(** ** Disc *)

Definition discVertices (radius innerRadius : R) (n : Z) : list Vector3f :=
  flat_map
    (fun i =>
       let angle := (IZR i * 2.0 * PI / IZR n)%R in
       let x := cos angle in
       let z := sin angle in
       [V3 (innerRadius * x) 0 (innerRadius * z); V3 (radius * x) 0 (radius * z)])
    (range 0 n).

Definition discTriangles (n : Z) : list Triangle :=
  flat_map
    (fun i =>
       let j := Z.rem (i + 1) n in
       let current := i * 2 in
       let next := j * 2 in
       [(current, current + 1, next + 1); (current, next + 1, next)])
    (range 0 n).

Definition discNormalIndices (n : Z) : list Z :=
  flat_map (fun _ => map (fun _ => 0) (range 0 6)) (range 0 n).

Definition generateDisc (radius innerRadius : R) : Gen (option SgMesh) :=
  g <- get ;;
  if Rleb innerRadius 0 || Rleb radius innerRadius then
    ret None
  else
    let n := divisionNumber_ g in
    let mesh := newMesh in
    let mesh := setVertices (discVertices radius innerRadius n) mesh in
    let mesh := setNormals [Vector3f_UnitZ] (discNormalIndices n) mesh in
    let mesh := addTriangles (discTriangles n) mesh in
    mesh <- updateBoundingBoxIfEnabled mesh ;;
    ret (Some mesh).

(** ** Torus *)

(** Conversion of a [double] to [int]: the fractional part is dropped. *)
Definition truncate (x : R) : Z :=
  if Rleb 0 x then Int_part x else - Int_part (- x).

Definition torusVertices (radius crossSectionRadius beginAngle phiStep : R)
           (phiDivisionNumber thetaDivisionNumber : Z) : list Vector3f :=
  flat_map
    (fun i =>
       (* [phi] after [i] increments by [phiStep] *)
       let phi := (beginAngle + IZR i * phiStep)%R in
       map (fun j =>
              let theta := (IZR j * 2.0 * PI / IZR thetaDivisionNumber)%R in
              let r := (crossSectionRadius * cos theta + radius)%R in
              V3 (cos phi * r) (crossSectionRadius * sin theta) (sin phi * r))
           (range 0 thetaDivisionNumber))
    (range 0 phiDivisionNumber).

Definition torusTriangles (n phiDivisionNumber thetaDivisionNumber : Z) : list Triangle :=
  flat_map
    (fun i =>
       let current := i * thetaDivisionNumber in
       let next := Z.rem (i + 1) phiDivisionNumber * thetaDivisionNumber in
       flat_map
         (fun j =>
            let j_next := Z.rem (j + 1) thetaDivisionNumber in
            [(current + j, next + j_next, next + j);
             (current + j, current + j_next, next + j_next)])
         (range 0 thetaDivisionNumber))
    (range 0 n).

(** [generateTorus(radius, crossSectionRadius, beginAngle, endAngle)] *)
Definition generateTorus4 (radius crossSectionRadius beginAngle endAngle : R)
  : Gen (option SgMesh) :=
  g <- get ;;
  let isSemiTorus := Rltb 0 beginAngle || Rltb endAngle (2.0 * PI) in
  let phiDivisionNumber := truncate (IZR (divisionNumber_ g) * endAngle / (2.0 * PI)) in
  let phiStep := ((endAngle - beginAngle) / IZR phiDivisionNumber)%R in
  let phiDivisionNumber := if isSemiTorus then phiDivisionNumber + 1 else phiDivisionNumber in
  let thetaDivisionNumber := Z.quot (divisionNumber_ g) 4 in
  let mesh := newMesh in
  let mesh := setVertices
                (torusVertices radius crossSectionRadius beginAngle phiStep
                               phiDivisionNumber thetaDivisionNumber) mesh in
  let n := if Reqb endAngle (2.0 * PI) then phiDivisionNumber else phiDivisionNumber - 1 in
  let mesh := addTriangles (torusTriangles n phiDivisionNumber thetaDivisionNumber) mesh in
  mesh <- updateBoundingBoxIfEnabled mesh ;;
  mesh <- generateNormals mesh PI ;;
  ret (Some mesh).

(** [generateTorus(radius, crossSectionRadius)], the overload for a full
    torus. *)
Definition generateTorus (radius crossSectionRadius : R) : Gen (option SgMesh) :=
  generateTorus4 radius crossSectionRadius 0 (2.0 * PI).

(** ** Arrow *)

(** Modelled from the spec: the default arguments of [generateCone] and
    [generateCylinder], declared in MeshGenerator.h, which is not among the
    sources: every face group is generated and texture coordinates are not. *)
Definition defaultFace : bool := true.
Definition defaultTextureCoordinate : bool := false.

(** What a call of [generateArrow] comes to: it returns a pointer, or it
    calls [updateBoundingBox] through a null pointer. *)
Inductive ArrowResult : Type :=
| ArrowReturned (arrow : option SgMesh)
| ArrowNullDereference.

Definition generateArrow (cylinderRadius cylinderHeight coneRadius coneHeight : R)
  : Gen ArrowResult :=
  cone <- generateCone coneRadius coneHeight defaultFace defaultFace
                       defaultTextureCoordinate ;;
  let conePos :=
    SgPosTransform (V3 0 (cylinderHeight / 2.0 + coneHeight / 2.0) 0) [SgShape cone] in
  cylinder <- generateCylinder cylinderRadius cylinderHeight true false defaultFace
                               defaultTextureCoordinate ;;
  let group := SgGroup [conePos; SgShape cylinder] in
  g <- get ;;
  match MeshExtractor_integrate group with
  | Some arrow =>
      arrow <- updateBoundingBoxIfEnabled arrow ;;
      ret (ArrowReturned (Some arrow))
  | None =>
      if isBoundingBoxUpdateEnabled_ g then ret ArrowNullDereference
      else ret (ArrowReturned None)
  end.

(** ** Elevation grid *)

Definition elevationGridVertices (grid : ElevationGrid.t) : list Vector3f :=
  flat_map
    (fun z =>
       map (fun x =>
              V3 (IZR x * ElevationGrid.xSpacing grid)
                 (at_ 0%R (ElevationGrid.height grid) (z * ElevationGrid.xDimension grid + x))
                 (IZR z * ElevationGrid.zSpacing grid))
           (range 0 (ElevationGrid.xDimension grid)))
    (range 0 (ElevationGrid.zDimension grid)).

(** The two triangles of the cell whose corner is column [x] of row
    [current]. *)
Definition cellTriangles (ccw : bool) (current next x : Z) : list Triangle :=
  if ccw then
    [(x + current, x + next, (x + 1) + next);
     (x + current, (x + 1) + next, (x + 1) + current)]
  else
    [(x + current, (x + 1) + next, x + next);
     (x + current, (x + 1) + current, (x + 1) + next)].

Definition elevationGridTriangles (grid : ElevationGrid.t) : list Triangle :=
  flat_map
    (fun z =>
       let current := z * ElevationGrid.xDimension grid in
       let next := (z + 1) * ElevationGrid.xDimension grid in
       flat_map (cellTriangles (ElevationGrid.ccw grid) current next)
                (range 0 (ElevationGrid.xDimension grid - 1)))
    (range 0 (ElevationGrid.zDimension grid - 1)).

Definition generateTextureCoordinateForElevationGrid (mesh : SgMesh) (grid : ElevationGrid.t)
  : SgMesh :=
  let xmax := (ElevationGrid.xSpacing grid * IZR (ElevationGrid.xDimension grid - 1))%R in
  let zmax := (ElevationGrid.zSpacing grid * IZR (ElevationGrid.zDimension grid - 1))%R in
  setTexCoords (map (fun v => V2 (vx v / xmax) (vz v / zmax)) (vertices mesh))
               (triangleVertices mesh) mesh.

Definition generateElevationGrid (grid : ElevationGrid.t) (enableTextureCoordinate : bool)
  : Gen (option SgMesh) :=
  if negb (ElevationGrid.xDimension grid * ElevationGrid.zDimension grid
           =? size (ElevationGrid.height grid)) then
    ret None
  else
    let mesh := newMesh in
    let mesh := setVertices (elevationGridVertices grid) mesh in
    let mesh := addTriangles (elevationGridTriangles grid) mesh in
    mesh <- generateNormals mesh (ElevationGrid.creaseAngle grid) ;;
    let mesh := if enableTextureCoordinate
                then generateTextureCoordinateForElevationGrid mesh grid else mesh in
    mesh <- updateBoundingBoxIfEnabled mesh ;;
    ret (Some mesh).

(** ** Extrusion *)

(** The state of the first pass over the spine. *)
Record SpineAxes : Type := mkAxes {
  preZaxis : Vector3;
  definedZaxis : Z;
  Yaxisarray : list Vector3;
  Zaxisarray : list Vector3
}.

Definition spineAxesStep (spine : list Vector3) (spineSize : Z) (isClosed : bool)
           (st : SpineAxes) (i : Z) : SpineAxes :=
  let sp := at_ Vector3_Zero spine in
  let zaxis spine1 spine2 spine3 :=
    cross (Vector3_sub spine3 spine2) (Vector3_sub spine1 spine2) in
  let '(Yaxis, Zaxis) :=
    if i =? 0 then
      if isClosed then
        let spine1 := sp (spineSize - 1) in
        let spine2 := sp 0 in
        let spine3 := sp 1 in
        (Vector3_sub spine3 spine1, zaxis spine1 spine2 spine3)
      else
        let spine1 := sp 0 in
        let spine2 := sp 1 in
        let spine3 := sp 2 in
        (Vector3_sub spine2 spine1, zaxis spine1 spine2 spine3)
    else if i =? spineSize - 1 then
      if isClosed then
        let spine1 := sp (spineSize - 2) in
        let spine2 := sp (spineSize - 1) in
        let spine3 := sp 0 in
        (Vector3_sub spine3 spine1, zaxis spine1 spine2 spine3)
      else
        let spine1 := sp (spineSize - 3) in
        let spine2 := sp (spineSize - 2) in
        let spine3 := sp (spineSize - 1) in
        (Vector3_sub spine3 spine2, zaxis spine1 spine2 spine3)
    else
      let spine1 := sp (i - 1) in
      let spine2 := sp i in
      let spine3 := sp (i + 1) in
      (Vector3_sub spine3 spine1, zaxis spine1 spine2 spine3) in
  if Reqb (norm Zaxis) 0 then
    let Zaxis := if negb (definedZaxis st =? -1) then preZaxis st else Zaxis in
    mkAxes (preZaxis st) (definedZaxis st)
           (Yaxisarray st ++ [Yaxis]) (Zaxisarray st ++ [Zaxis])
  else
    mkAxes Zaxis (if definedZaxis st =? -1 then i else definedZaxis st)
           (Yaxisarray st ++ [Yaxis]) (Zaxisarray st ++ [Zaxis]).

Definition spineAxes (spine : list Vector3) (spineSize : Z) (isClosed : bool) : SpineAxes :=
  let start := mkAxes Vector3_Zero (-1) [] [] in
  if 2 <? spineSize then
    fold_left (spineAxesStep spine spineSize isClosed) (range 0 spineSize) start
  else
    let Yaxis := Vector3_sub (at_ Vector3_Zero spine 1) (at_ Vector3_Zero spine 0) in
    mkAxes Vector3_Zero (-1) [Yaxis; Yaxis] [].

(** [l[i] = v] *)
Definition assign {A : Type} (l : list A) (i : Z) (v : A) : list A :=
  if i <? 0 then l
  else firstn (Z.to_nat i) l ++ match skipn (Z.to_nat i) l with
                                | [] => []
                                | _ :: rest => v :: rest
                                end.

(** One round of the second pass: the ring of vertices around spine
    point [i].  The state is the vertex array and [Zaxisarray]. *)
Definition extrusionRing (extrusion : Extrusion.t) (crossSectionSize : Z)
           (axes : SpineAxes) (st : list Vector3f * list Vector3) (i : Z)
  : list Vector3f * list Vector3 :=
  let '(vs, Zaxisarray) := st in
  let y := normalized (at_ Vector3_Zero (Yaxisarray axes) i) in
  let '(Scp, Zaxisarray) :=
    if definedZaxis axes =? -1 then
      let R := mkAngleAxis (acos (vy y)) (V3 (vz y) 0 (- vx y)) in
      (toRotationMatrix R, Zaxisarray)
    else
      let Zaxisarray :=
        if i <? definedZaxis axes
        then assign Zaxisarray i (at_ Vector3_Zero Zaxisarray (definedZaxis axes))
        else Zaxisarray in
      let Zaxisarray :=
        if negb (i =? 0)
           && Rltb (dot (at_ Vector3_Zero Zaxisarray i) (at_ Vector3_Zero Zaxisarray (i - 1))) 0
        then assign Zaxisarray i (Vector3_scale (-1) (at_ Vector3_Zero Zaxisarray i))
        else Zaxisarray in
      let z := normalized (at_ Vector3_Zero Zaxisarray i) in
      let x := cross y z in
      (fromColumns x y z, Zaxisarray) in
  let spine := at_ Vector3_Zero (Extrusion.spine extrusion) i in
  let numScales := size (Extrusion.scale extrusion) in
  let numOrientations := size (Extrusion.orientation extrusion) in
  let scale :=
    if numScales =? 1 then
      let s := at_ (V2 0 0) (Extrusion.scale extrusion) 0 in V3 (ux s) 0 (uy s)
    else if 1 <? numScales then
      let s := at_ (V2 0 0) (Extrusion.scale extrusion) i in V3 (ux s) 0 (uy s)
    else V3 1 0 1 in
  let identity := mkAngleAxis 0 Vector3f_UnitZ in
  let orientation :=
    if numOrientations =? 1 then at_ identity (Extrusion.orientation extrusion) 0
    else if 1 <? numOrientations then at_ identity (Extrusion.orientation extrusion) i
    else identity in
  let ring :=
    map (fun j =>
           let c := at_ (V2 0 0) (Extrusion.crossSection extrusion) j in
           let crossSection := V3 (ux c) 0 (uy c) in
           let v1 := V3 (vx crossSection * vx scale) 0 (vz crossSection * vz scale) in
           Vector3_add
             (Matrix3_apply (Matrix3_mul Scp (toRotationMatrix orientation)) v1)
             spine)
        (range 0 crossSectionSize) in
  (vs ++ ring, Zaxisarray).

Definition extrusionVertices (extrusion : Extrusion.t) (spineSize crossSectionSize : Z)
           (isClosed : bool) : list Vector3f :=
  let axes := spineAxes (Extrusion.spine extrusion) spineSize isClosed in
  fst (fold_left (extrusionRing extrusion crossSectionSize axes)
                 (range 0 spineSize) ([], Zaxisarray axes)).

Definition extrusionSideTriangles (spineSize crossSectionSize numSpinePoints numCrossPoints : Z)
  : list Triangle :=
  flat_map
    (fun i =>
       let ii := Z.rem (i + 1) spineSize in
       let upper := i * crossSectionSize in
       let lower := ii * crossSectionSize in
       flat_map
         (fun j =>
            let jj := Z.rem (j + 1) crossSectionSize in
            [(j + upper, j + lower, jj + lower);
             (j + upper, jj + lower, jj + upper)])
         (range 0 (numCrossPoints - 1)))
    (range 0 (numSpinePoints - 1)).

(** [for(size_t i = 0; i < triangles.size(); i += 3)]: the triples of the
    triangulator output mapped through [polygon]; [reversed] swaps the
    last two corners. *)
Definition capTriangles (reversed : bool) (polygon triangles : list Z) : list Triangle :=
  map (fun k =>
         let i := 3 * k in
         let a := at_ 0 polygon (at_ 0 triangles i) in
         let b := at_ 0 polygon (at_ 0 triangles (i + 1)) in
         let c := at_ 0 polygon (at_ 0 triangles (i + 2)) in
         if reversed then (a, c, b) else (a, b, c))
      (range 0 (Z.quot (size triangles + 2) 3)).

(** The bounding extent of the cross-section as the cap texture builder
    computes it: [(xmin, xmax, zmin, zmax)]. *)
Definition capExtent (crossSection : list Vector2) : R * R * R * R :=
  let first := hd (V2 0 0) crossSection in
  fold_left
    (fun (e : R * R * R * R) p =>
       let '(xmin, xmax, zmin, zmax) := e in
       let xmax := Rmax xmax (ux p) in
       let xmin := Rmin xmin (ux p) in
       let zmax := Rmax zmax (uy p) in
       let zmin := Rmin xmin (uy p) in
       (xmin, xmax, zmin, zmax))
    (tl crossSection) (ux first, ux first, uy first, uy first).

(** Cumulative chord lengths, starting with 0, and the total length. *)
Definition chordLengths {A : Type} (dist : A -> A -> R) (d : A) (l : list A) : list R * R :=
  fold_left
    (fun (acc : list R * R) i =>
       let len := (snd acc + dist (at_ d l i) (at_ d l (i - 1)))%R in
       (fst acc ++ [len], len))
    (range 1 (size l)) ([0%R], 0%R).

Definition dist2 (a b : Vector2) : R :=
  let x := (ux a - ux b)%R in
  let z := (uy a - uy b)%R in
  sqrt (x * x + z * z).

Definition dist3 (a b : Vector3) : R :=
  let x := (vx a - vx b)%R in
  let y := (vy a - vy b)%R in
  let z := (vz a - vz b)%R in
  sqrt (x * x + y * y + z * z).

(** Texture coordinates of the side surface. *)
Definition extrusionSideTexCoords (crossSection : list Vector2) (spine : list Vector3)
  : list Vector2f :=
  let '(s, slen) := chordLengths dist2 (V2 0 0) crossSection in
  let '(t, tlen) := chordLengths dist3 Vector3_Zero spine in
  flat_map
    (fun i =>
       map (fun j => V2 (at_ 0%R s j / slen) (at_ 0%R t i / tlen))
           (range 0 (size crossSection)))
    (range 0 (size spine)).

Definition extrusionSideTexCoordIndices (spineSize crossSectionSize : Z) : list Z :=
  flat_map
    (fun i =>
       let ii := i + 1 in
       let upper := i * crossSectionSize in
       let lower := ii * crossSectionSize in
       flat_map
         (fun j =>
            let jj := j + 1 in
            [j + upper; j + lower; jj + lower;
             j + upper; jj + lower; jj + upper])
         (range 0 (crossSectionSize - 1)))
    (range 0 (spineSize - 1)).

(** Texture coordinates of the begin cap. *)
Definition beginCapTexCoords (crossSection : list Vector2) : list Vector2f :=
  let '(xmin, xmax, zmin, zmax) := capExtent crossSection in
  let xsize := (xmax - xmin)%R in
  let zsize := (zmax - zmin)%R in
  map (fun p => V2 ((ux p - xmin) / xsize) ((uy p - zmin) / zsize)) crossSection.

(** Texture coordinates of the end cap. *)
Definition endCapTexCoords (crossSection : list Vector2) : list Vector2f :=
  let '(xmin, xmax, zmin, zmax) := capExtent crossSection in
  let xsize := (xmax - xmin)%R in
  let zsize := (zmax - zmin)%R in
  map (fun p => V2 ((xmax - ux p) / xsize) ((uy p - zmin) / zsize)) crossSection.

Definition generateTextureCoordinateForExtrusion
           (mesh : SgMesh) (crossSection : list Vector2) (spine : list Vector3)
           (numTriOfbeginCap numTriOfendCap indexOfendCap : Z) : SgMesh :=
  let spineSize := size spine in
  let crossSectionSize := size crossSection in
  let texCoords := extrusionSideTexCoords crossSection spine in
  let texCoordIndices := extrusionSideTexCoordIndices spineSize crossSectionSize in
  if numTriOfbeginCap + numTriOfendCap =? 0 then
    setTexCoords texCoords texCoordIndices mesh
  else
    let triangleVertices := triangleVertices mesh in
    let endCapE := size triangleVertices in
    let endCapS := endCapE - numTriOfendCap * 3 in
    let beginCapE := endCapS in
    let beginCapS := beginCapE - numTriOfbeginCap * 3 in
    let '(texCoords, texCoordIndices) :=
      if negb (numTriOfbeginCap =? 0) then
        let endOfTexCoord := size texCoords in
        (texCoords ++ beginCapTexCoords crossSection,
         texCoordIndices
         ++ map (fun i => at_ 0 triangleVertices i + endOfTexCoord)
                (range beginCapS beginCapE))
      else (texCoords, texCoordIndices) in
    let '(texCoords, texCoordIndices) :=
      if negb (numTriOfendCap =? 0) then
        let endOfTexCoord := size texCoords in
        (texCoords ++ endCapTexCoords crossSection,
         texCoordIndices
         ++ map (fun i => at_ 0 triangleVertices i - indexOfendCap + endOfTexCoord)
                (range endCapS endCapE))
      else (texCoords, texCoordIndices) in
    setTexCoords texCoords texCoordIndices mesh.

Definition generateExtrusion (extrusion : Extrusion.t) (enableTextureCoordinate : bool)
  : Gen (option SgMesh) :=
  let spineSize := size (Extrusion.spine extrusion) in
  let crossSectionSize := size (Extrusion.crossSection extrusion) in
  if (spineSize <? 2) || (crossSectionSize <? 2) then
    ret None
  else
    let isClosed :=
      Vector3_eqb (at_ Vector3_Zero (Extrusion.spine extrusion) 0)
                  (at_ Vector3_Zero (Extrusion.spine extrusion) (spineSize - 1)) in
    let spineSize := if isClosed then spineSize - 1 else spineSize in
    let isCrossSectionClosed :=
      Vector2_eqb (at_ (V2 0 0) (Extrusion.crossSection extrusion) 0)
                  (at_ (V2 0 0) (Extrusion.crossSection extrusion) (crossSectionSize - 1)) in
    let crossSectionSize :=
      if isCrossSectionClosed then crossSectionSize - 1 else crossSectionSize in
    if (spineSize <? 2) || (crossSectionSize <? 2) then
      ret None
    else
      let mesh := newMesh in
      let vertices := extrusionVertices extrusion spineSize crossSectionSize isClosed in
      let mesh := setVertices vertices mesh in
      let numSpinePoints := if isClosed then spineSize + 1 else spineSize in
      let numCrossPoints :=
        if isCrossSectionClosed then crossSectionSize + 1 else crossSectionSize in
      let mesh := addTriangles
                    (extrusionSideTriangles spineSize crossSectionSize
                                            numSpinePoints numCrossPoints) mesh in
      let beginTriangles :=
        if Extrusion.beginCap extrusion && negb isClosed
        then Triangulator_apply vertices (range 0 crossSectionSize) else [] in
      let numTriOfbeginCap := Z.quot (size beginTriangles) 3 in
      let mesh := addTriangles
                    (capTriangles false (range 0 crossSectionSize) beginTriangles) mesh in
      let endPolygon :=
        map (fun i => crossSectionSize * (spineSize - 1) + i) (range 0 crossSectionSize) in
      let endTriangles :=
        if Extrusion.endCap extrusion && negb isClosed
        then Triangulator_apply vertices endPolygon else [] in
      let numTriOfendCap := Z.quot (size endTriangles) 3 in
      let mesh := addTriangles (capTriangles true endPolygon endTriangles) mesh in
      mesh <- updateBoundingBoxIfEnabled mesh ;;
      mesh <- generateNormals mesh (Extrusion.creaseAngle extrusion) ;;
      let mesh :=
        if enableTextureCoordinate then
          generateTextureCoordinateForExtrusion
            mesh (Extrusion.crossSection extrusion) (Extrusion.spine extrusion)
            numTriOfbeginCap numTriOfendCap (crossSectionSize * (spineSize - 1))
        else mesh in
      ret (Some mesh).

End Generator.

(** ** Generator calls *)

(** The calls that return a mesh pointer, as one type. *)
Inductive Shape : Type :=
| BoxShape (size : Vector3) (enableTextureCoordinate : bool)
| SphereShape (radius : R) (enableTextureCoordinate : bool)
| CylinderShape (radius height : R) (bottom top side : bool) (enableTextureCoordinate : bool)
| ConeShape (radius height : R) (bottom side : bool) (enableTextureCoordinate : bool)
| CapsuleShape (radius height : R)
| DiscShape (radius innerRadius : R)
| TorusShape (radius crossSectionRadius beginAngle endAngle : R)
| ElevationGridShape (grid : ElevationGrid.t) (enableTextureCoordinate : bool)
| ExtrusionShape (extrusion : Extrusion.t) (enableTextureCoordinate : bool).

Definition generate {collaborators : Collaborators} (s : Shape) : Gen (option SgMesh) :=
  match s with
  | BoxShape size tex => generateBox size tex
  | SphereShape radius tex => generateSphere radius tex
  | CylinderShape radius height bottom top side tex =>
      generateCylinder radius height bottom top side tex
  | ConeShape radius height bottom side tex => generateCone radius height bottom side tex
  | CapsuleShape radius height => generateCapsule radius height
  | DiscShape radius innerRadius => generateDisc radius innerRadius
  | TorusShape radius crossSectionRadius beginAngle endAngle =>
      generateTorus4 radius crossSectionRadius beginAngle endAngle
  | ElevationGridShape grid tex => generateElevationGrid grid tex
  | ExtrusionShape extrusion tex => generateExtrusion extrusion tex
  end.

(** ** Properties of meshes *)

Definition indexInBounds (n i : Z) : Prop := 0 <= i < n.

Definition triangleInBounds (n : Z) (t : Triangle) : Prop :=
  let '(a, b, c) := t in
  indexInBounds n a /\ indexInBounds n b /\ indexInBounds n c.

(** Every triangle corner is an index into the vertex array. *)
Definition wellIndexed (mesh : SgMesh) : Prop :=
  Forall (triangleInBounds (size (vertices mesh))) (triangles mesh).

(** The same triangle seen from the other side. *)
Definition reverseWinding (t : Triangle) : Triangle :=
  let '(a, b, c) := t in (a, c, b).

(** ** Reference collaborators

    Simple stand-ins for the three services, used to run the generators on
    concrete inputs: no normals, a fan triangulation, and an integration
    that concatenates the meshes of a group with the translations applied. *)

Definition fanTriangulation (polygon : list Z) : list Z :=
  flat_map (fun k => [0; k; k + 1]) (range 1 (size polygon - 1)).

Definition appendShape (offset : Vector3) (acc shape : SgMesh) : SgMesh :=
  let base := size (vertices acc) in
  mkMesh (vertices acc ++ map (Vector3_add offset) (vertices shape))
         (triangles acc
          ++ map (fun t : Triangle => let '(a, b, c) := t in (a + base, b + base, c + base))
                 (triangles shape))
         [] [] [] [] MESH None.

Fixpoint integrateInto (offset : Vector3) (acc : SgMesh) (node : SgNode) {struct node}
  : SgMesh :=
  match node with
  | SgShape None => acc
  | SgShape (Some shape) => appendShape offset acc shape
  | SgPosTransform translation children =>
      fold_left (integrateInto (Vector3_add offset translation)) children acc
  | SgGroup children => fold_left (integrateInto offset) children acc
  end.

Definition referenceCollaborators : Collaborators := {|
  MeshFilter_generateNormals := fun _ _ => ([], []);
  Triangulator_apply := fun _ polygon => fanTriangulation polygon;
  MeshExtractor_integrate := fun node => Some (integrateInto Vector3_Zero newMesh node)
|}.

(** ** Extrusion: the values computed on entry *)

Definition isClosed (e : Extrusion.t) : bool :=
  let spineSize := size (Extrusion.spine e) in
  Vector3_eqb (at_ Vector3_Zero (Extrusion.spine e) 0)
              (at_ Vector3_Zero (Extrusion.spine e) (spineSize - 1)).

Definition isCrossSectionClosed (e : Extrusion.t) : bool :=
  let crossSectionSize := size (Extrusion.crossSection e) in
  Vector2_eqb (at_ (V2 0 0) (Extrusion.crossSection e) 0)
              (at_ (V2 0 0) (Extrusion.crossSection e) (crossSectionSize - 1)).

(** [spineSize] and [crossSectionSize] after the closure adjustment. *)
Definition spineSize (e : Extrusion.t) : Z :=
  if isClosed e then size (Extrusion.spine e) - 1 else size (Extrusion.spine e).

Definition crossSectionSize (e : Extrusion.t) : Z :=
  if isCrossSectionClosed e then size (Extrusion.crossSection e) - 1
  else size (Extrusion.crossSection e).

Definition beginPolygon (e : Extrusion.t) : list Z := range 0 (crossSectionSize e).

Definition endPolygon (e : Extrusion.t) : list Z :=
  map (fun i => crossSectionSize e * (spineSize e - 1) + i) (range 0 (crossSectionSize e)).

Definition sideTriangles (e : Extrusion.t) : list Triangle :=
  extrusionSideTriangles
    (spineSize e) (crossSectionSize e)
    (if isClosed e then spineSize e + 1 else spineSize e)
    (if isCrossSectionClosed e then crossSectionSize e + 1 else crossSectionSize e).

(** What the triangulator returns for the begin and the end cap; nothing
    when the cap is not generated. *)
Definition beginCapOutput {collaborators : Collaborators} (e : Extrusion.t) : list Z :=
  if Extrusion.beginCap e && negb (isClosed e)
  then Triangulator_apply
         (extrusionVertices e (spineSize e) (crossSectionSize e) (isClosed e))
         (beginPolygon e)
  else [].

Definition endCapOutput {collaborators : Collaborators} (e : Extrusion.t) : list Z :=
  if Extrusion.endCap e && negb (isClosed e)
  then Triangulator_apply
         (extrusionVertices e (spineSize e) (crossSectionSize e) (isClosed e))
         (endPolygon e)
  else [].

(** ** Closure of a contour, in the words of the specification

    A contour is closed when its first and last points coincide exactly;
    closing reduces the effective point count by one. *)

Definition closedContour {A : Type} (eqb : A -> A -> bool) (l : list A) : bool :=
  match l with
  | [] => false
  | first :: _ => eqb first (last l first)
  end.

Definition effectivePoints {A : Type} (eqb : A -> A -> bool) (l : list A) : Z :=
  if closedContour eqb l then size l - 1 else size l.

(** ** Dimensions of a call *)

(** The solids with an analytic primitive tag, called with dimensions that
    are all at least zero. *)
Definition nonNegativeSolid (s : Shape) : Prop :=
  match s with
  | BoxShape size _ => (0 <= vx size /\ 0 <= vy size /\ 0 <= vz size)%R
  | SphereShape radius _ => (0 <= radius)%R
  | CylinderShape radius height _ _ _ _ => (0 <= radius /\ 0 <= height)%R
  | ConeShape radius height _ _ _ => (0 <= radius /\ 0 <= height)%R
  | CapsuleShape radius height => (0 <= radius /\ 0 <= height)%R
  | _ => False
  end.

(** The same call with every dimension set to zero. *)
Definition zeroDimensions (s : Shape) : Shape :=
  match s with
  | BoxShape _ tex => BoxShape (V3 0 0 0) tex
  | SphereShape _ tex => SphereShape 0 tex
  | CylinderShape _ _ bottom top side tex => CylinderShape 0 0 bottom top side tex
  | ConeShape _ _ bottom side tex => ConeShape 0 0 bottom side tex
  | CapsuleShape _ _ => CapsuleShape 0 0
  | other => other
  end.

(** The sphere is the generator that checks the division number. *)
Definition resolutionChecked (s : Shape) : bool :=
  match s with
  | SphereShape _ _ => true
  | _ => false
  end.

(** Some dimension of the call is negative, for the generators that
    validate their dimensions. *)
Definition negativeDimension (s : Shape) : Prop :=
  match s with
  | BoxShape size _ => (vx size < 0 \/ vy size < 0 \/ vz size < 0)%R
  | SphereShape radius _ => (radius < 0)%R
  | CylinderShape radius height _ _ _ _ => (radius < 0 \/ height < 0)%R
  | ConeShape radius height _ _ _ => (radius < 0 \/ height < 0)%R
  | CapsuleShape radius height => (radius < 0 \/ height < 0)%R
  | DiscShape radius innerRadius => (radius < 0 \/ innerRadius < 0)%R
  | _ => False
  end.

Definition sameCounts (m m' : SgMesh) : Prop :=
  size (vertices m) = size (vertices m') /\ numTriangles m = numTriangles m'.

Definition atOrigin (m : SgMesh) : Prop :=
  Forall (fun v => v = Vector3_Zero) (vertices m).

(** ** Elevation grid cells *)

(** [p] is a corner of the triangle. *)
Definition corner (p : Z) (t : Triangle) : Prop :=
  let '(a, b, c) := t in p = a \/ p = b \/ p = c.

(** The triangle has the diagonal from [p] to [q] as an edge. *)
Definition usesDiagonal (p q : Z) (t : Triangle) : Prop := corner p t /\ corner q t.

(** The descriptor with its winding flag replaced. *)
Definition withCcw (ccw : bool) (grid : ElevationGrid.t) : ElevationGrid.t :=
  ElevationGrid.mk (ElevationGrid.xDimension grid) (ElevationGrid.zDimension grid)
                   (ElevationGrid.xSpacing grid) (ElevationGrid.zSpacing grid)
                   (ElevationGrid.height grid) ccw (ElevationGrid.creaseAngle grid).

(** The number of cells of the grid. *)
Definition numCells (grid : ElevationGrid.t) : Z :=
  size (range 0 (ElevationGrid.zDimension grid - 1))
  * size (range 0 (ElevationGrid.xDimension grid - 1)).

(** A flat grid of 2 x 2 samples with unit spacing and crease angle 0. *)
Definition unitGrid (ccw : bool) : ElevationGrid.t :=
  ElevationGrid.mk 2 2 1 1 [0; 0; 0; 0]%R ccw 0.

(** The extent of a contour in the words of the specification: its own
    2D bounding box, [(xmin, xmax, zmin, zmax)]. *)
Definition boundingExtent (crossSection : list Vector2) : R * R * R * R :=
  let first := hd (V2 0 0) crossSection in
  fold_left
    (fun (e : R * R * R * R) p =>
       let '(xmin, xmax, zmin, zmax) := e in
       (Rmin xmin (ux p), Rmax xmax (ux p), Rmin zmin (uy p), Rmax zmax (uy p)))
    (tl crossSection) (ux first, ux first, uy first, uy first).
(** A triangular contour, closed, swept along the unit segment of the Y
    axis, with both caps. *)
Definition trianglePrism : Extrusion.t :=
  Extrusion.mk [V2 4 2; V2 6 0; V2 6 4; V2 4 2] [V3 0 0 0; V3 0 1 0] [] [] 0 true true.

(** ** Conditions on a call *)

(** The triangulator returned whole triples of positions in the polygon. *)
Definition triangulated (polygon output : list Z) : Prop :=
  Z.rem (size output) 3 = 0 /\ Forall (indexInBounds (size polygon)) output.

(** The calls covered by the index bound: every call but the capsule at
    division number 1; the caps of an extrusion are covered when the
    triangulator keeps to its contract. *)
Definition indexable {collaborators : Collaborators} (g : MeshGenerator) (s : Shape) : Prop :=
  match s with
  | CapsuleShape _ _ => divisionNumber g <> 1
  | ExtrusionShape e _ =>
      triangulated (beginPolygon e) (beginCapOutput e)
      /\ triangulated (endPolygon e) (endCapOutput e)
  | _ => True
  end.

(** The calls that ask for at least one face. *)
Definition facesRequested (g : MeshGenerator) (s : Shape) : Prop :=
  match s with
  | BoxShape _ _ => True
  | SphereShape _ _ => True
  | CylinderShape _ _ bottom top side _ =>
      1 <= divisionNumber g /\ bottom || top || side = true
  | ConeShape _ _ bottom side _ =>
      1 <= divisionNumber g /\ bottom || side = true
  | CapsuleShape _ _ => 1 <= divisionNumber g
  | DiscShape _ _ => 1 <= divisionNumber g
  | TorusShape _ _ _ endAngle =>
      4 <= divisionNumber g /\ (2.0 * PI <= IZR (divisionNumber g) * endAngle)%R
  | ElevationGridShape grid _ =>
      2 <= ElevationGrid.xDimension grid /\ 2 <= ElevationGrid.zDimension grid
  | ExtrusionShape _ _ => True
  end.

(** ** What each generator returns *)

(** The call returns a mesh with the given vertices and triangles. *)
Definition generates (c : Gen (option SgMesh)) (g : MeshGenerator)
           (vs : list Vector3f) (ts : list Triangle) : Prop :=
  exists mesh, result c g = Some mesh /\ vertices mesh = vs /\ triangles mesh = ts.

(** The call returns a null pointer and leaves the generator as it was. *)
Definition rejects {A : Type} (c : Gen (option A)) (g : MeshGenerator) : Prop :=
  c g = (None, g).

(** The crease angle each generator passes to the normal generator; the
    disc does not use the normal generator. *)
Definition creaseAngleOf (s : Shape) : option R :=
  match s with
  | BoxShape _ _ => Some 0%R
  | SphereShape _ _ => Some PI
  | CylinderShape _ _ _ _ _ _ => Some (PI / 2.0)%R
  | ConeShape _ _ _ _ _ => Some (PI / 2.0)%R
  | CapsuleShape _ _ => Some (PI / 2.0)%R
  | DiscShape _ _ => None
  | TorusShape _ _ _ _ => Some PI
  | ElevationGridShape grid _ => Some (ElevationGrid.creaseAngle grid)
  | ExtrusionShape extrusion _ => Some (Extrusion.creaseAngle extrusion)
  end.

(** A unit square swept along the unit segment of the Y axis. *)
Definition squarePrism : Extrusion.t :=
  Extrusion.mk [V2 0 0; V2 1 0; V2 1 1; V2 0 1; V2 0 0] [V3 0 0 0; V3 0 1 0] [] [] 0 true true.

(** ** Texture coordinate arrays *)

Definition inUnitSquare (p : Vector2) : Prop :=
  (0 <= ux p <= 1)%R /\ (0 <= uy p <= 1)%R.

(** No coordinate is approximately equal to an earlier one. *)
Definition deduplicated (l : list Vector2f) : Prop :=
  ForallOrdPairs (fun a b => isApprox a b = false) l.

(** The texture index array has three entries per triangle, each an index
    into the texture coordinate array. *)
Definition textureIndexed (m : SgMesh) : Prop :=
  size (texCoordIndices m) = 3 * numTriangles m
  /\ Forall (indexInBounds (size (texCoords m))) (texCoordIndices m).

(** What a texture coordinate builder keeps true of its arrays: the
    counter is the size of the coordinate array, the indices are in
    bounds, the coordinates satisfy [P] and are deduplicated. *)
Definition texInvariant (P : Vector2f -> Prop) (st : TexState) : Prop :=
  texIndex st = size (coords st)
  /\ Forall (indexInBounds (size (coords st))) (indices st)
  /\ Forall P (coords st)
  /\ deduplicated (coords st).

(** [st'] follows [st] after [n] indices were appended. *)
Definition texStep (P : Vector2f -> Prop) (n : Z) (st st' : TexState) : Prop :=
  (texInvariant P st -> texInvariant P st')
  /\ size (indices st') = size (indices st) + n
  /\ size (coords st) <= size (coords st').

(** The calls that ask for texture coordinates, for the generators with a
    texture coordinate builder of their own. *)
Definition texturedCall (s : Shape) : Prop :=
  match s with
  | BoxShape _ tex => tex = true
  | SphereShape _ tex => tex = true
  | CylinderShape _ _ _ _ _ tex => tex = true
  | ConeShape _ _ _ _ tex => tex = true
  | ElevationGridShape _ tex => tex = true
  | _ => False
  end.

(** The textured calls whose builder looks points up before it appends
    them: sphere, cylinder and cone. *)
Definition sharedPointCall (s : Shape) : Prop :=
  match s with
  | SphereShape _ tex => tex = true
  | CylinderShape _ _ _ _ _ tex => tex = true
  | ConeShape _ _ _ _ tex => tex = true
  | _ => False
  end.


(** The builder a textured call runs on its mesh. *)
Definition textureBuilder (s : Shape) (m : SgMesh) : SgMesh :=
  match s with
  | BoxShape _ _ => generateTextureCoordinateForBox m
  | SphereShape _ _ => generateTextureCoordinateForSphere m
  | CylinderShape _ _ _ _ _ _ => generateTextureCoordinateForCylinder m
  | ConeShape _ _ _ _ _ => generateTextureCoordinateForCone m
  | ElevationGridShape grid _ => generateTextureCoordinateForElevationGrid m grid
  | _ => m
  end.

(** ** Surfaces *)

(** [v] is on the upper half of the sphere of the top cap of a capsule, or
    on the lower half of the sphere of its bottom cap. *)
Definition onCapsule (radius height : R) (v : Vector3f) : Prop :=
  (squaredNorm (Vector3_sub v (V3 0 (height / 2) 0)) = (radius * radius)%R
   /\ (height / 2 <= vy v)%R)
  \/ (squaredNorm (Vector3_sub v (V3 0 (- (height / 2)) 0)) = (radius * radius)%R
      /\ (vy v <= - (height / 2))%R).


(** ** Use of a generator *)

(** The generators a client can hold: a new one, changed by the setters
    and by the generation calls it has served. *)
Inductive used {collaborators : Collaborators} : MeshGenerator -> Prop :=
| used_new : used MeshGenerator_new
| used_setDivisionNumber n g : used g -> used (setDivisionNumber n g)
| used_setNormalGenerationEnabled on g : used g -> used (setNormalGenerationEnabled on g)
| used_enableNormalGeneration on g : used g -> used (enableNormalGeneration on g)
| used_setBoundingBoxUpdateEnabled on g : used g -> used (setBoundingBoxUpdateEnabled on g)
| used_generate s g : used g -> used (after (generate s) g).

(** The part of a mesh that does not come from the mesh filter. *)
Definition geometryOf (m : SgMesh) :=
  (vertices m, triangles m, texCoords m, texCoordIndices m, primitive m, boundingBox m).

(** ** Extrusion texture *)



(** The extrusion of [crossSection] from [p] straight up by [h], with the
    default scale and orientation. *)
Definition upright (crossSection : list Vector2) (p : Vector3) (h creaseAngle : R)
           (beginCap endCap : bool) : Extrusion.t :=
  Extrusion.mk crossSection [p; V3 (vx p) (vy p + h) (vz p)] [] [] creaseAngle
               beginCap endCap.

(** ** Line set of an extrusion *)

(** Modelled from the spec: the companion line set [SgLineSet] of an
    extrusion, declared outside MeshGenerator.cpp: a vertex array, shared
    with the mesh, and the lines, each a pair of vertex indices. *)
Record SgLineSet : Type := mkLineSet {
  lineSetVertices : list Vector3f;
  lines : list (Z * Z)
}.

(** The lines added by [generateExtrusionLineSet]: around each of the first
    [n] rings and from each of its points to the next ring, then around the
    last ring when the spine is open.  The offset [o] is [i * m] in round
    [i] and [n * m] after the loop. *)
Definition extrusionLines (n m : Z) (isSpineClosed : bool) : list (Z * Z) :=
  flat_map
    (fun i =>
       let o := i * m in
       flat_map (fun j => [(o + j, o + Z.rem (j + 1) m); (o + j, o + j + m)])
                (range 0 m))
    (range 0 n)
  ++ (if negb isSpineClosed then
        let o := n * m in
        map (fun j => (o + j, o + Z.rem (j + 1) m)) (range 0 m)
      else []).

Definition generateExtrusionLineSet (extrusion : Extrusion.t) (mesh : SgMesh)
  : option SgLineSet :=
  let nc := size (Extrusion.crossSection extrusion) in
  let ns := size (Extrusion.spine extrusion) in
  if (nc <? 4) || (ns <? 2) then
    None
  else
    let n := ns - 1 in
    let isSpineClosed :=
      Vector3_eqb (at_ Vector3_Zero (Extrusion.spine extrusion) 0)
                  (at_ Vector3_Zero (Extrusion.spine extrusion) (ns - 1)) in
    let isCrossSectionClosed :=
      Vector2_eqb (at_ (V2 0 0) (Extrusion.crossSection extrusion) 0)
                  (at_ (V2 0 0) (Extrusion.crossSection extrusion) (nc - 1)) in
    let m := if isCrossSectionClosed then nc - 1 else nc in
    Some (mkLineSet (vertices mesh) (extrusionLines n m isSpineClosed)).

(** Both ends of a line are positions of the vertex array. *)
Definition lineInBounds (n : Z) (l : Z * Z) : Prop :=
  indexInBounds n (fst l) /\ indexInBounds n (snd l).

(** ** Texture of an indexed face set *)

(** [v[j]] and [v[j] = x] for [j = 0, 1, 2]. *)
Definition component (v : Vector3) (j : Z) : R :=
  if j =? 0 then vx v else if j =? 1 then vy v else vz v.

Definition setComponent (v : Vector3) (j : Z) (x : R) : Vector3 :=
  if j =? 0 then V3 x (vy v) (vz v)
  else if j =? 1 then V3 (vx v) x (vz v)
  else V3 (vx v) (vy v) x.

(** The body of the inner loop over the components of vertex [vi]; the
    state is [(max, min)]. *)
Definition extentStep (vi : Vector3f) (mm : Vector3f * Vector3f) (j : Z)
  : Vector3f * Vector3f :=
  let vij := component vi j in
  if Rltb (component (fst mm) j) vij then
    (setComponent (fst mm) j vij, snd mm)
  else if Rltb vij (component (snd mm) j) then
    (fst mm, setComponent (snd mm) j vij)
  else mm.

(** [(max, min)] over the vertex array, starting from [vertices[0]]. *)
Definition vertexExtent (vertices : list Vector3f) : Vector3f * Vector3f :=
  let v0 := at_ Vector3_Zero vertices 0 in
  fold_left
    (fun mm i => fold_left (extentStep (at_ Vector3_Zero vertices i)) (range 0 3) mm)
    (range 1 (size vertices)) (v0, v0).

(** The axis [s] of the largest extent and the axis [t] of the second
    largest. *)
Definition textureAxes (extent : Vector3f) : Z * Z :=
  if Rleb (vy extent) (vx extent) then
    if Rleb (vz extent) (vx extent) then
      (0, if Rleb (vz extent) (vy extent) then 1 else 2)
    else (2, 0)
  else
    if Rleb (vz extent) (vy extent) then
      (1, if Rleb (vz extent) (vx extent) then 0 else 2)
    else (2, 1).

Definition generateTextureCoordinateForIndexedFaceSet (mesh : SgMesh) : SgMesh :=
  let vertices := vertices mesh in
  let max := fst (vertexExtent vertices) in
  let min := snd (vertexExtent vertices) in
  let n := size vertices in
  let extent := Vector3_sub max min in
  let s := fst (textureAxes extent) in
  let t := snd (textureAxes extent) in
  let ratio := (component extent t / component extent s)%R in
  let texCoords :=
    map (fun i =>
           let v := at_ Vector3_Zero vertices i in
           V2 ((component v s - component min s) / component extent s)
              ((component v t - component min t) / component extent t * ratio))
        (range 0 n) in
  setTexCoords texCoords (triangleVertices mesh) mesh.

(** [v] is inside the box from [lo] to [hi]. *)
Definition insideBox (lo hi v : Vector3) : Prop :=
  (vx lo <= vx v <= vx hi)%R /\ (vy lo <= vy v <= vy hi)%R /\ (vz lo <= vz v <= vz hi)%R.

(** Three vertices in the plane [z = 0], 2 wide and 1 high. *)
Definition flatTriangle : SgMesh := setVertices [V3 0 0 0; V3 2 1 0; V3 1 0 0] newMesh.

(** ** Orientation of triangles *)

(** The three corners of [t] agree in one coordinate: the triangle lies in
    a plane orthogonal to an axis. *)
Definition inAxisPlane (vs : list Vector3f) (t : Triangle) : Prop :=
  let '(a, b, c) := t in
  let pa := at_ Vector3_Zero vs a in
  let pb := at_ Vector3_Zero vs b in
  let pc := at_ Vector3_Zero vs c in
  exists j, 0 <= j < 3
            /\ component pa j = component pb j /\ component pb j = component pc j.

(** The normal of [t] by the right-hand rule does not point towards the
    origin. *)
Definition facesOutward (vs : list Vector3f) (t : Triangle) : Prop :=
  let '(a, b, c) := t in
  let pa := at_ Vector3_Zero vs a in
  let pb := at_ Vector3_Zero vs b in
  let pc := at_ Vector3_Zero vs c in
  (0 <= dot (cross (Vector3_sub pb pa) (Vector3_sub pc pa))
            (Vector3_add pa (Vector3_add pb pc)))%R.

(** * Properties *)

(** ** Comparisons *)

Lemma Rltb_true (x y : R) : Rltb x y = true <-> (x < y)%R.
Proof. unfold Rltb. destruct (Rlt_dec x y); split; intros; try easy. Qed.

Lemma Rltb_false (x y : R) : Rltb x y = false <-> (y <= x)%R.
Proof. unfold Rltb. destruct (Rlt_dec x y); split; intros; try easy; lra. Qed.

Lemma Rleb_true (x y : R) : Rleb x y = true <-> (x <= y)%R.
Proof. unfold Rleb. destruct (Rle_dec x y); split; intros; try easy. Qed.

Lemma Rleb_false (x y : R) : Rleb x y = false <-> (y < x)%R.
Proof. unfold Rleb. destruct (Rle_dec x y); split; intros; try easy; lra. Qed.

Lemma Reqb_true (x y : R) : Reqb x y = true <-> x = y.
Proof. unfold Reqb. destruct (Req_dec_T x y); split; intros; try easy. Qed.

Lemma Reqb_false (x y : R) : Reqb x y = false <-> x <> y.
Proof. unfold Reqb. destruct (Req_dec_T x y); split; intros; try easy. Qed.

(** ** The division number *)

(** The setter keeps the division number at or above zero. *)
Lemma reachable_divisionNumber (g : MeshGenerator) : reachable g -> 0 <= divisionNumber g.
Proof.
  unfold divisionNumber. induction 1; cbn; try assumption.
  - discriminate.
  - destruct (n <? 0) eqn:E; [discriminate | apply Z.ltb_ge, E].
Qed.

(** ** Ranges and sizes *)

Lemma in_range (lo hi i : Z) : In i (range lo hi) <-> lo <= i < hi.
Proof.
  unfold range. rewrite in_map_iff. split.
  - intros [k [<- Hk]]. apply in_seq in Hk. lia.
  - intros H. exists (Z.to_nat (i - lo)). split; [lia|]. apply in_seq. lia.
Qed.

Lemma length_range (lo hi : Z) : length (range lo hi) = Z.to_nat (hi - lo).
Proof. unfold range. now rewrite length_map, length_seq. Qed.

Lemma size_range (lo hi : Z) : lo <= hi -> size (range lo hi) = hi - lo.
Proof. intros H. unfold size. rewrite length_range. lia. Qed.

Lemma range_empty (lo hi : Z) : hi <= lo -> range lo hi = [].
Proof.
  intros H. unfold range. replace (Z.to_nat (hi - lo)) with 0%nat by lia. reflexivity.
Qed.

Lemma range_nonempty (lo hi : Z) : lo < hi -> range lo hi <> [].
Proof.
  intros H E. assert (Hin : In lo (range lo hi)) by (apply in_range; lia).
  rewrite E in Hin. exact Hin.
Qed.

Lemma size_app {A : Type} (l l' : list A) : size (l ++ l') = size l + size l'.
Proof. unfold size. rewrite length_app. lia. Qed.

Lemma size_map {A B : Type} (f : A -> B) (l : list A) : size (map f l) = size l.
Proof. unfold size. now rewrite length_map. Qed.

Lemma size_nonneg {A : Type} (l : list A) : 0 <= size l.
Proof. unfold size. lia. Qed.

(** A nest of loops whose body always appends [k] elements. *)
Lemma size_flat_map {A B : Type} (f : A -> list B) (k : Z) (l : list A) :
  (forall a, In a l -> size (f a) = k) -> size (flat_map f l) = size l * k.
Proof.
  induction l as [|a l IH]; intros H; cbn [flat_map].
  - reflexivity.
  - rewrite size_app, IH by (intros; apply H; simpl; auto).
    rewrite (H a) by (simpl; auto).
    unfold size. change (length (a :: l)) with (S (length l)).
    rewrite Nat2Z.inj_succ. ring.
Qed.

Lemma flat_map_nonempty {A B : Type} (f : A -> list B) (l : list A) (a : A) :
  In a l -> f a <> [] -> flat_map f l <> [].
Proof.
  intros Hin Hf E. apply Hf.
  assert (H : forall b, In b (f a) -> False).
  { intros b Hb. assert (Hb' : In b (flat_map f l)) by (apply in_flat_map; eauto).
    rewrite E in Hb'. exact Hb'. }
  destruct (f a) as [|b r]; [reflexivity|]. exfalso. apply (H b). simpl. auto.
Qed.

(** ** The index loops on small inputs *)

(** Division number 4: a sphere of two fans around the single ring. *)
Example sphereTriangles_4 :
  sphereTriangles 2 4 4 5
  = [(4, 1, 0); (4, 2, 1); (4, 3, 2); (4, 0, 3);
     (5, 0, 1); (5, 1, 2); (5, 2, 3); (5, 3, 0)].
Proof. reflexivity. Qed.

(** Division number 3: a prism, face by face around the axis. *)
Example cylinderTriangles_3 :
  cylinderTriangles 3 6 7 true true true
  = [(6, 1, 0); (0, 4, 3); (0, 1, 4); (7, 3, 4);
     (6, 2, 1); (1, 5, 4); (1, 2, 5); (7, 4, 5);
     (6, 0, 2); (2, 3, 5); (2, 0, 3); (7, 5, 3)].
Proof. reflexivity. Qed.

Example coneTriangles_3 :
  coneTriangles 3 3 4 true true
  = [(3, 1, 0); (4, 0, 1); (3, 2, 1); (4, 1, 2); (3, 0, 2); (4, 2, 0)].
Proof. reflexivity. Qed.

(** The latitudinal division number of the capsule is even. *)
Example capsuleVdn_values :
  map capsuleVdn [0; 1; 2; 3; 4; 6; 20] = [0; 0; 2; 2; 2; 4; 10].
Proof. reflexivity. Qed.

Example discTriangles_3 :
  discTriangles 3 = [(0, 1, 3); (0, 3, 2); (2, 3, 5); (2, 5, 4); (4, 5, 1); (4, 1, 0)].
Proof. reflexivity. Qed.

(** A closed spine of three points under an open contour of two: the
    last band joins ring 2 to ring 0. *)
Example extrusionSideTriangles_closed_spine :
  extrusionSideTriangles 3 2 4 2
  = [(0, 2, 3); (0, 3, 1); (2, 4, 5); (2, 5, 3); (4, 0, 1); (4, 1, 5)].
Proof. reflexivity. Qed.

(** The end cap of a fan has the last two corners exchanged. *)
Example capTriangles_fan :
  capTriangles false [4; 5; 6; 7] (fanTriangulation [4; 5; 6; 7]) = [(4, 5, 6); (4, 6, 7)]
  /\ capTriangles true [4; 5; 6; 7] (fanTriangulation [4; 5; 6; 7]) = [(4, 6, 5); (4, 7, 6)].
Proof. split; reflexivity. Qed.

(** A grid of 3 x 2 samples has two cells. *)
Example elevationGridTriangles_3_2 :
  elevationGridTriangles (ElevationGrid.mk 3 2 1 1 [] true 0)
  = [(0, 3, 4); (0, 4, 1); (1, 4, 5); (1, 5, 2)]
  /\ elevationGridTriangles (ElevationGrid.mk 3 2 1 1 [] false 0)
     = [(0, 4, 3); (0, 1, 4); (1, 5, 4); (1, 2, 5)].
Proof. split; reflexivity. Qed.

(** ** Running the generator monad *)

Create Rewrite HintDb mesh.

Section Running.

Context {collaborators : Collaborators}.

Lemma run_bind {A B : Type} (c : Gen A) (k : A -> Gen B) (g : MeshGenerator) :
  bind c k g = k (fst (c g)) (snd (c g)).
Proof. unfold bind. destruct (c g). reflexivity. Qed.

Lemma generateNormals_vertices (m : SgMesh) (a : R) (g : MeshGenerator) :
  vertices (fst (generateNormals m a g)) = vertices m.
Proof.
  unfold generateNormals. destruct (isNormalGenerationEnabled_ g); [|reflexivity].
  destruct (MeshFilter_generateNormals m a). reflexivity.
Qed.

Lemma generateNormals_triangles (m : SgMesh) (a : R) (g : MeshGenerator) :
  triangles (fst (generateNormals m a g)) = triangles m.
Proof.
  unfold generateNormals. destruct (isNormalGenerationEnabled_ g); [|reflexivity].
  destruct (MeshFilter_generateNormals m a). reflexivity.
Qed.

Lemma generateNormals_enabled (m : SgMesh) (a : R) (g : MeshGenerator) :
  isNormalGenerationEnabled_ g = true ->
  normalRequests (snd (generateNormals m a g)) = a :: normalRequests g.
Proof.
  intros H. unfold generateNormals. rewrite H.
  destruct (MeshFilter_generateNormals m a). unfold normalRequests. cbn.
  destruct (meshFilter g); reflexivity.
Qed.

Lemma generateNormals_disabled (m : SgMesh) (a : R) (g : MeshGenerator) :
  isNormalGenerationEnabled_ g = false -> generateNormals m a g = (m, g).
Proof. intros H. unfold generateNormals. now rewrite H. Qed.

Lemma generateNormals_flags (m : SgMesh) (a : R) (g : MeshGenerator) :
  isBoundingBoxUpdateEnabled_ (snd (generateNormals m a g)) = isBoundingBoxUpdateEnabled_ g
  /\ divisionNumber_ (snd (generateNormals m a g)) = divisionNumber_ g.
Proof.
  unfold generateNormals. destruct (isNormalGenerationEnabled_ g); [|split; reflexivity].
  destruct (MeshFilter_generateNormals m a). split; reflexivity.
Qed.

Lemma updateBoundingBoxIfEnabled_vertices (m : SgMesh) (g : MeshGenerator) :
  vertices (fst (updateBoundingBoxIfEnabled m g)) = vertices m.
Proof.
  unfold updateBoundingBoxIfEnabled. cbn [fst].
  now destruct (isBoundingBoxUpdateEnabled_ g).
Qed.

Lemma updateBoundingBoxIfEnabled_triangles (m : SgMesh) (g : MeshGenerator) :
  triangles (fst (updateBoundingBoxIfEnabled m g)) = triangles m.
Proof.
  unfold updateBoundingBoxIfEnabled. cbn [fst].
  now destruct (isBoundingBoxUpdateEnabled_ g).
Qed.

Lemma updateBoundingBoxIfEnabled_state (m : SgMesh) (g : MeshGenerator) :
  snd (updateBoundingBoxIfEnabled m g) = g.
Proof. reflexivity. Qed.

Lemma textureBox_vertices (m : SgMesh) :
  vertices (generateTextureCoordinateForBox m) = vertices m.
Proof. reflexivity. Qed.

Lemma textureBox_triangles (m : SgMesh) :
  triangles (generateTextureCoordinateForBox m) = triangles m.
Proof. reflexivity. Qed.

Lemma textureSphere_vertices (m : SgMesh) :
  vertices (generateTextureCoordinateForSphere m) = vertices m.
Proof. reflexivity. Qed.

Lemma textureSphere_triangles (m : SgMesh) :
  triangles (generateTextureCoordinateForSphere m) = triangles m.
Proof. reflexivity. Qed.

Lemma textureCylinder_vertices (m : SgMesh) :
  vertices (generateTextureCoordinateForCylinder m) = vertices m.
Proof. reflexivity. Qed.

Lemma textureCylinder_triangles (m : SgMesh) :
  triangles (generateTextureCoordinateForCylinder m) = triangles m.
Proof. reflexivity. Qed.

Lemma textureCone_vertices (m : SgMesh) :
  vertices (generateTextureCoordinateForCone m) = vertices m.
Proof. reflexivity. Qed.

Lemma textureCone_triangles (m : SgMesh) :
  triangles (generateTextureCoordinateForCone m) = triangles m.
Proof. reflexivity. Qed.

Lemma textureElevationGrid_vertices (m : SgMesh) (grid : ElevationGrid.t) :
  vertices (generateTextureCoordinateForElevationGrid m grid) = vertices m.
Proof. reflexivity. Qed.

Lemma textureElevationGrid_triangles (m : SgMesh) (grid : ElevationGrid.t) :
  triangles (generateTextureCoordinateForElevationGrid m grid) = triangles m.
Proof. reflexivity. Qed.

Lemma textureExtrusion_vertices (m : SgMesh) (cs : list Vector2) (sp : list Vector3)
      (nb ne idx : Z) :
  vertices (generateTextureCoordinateForExtrusion m cs sp nb ne idx) = vertices m.
Proof.
  unfold generateTextureCoordinateForExtrusion. cbv zeta.
  destruct (nb + ne =? 0); [reflexivity|].
  destruct (negb (nb =? 0)), (negb (ne =? 0)); reflexivity.
Qed.

Lemma textureExtrusion_triangles (m : SgMesh) (cs : list Vector2) (sp : list Vector3)
      (nb ne idx : Z) :
  triangles (generateTextureCoordinateForExtrusion m cs sp nb ne idx) = triangles m.
Proof.
  unfold generateTextureCoordinateForExtrusion. cbv zeta.
  destruct (nb + ne =? 0); [reflexivity|].
  destruct (negb (nb =? 0)), (negb (ne =? 0)); reflexivity.
Qed.

End Running.

#[export] Hint Rewrite @generateNormals_vertices @generateNormals_triangles
  @updateBoundingBoxIfEnabled_vertices @updateBoundingBoxIfEnabled_triangles
  @updateBoundingBoxIfEnabled_state
  textureBox_vertices textureBox_triangles
  textureSphere_vertices textureSphere_triangles
  textureCylinder_vertices textureCylinder_triangles
  textureCone_vertices textureCone_triangles
  textureElevationGrid_vertices textureElevationGrid_triangles
  textureExtrusion_vertices textureExtrusion_triangles : mesh.

(** Step through the binds of a generator. *)
Ltac run_gen := rewrite ?run_bind; cbn [get ret fst snd].

(** The geometry of the mesh under construction. *)
Ltac geometry :=
  cbn [setTexCoords setNormals setPrimitive addTriangles setVertices newMesh
       vertices triangles app];
  autorewrite with mesh;
  cbn [setTexCoords setNormals setPrimitive addTriangles setVertices newMesh
       vertices triangles app];
  try reflexivity.

(** ** What each generator returns *)

Section Results.

Context {collaborators : Collaborators}.

Ltac accepted guard :=
  unfold generates, result; run_gen; rewrite guard; cbv zeta; run_gen;
  eexists; split; [reflexivity|]; split; geometry.

Ltac rejected guard := unfold rejects; run_gen; rewrite guard; reflexivity.

Lemma generateBox_accepts (size : Vector3) (tex : bool) (g : MeshGenerator) :
  Rltb (vx size) 0 || Rltb (vy size) 0 || Rltb (vz size) 0 = false ->
  generates (generateBox size tex) g
            (boxVertices (vx size * 0.5) (vy size * 0.5) (vz size * 0.5)) boxTriangles.
Proof. intros G. unfold generateBox. accepted G; destruct tex; geometry. Qed.

Lemma generateBox_rejects (size : Vector3) (tex : bool) (g : MeshGenerator) :
  Rltb (vx size) 0 || Rltb (vy size) 0 || Rltb (vz size) 0 = true ->
  rejects (generateBox size tex) g.
Proof. intros G. unfold generateBox. rejected G. Qed.

Lemma generateSphere_accepts (radius : R) (tex : bool) (g : MeshGenerator) :
  Rltb radius 0 || (divisionNumber_ g <? 4) = false ->
  let vdn := Z.quot (divisionNumber_ g) 2 in
  let hdn := divisionNumber_ g in
  generates (generateSphere radius tex) g
            (sphereVertices radius vdn hdn)
            (sphereTriangles vdn hdn (size (sphereRing radius vdn hdn))
                             (size (sphereRing radius vdn hdn) + 1)).
Proof. intros G. unfold generateSphere. accepted G; destruct tex; geometry. Qed.

Lemma generateSphere_rejects (radius : R) (tex : bool) (g : MeshGenerator) :
  Rltb radius 0 || (divisionNumber_ g <? 4) = true ->
  rejects (generateSphere radius tex) g.
Proof. intros G. unfold generateSphere. rejected G. Qed.

Lemma generateCylinder_accepts (radius height : R) (bottom top side tex : bool)
      (g : MeshGenerator) :
  Rltb height 0 || Rltb radius 0 = false ->
  let n := divisionNumber_ g in
  let rings := cylinderRings radius (height / 2.0) n in
  generates (generateCylinder radius height bottom top side tex) g
            (cylinderVertices radius (height / 2.0) n)
            (cylinderTriangles n (size rings) (size rings + 1) bottom top side).
Proof. intros G. unfold generateCylinder. accepted G; destruct tex; geometry. Qed.

Lemma generateCylinder_rejects (radius height : R) (bottom top side tex : bool)
      (g : MeshGenerator) :
  Rltb height 0 || Rltb radius 0 = true ->
  rejects (generateCylinder radius height bottom top side tex) g.
Proof. intros G. unfold generateCylinder. rejected G. Qed.

Lemma generateCone_accepts (radius height : R) (bottom side tex : bool) (g : MeshGenerator) :
  Rltb radius 0 || Rltb height 0 = false ->
  let n := divisionNumber_ g in
  let ring := coneRing radius height n in
  generates (generateCone radius height bottom side tex) g
            (coneVertices radius height n)
            (coneTriangles n (size ring) (size ring + 1) bottom side).
Proof. intros G. unfold generateCone. accepted G; destruct tex; geometry. Qed.

Lemma generateCone_rejects (radius height : R) (bottom side tex : bool) (g : MeshGenerator) :
  Rltb radius 0 || Rltb height 0 = true ->
  rejects (generateCone radius height bottom side tex) g.
Proof. intros G. unfold generateCone. rejected G. Qed.

Lemma generateCapsule_accepts (radius height : R) (g : MeshGenerator) :
  Rltb height 0 || Rltb radius 0 = false ->
  let vdn := capsuleVdn (divisionNumber_ g) in
  let hdn := divisionNumber_ g in
  let ring := capsuleRing radius height vdn hdn in
  generates (generateCapsule radius height) g
            (capsuleVertices radius height vdn hdn)
            (capsuleTriangles vdn hdn (size ring) (size ring + 1)).
Proof. intros G. unfold generateCapsule. accepted G. Qed.

Lemma generateCapsule_rejects (radius height : R) (g : MeshGenerator) :
  Rltb height 0 || Rltb radius 0 = true ->
  rejects (generateCapsule radius height) g.
Proof. intros G. unfold generateCapsule. rejected G. Qed.

Lemma generateDisc_accepts (radius innerRadius : R) (g : MeshGenerator) :
  Rleb innerRadius 0 || Rleb radius innerRadius = false ->
  generates (generateDisc radius innerRadius) g
            (discVertices radius innerRadius (divisionNumber_ g))
            (discTriangles (divisionNumber_ g)).
Proof. intros G. unfold generateDisc. accepted G. Qed.

Lemma generateDisc_rejects (radius innerRadius : R) (g : MeshGenerator) :
  Rleb innerRadius 0 || Rleb radius innerRadius = true ->
  rejects (generateDisc radius innerRadius) g.
Proof. intros G. unfold generateDisc. rejected G. Qed.

Lemma generateTorus4_generates (radius crossSectionRadius beginAngle endAngle : R)
      (g : MeshGenerator) :
  let isSemiTorus := Rltb 0 beginAngle || Rltb endAngle (2.0 * PI) in
  let phi0 := truncate (IZR (divisionNumber_ g) * endAngle / (2.0 * PI)) in
  let phiStep := ((endAngle - beginAngle) / IZR phi0)%R in
  let phiDivisionNumber := if isSemiTorus then phi0 + 1 else phi0 in
  let thetaDivisionNumber := Z.quot (divisionNumber_ g) 4 in
  let n := if Reqb endAngle (2.0 * PI) then phiDivisionNumber else phiDivisionNumber - 1 in
  generates (generateTorus4 radius crossSectionRadius beginAngle endAngle) g
            (torusVertices radius crossSectionRadius beginAngle phiStep
                           phiDivisionNumber thetaDivisionNumber)
            (torusTriangles n phiDivisionNumber thetaDivisionNumber).
Proof.
  unfold generateTorus4, generates, result. run_gen. cbv zeta. run_gen.
  eexists. split; [reflexivity|]. split; geometry.
Qed.

Lemma generateElevationGrid_accepts (grid : ElevationGrid.t) (tex : bool) (g : MeshGenerator) :
  ElevationGrid.xDimension grid * ElevationGrid.zDimension grid
  = size (ElevationGrid.height grid) ->
  generates (generateElevationGrid grid tex) g
            (elevationGridVertices grid) (elevationGridTriangles grid).
Proof.
  intros G. apply Z.eqb_eq in G. unfold generateElevationGrid.
  unfold generates, result. rewrite G. cbn [negb]. cbv zeta. run_gen.
  eexists. split; [reflexivity|]. split; destruct tex; geometry.
Qed.

Lemma generateElevationGrid_rejects (grid : ElevationGrid.t) (tex : bool) (g : MeshGenerator) :
  ElevationGrid.xDimension grid * ElevationGrid.zDimension grid
  <> size (ElevationGrid.height grid) ->
  rejects (generateElevationGrid grid tex) g.
Proof.
  intros G. apply Z.eqb_neq in G. unfold generateElevationGrid, rejects.
  rewrite G. reflexivity.
Qed.

End Results.

(** ** Vertex counts *)

Lemma size_sphereRing (radius : R) (vdn hdn : Z) :
  1 <= vdn -> 0 <= hdn -> size (sphereRing radius vdn hdn) = (vdn - 1) * hdn.
Proof.
  intros Hv Hh. unfold sphereRing.
  rewrite size_flat_map with (k := hdn).
  - rewrite size_range; lia.
  - intros i _. rewrite size_map, size_range; lia.
Qed.

Lemma size_cylinderRings (radius y : R) (n : Z) :
  0 <= n -> size (cylinderRings radius y n) = n * 2.
Proof.
  intros Hn. unfold cylinderRings. rewrite size_app, !size_map, size_range; lia.
Qed.

Lemma size_coneRing (radius height : R) (n : Z) :
  0 <= n -> size (coneRing radius height n) = n.
Proof. intros Hn. unfold coneRing. rewrite size_map, size_range; lia. Qed.

Lemma size_capsuleRing (radius height : R) (vdn hdn : Z) :
  0 <= vdn -> 0 <= hdn -> size (capsuleRing radius height vdn hdn) = vdn * hdn.
Proof.
  intros Hv Hh. unfold capsuleRing.
  rewrite size_flat_map with (k := hdn).
  - rewrite size_range; lia.
  - intros i _. rewrite size_map, size_range; lia.
Qed.

Lemma size_discVertices (radius innerRadius : R) (n : Z) :
  0 <= n -> size (discVertices radius innerRadius n) = n * 2.
Proof.
  intros Hn. unfold discVertices. rewrite size_flat_map with (k := 2).
  - rewrite size_range; lia.
  - reflexivity.
Qed.

Lemma size_torusVertices (radius csr beginAngle phiStep : R) (phi theta : Z) :
  0 <= phi -> 0 <= theta ->
  size (torusVertices radius csr beginAngle phiStep phi theta) = phi * theta.
Proof.
  intros Hp Ht. unfold torusVertices. rewrite size_flat_map with (k := theta).
  - rewrite size_range; lia.
  - intros i _. rewrite size_map, size_range; lia.
Qed.

Lemma size_elevationGridVertices (grid : ElevationGrid.t) :
  0 <= ElevationGrid.xDimension grid -> 0 <= ElevationGrid.zDimension grid ->
  size (elevationGridVertices grid)
  = ElevationGrid.zDimension grid * ElevationGrid.xDimension grid.
Proof.
  intros Hx Hz. unfold elevationGridVertices.
  rewrite size_flat_map with (k := ElevationGrid.xDimension grid).
  - rewrite size_range; lia.
  - intros i _. rewrite size_map, size_range; lia.
Qed.

(** ** Index bounds *)

Lemma rem_bounds (a n : Z) : 0 <= a -> 0 < n -> 0 <= Z.rem a n < n.
Proof. intros Ha Hn. apply Z.rem_bound_pos; assumption. Qed.

(** Reduce a statement about every triangle of nested loops to one about
    the loop indices. *)
Ltac each_triangle :=
  repeat (apply Forall_app; split);
  apply Forall_forall; intros ? ?;
  repeat match goal with
         | H : In _ (flat_map _ _) |- _ => apply in_flat_map in H as [? [? H]]
         | H : In _ (map _ _) |- _ => apply in_map_iff in H as [? [? H]]
         | H : In _ (range _ _) |- _ => apply in_range in H
         | H : In _ (if ?b then _ else _) |- _ => destruct b
         | H : In _ (_ ++ _) |- _ => apply in_app_or in H as [H|H]
         | H : In _ (_ :: _) |- _ => destruct H as [H|H]
         | H : In _ [] |- _ => destruct H
         end;
  subst; unfold triangleInBounds, indexInBounds.

(** Bound every [Z.rem] of the goal, then leave the arithmetic to [nia]. *)
Ltac in_bounds :=
  repeat match goal with
         | |- context [Z.rem ?a ?n] =>
             let H := fresh "Hrem" in
             assert (H : 0 <= Z.rem a n < n) by (apply rem_bounds; lia);
             generalize dependent (Z.rem a n); intros
         end;
  repeat split; nia.

Lemma sphereTriangles_inBounds (vdn hdn : Z) :
  2 <= vdn -> 0 < hdn ->
  Forall (triangleInBounds ((vdn - 1) * hdn + 2))
         (sphereTriangles vdn hdn ((vdn - 1) * hdn) ((vdn - 1) * hdn + 1)).
Proof.
  intros Hv Hh. unfold sphereTriangles, bandTriangles. each_triangle; in_bounds.
Qed.

Lemma cylinderTriangles_inBounds (n : Z) (bottom top side : bool) :
  0 <= n ->
  Forall (triangleInBounds (n * 2 + 2))
         (cylinderTriangles n (n * 2) (n * 2 + 1) bottom top side).
Proof. intros Hn. unfold cylinderTriangles. each_triangle; in_bounds. Qed.

Lemma coneTriangles_inBounds (n : Z) (bottom side : bool) :
  0 <= n ->
  Forall (triangleInBounds (n + 2)) (coneTriangles n n (n + 1) bottom side).
Proof. intros Hn. unfold coneTriangles. each_triangle; in_bounds. Qed.

Lemma capsuleTriangles_inBounds (vdn hdn : Z) :
  1 <= vdn -> 0 <= hdn ->
  Forall (triangleInBounds (vdn * hdn + 2))
         (capsuleTriangles vdn hdn (vdn * hdn) (vdn * hdn + 1)).
Proof.
  intros Hv Hh. unfold capsuleTriangles, bandTriangles. each_triangle; in_bounds.
Qed.

Lemma discTriangles_inBounds (n : Z) :
  0 <= n -> Forall (triangleInBounds (n * 2)) (discTriangles n).
Proof. intros Hn. unfold discTriangles. each_triangle; in_bounds. Qed.

Lemma torusTriangles_inBounds (n phi theta : Z) :
  n <= phi -> 0 <= theta ->
  Forall (triangleInBounds (phi * theta)) (torusTriangles n phi theta).
Proof. intros Hn Ht. unfold torusTriangles. each_triangle; in_bounds. Qed.

Lemma elevationGridTriangles_inBounds (grid : ElevationGrid.t) :
  Forall (triangleInBounds (ElevationGrid.zDimension grid * ElevationGrid.xDimension grid))
         (elevationGridTriangles grid).
Proof.
  unfold elevationGridTriangles, cellTriangles. each_triangle; in_bounds.
Qed.

(** ** Extrusion *)

Section ExtrusionResults.

Context {collaborators : Collaborators}.

Lemma generateExtrusion_accepts (e : Extrusion.t) (tex : bool) (g : MeshGenerator) :
  2 <= size (Extrusion.spine e) -> 2 <= size (Extrusion.crossSection e) ->
  2 <= spineSize e -> 2 <= crossSectionSize e ->
  generates (generateExtrusion e tex) g
            (extrusionVertices e (spineSize e) (crossSectionSize e) (isClosed e))
            ((sideTriangles e
              ++ capTriangles false (beginPolygon e) (beginCapOutput e))
             ++ capTriangles true (endPolygon e) (endCapOutput e)).
Proof.
  intros H1 H2 H3 H4. unfold generateExtrusion, generates, result. cbv zeta.
  fold (isClosed e). fold (isCrossSectionClosed e).
  fold (spineSize e). fold (crossSectionSize e).
  replace ((size (Extrusion.spine e) <? 2) || (size (Extrusion.crossSection e) <? 2))
    with false by (symmetry; apply orb_false_intro; apply Z.ltb_ge; assumption).
  replace ((spineSize e <? 2) || (crossSectionSize e <? 2))
    with false by (symmetry; apply orb_false_intro; apply Z.ltb_ge; assumption).
  run_gen. eexists. split; [reflexivity|].
  split; destruct tex; geometry.
Qed.

Lemma generateExtrusion_rejects (e : Extrusion.t) (tex : bool) (g : MeshGenerator) :
  size (Extrusion.spine e) < 2 \/ size (Extrusion.crossSection e) < 2
  \/ spineSize e < 2 \/ crossSectionSize e < 2 ->
  rejects (generateExtrusion e tex) g.
Proof.
  intros H. unfold generateExtrusion, rejects. cbv zeta.
  fold (isClosed e). fold (isCrossSectionClosed e).
  fold (spineSize e). fold (crossSectionSize e).
  destruct ((size (Extrusion.spine e) <? 2) || (size (Extrusion.crossSection e) <? 2)) eqn:G1;
    [reflexivity|].
  destruct ((spineSize e <? 2) || (crossSectionSize e <? 2)) eqn:G2; [reflexivity|].
  apply orb_false_elim in G1 as [G1 G1']. apply orb_false_elim in G2 as [G2 G2'].
  apply Z.ltb_ge in G1, G1', G2, G2'. lia.
Qed.

End ExtrusionResults.

(** ** Sphere *)

Lemma size_bandTriangles (hdn i : Z) : 0 <= hdn -> size (bandTriangles hdn i) = hdn * 2.
Proof.
  intros Hh. unfold bandTriangles. rewrite size_flat_map with (k := 2).
  - rewrite size_range; lia.
  - reflexivity.
Qed.

Lemma size_sphereTriangles (vdn hdn a b : Z) :
  2 <= vdn -> 0 <= hdn -> size (sphereTriangles vdn hdn a b) = (vdn - 1) * hdn * 2.
Proof.
  intros Hv Hh. unfold sphereTriangles.
  rewrite !size_app, !size_map, size_flat_map with (k := hdn * 2).
  - rewrite !size_range; lia.
  - intros i _. apply size_bandTriangles. assumption.
Qed.

Lemma norm_on_sphere (radius tv th : R) :
  (0 <= radius)%R ->
  norm (V3 (radius * sin tv * cos th) (radius * cos tv) (radius * sin tv * sin th)) = radius.
Proof.
  intros Hr. unfold norm, squaredNorm, dot. cbn [vx vy vz].
  replace (radius * sin tv * cos th * (radius * sin tv * cos th)
           + radius * cos tv * (radius * cos tv)
           + radius * sin tv * sin th * (radius * sin tv * sin th))%R
    with (radius * radius
          * ((sin tv)² * ((sin th)² + (cos th)²) + (cos tv)²))%R
    by (unfold Rsqr; ring).
  rewrite sin2_cos2, Rmult_1_r, sin2_cos2, Rmult_1_r.
  apply sqrt_square. assumption.
Qed.

Lemma norm_pole (y : R) : (0 <= y)%R -> norm (V3 0 y 0) = y /\ norm (V3 0 (- y) 0) = y.
Proof.
  intros Hy. unfold norm, squaredNorm, dot. cbn [vx vy vz]. split.
  - replace (0 * 0 + y * y + 0 * 0)%R with (y * y)%R by ring. now apply sqrt_square.
  - replace (0 * 0 + - y * - y + 0 * 0)%R with (y * y)%R by ring. now apply sqrt_square.
Qed.

Lemma sphereVertices_on_sphere (radius : R) (vdn hdn : Z) :
  (0 <= radius)%R ->
  Forall (fun v => norm v = radius) (sphereVertices radius vdn hdn).
Proof.
  intros Hr. unfold sphereVertices, sphereRing. apply Forall_app. split.
  - apply Forall_forall. intros v Hv.
    apply in_flat_map in Hv as [i [_ Hv]]. apply in_map_iff in Hv as [j [<- _]].
    apply norm_on_sphere. assumption.
  - destruct (norm_pole Hr). repeat constructor; assumption.
Qed.

Section Sphere.

Context {collaborators : Collaborators}.

(** C4: for a radius [r >= 0] and a division number [d >= 4],
    [generateSphere] returns a mesh with [(d/2 - 1)*d + 2] vertices and
    [(d/2 - 1)*d*2] triangles, and every vertex lies at distance [r] from
    the origin (in real arithmetic). *)
Theorem generateSphere_counts_and_radius (g : MeshGenerator) (radius : R) (tex : bool) :
  (0 <= radius)%R -> 4 <= divisionNumber g ->
  exists mesh,
    result (generateSphere radius tex) g = Some mesh
    /\ size (vertices mesh) = (Z.quot (divisionNumber g) 2 - 1) * divisionNumber g + 2
    /\ numTriangles mesh = (Z.quot (divisionNumber g) 2 - 1) * divisionNumber g * 2
    /\ Forall (fun v => norm v = radius) (vertices mesh).
Proof.
  unfold divisionNumber. intros Hr Hd.
  assert (Hv : 2 <= Z.quot (divisionNumber_ g) 2)
    by (apply Z.quot_le_lower_bound; lia).
  destruct (@generateSphere_accepts _ radius tex g) as [mesh [E [V T]]].
  { apply orb_false_intro; [apply Rltb_false; assumption | apply Z.ltb_ge; assumption]. }
  exists mesh. split; [exact E|]. unfold numTriangles. rewrite V, T. repeat split.
  - unfold sphereVertices. rewrite size_app, size_sphereRing by lia. reflexivity.
  - apply size_sphereTriangles; lia.
  - apply sphereVertices_on_sphere. assumption.
Qed.

End Sphere.

Lemma generateSphere_counts_and_radius_witness :
  (0 <= 1)%R /\ 4 <= divisionNumber (setDivisionNumber 4 MeshGenerator_new) /\
  exists mesh,
    result (@generateSphere referenceCollaborators 1 false) (setDivisionNumber 4 MeshGenerator_new)
    = Some mesh
    /\ size (vertices mesh) = 6
    /\ numTriangles mesh = 8
    /\ Forall (fun v => norm v = 1%R) (vertices mesh).
Proof.
  assert (Hr : (0 <= 1)%R) by lra.
  assert (Hd : 4 <= divisionNumber (setDivisionNumber 4 MeshGenerator_new))
    by (vm_compute; discriminate).
  split; [exact Hr|]. split; [exact Hd|].
  exact (@generateSphere_counts_and_radius referenceCollaborators
           (setDivisionNumber 4 MeshGenerator_new) 1 false Hr Hd).
Defined.

(** ** Guards *)

Lemma guard2_false (a b : R) : (0 <= a)%R -> (0 <= b)%R -> Rltb a 0 || Rltb b 0 = false.
Proof. intros Ha Hb. apply orb_false_intro; apply Rltb_false; assumption. Qed.

Lemma guard2_true (a b : R) : (a < 0 \/ b < 0)%R -> Rltb a 0 || Rltb b 0 = true.
Proof. intros [H|H]; apply orb_true_iff; [left|right]; apply Rltb_true; assumption. Qed.

Lemma guard3_false (a b c : R) :
  (0 <= a)%R -> (0 <= b)%R -> (0 <= c)%R -> Rltb a 0 || Rltb b 0 || Rltb c 0 = false.
Proof. intros Ha Hb Hc. rewrite guard2_false by assumption. apply Rltb_false, Hc. Qed.

Lemma guard3_true (a b c : R) :
  (a < 0 \/ b < 0 \/ c < 0)%R -> Rltb a 0 || Rltb b 0 || Rltb c 0 = true.
Proof.
  intros [H|[H|H]]; apply Rltb_true in H; rewrite H;
    rewrite ?orb_true_r, ?orb_true_l; reflexivity.
Qed.

Lemma rejects_result {A : Type} (c : Gen (option A)) (g : MeshGenerator) :
  rejects c g -> result c g = None /\ after c g = g.
Proof. unfold rejects, result, after. intros ->. split; reflexivity. Qed.

(** ** Zero dimensions *)

Lemma sphereVertices_zero (vdn hdn : Z) :
  Forall (fun v => v = Vector3_Zero) (sphereVertices 0 vdn hdn).
Proof.
  unfold sphereVertices, sphereRing, Vector3_Zero. apply Forall_app. split.
  - apply Forall_forall. intros v Hv.
    apply in_flat_map in Hv as [i [_ Hv]]. apply in_map_iff in Hv as [j [<- _]].
    f_equal; ring.
  - repeat constructor; f_equal; ring.
Qed.

Lemma cylinderVertices_zero (n : Z) :
  Forall (fun v => v = Vector3_Zero) (cylinderVertices 0 (0 / 2.0) n).
Proof.
  unfold cylinderVertices, cylinderRings, Vector3_Zero. repeat (apply Forall_app; split).
  - apply Forall_forall. intros v Hv. apply in_map_iff in Hv as [j [<- _]].
    f_equal; unfold Rdiv; ring.
  - apply Forall_forall. intros v Hv. apply in_map_iff in Hv as [j [<- _]].
    f_equal; unfold Rdiv; ring.
  - repeat constructor; f_equal; unfold Rdiv; ring.
Qed.

Lemma coneVertices_zero (n : Z) :
  Forall (fun v => v = Vector3_Zero) (coneVertices 0 0 n).
Proof.
  unfold coneVertices, coneRing, Vector3_Zero. apply Forall_app. split.
  - apply Forall_forall. intros v Hv. apply in_map_iff in Hv as [j [<- _]].
    f_equal; unfold Rdiv; ring.
  - repeat constructor; f_equal; unfold Rdiv; ring.
Qed.

Lemma capsuleVertices_zero (vdn hdn : Z) :
  Forall (fun v => v = Vector3_Zero) (capsuleVertices 0 0 vdn hdn).
Proof.
  unfold capsuleVertices, capsuleRing, Vector3_Zero. apply Forall_app. split.
  - apply Forall_forall. intros v Hv.
    apply in_flat_map in Hv as [i [_ Hv]]. apply in_map_iff in Hv as [j [<- _]].
    destruct (i <=? Z.quot vdn 2); f_equal; unfold Rdiv; ring.
  - repeat constructor; f_equal; unfold Rdiv; ring.
Qed.

Lemma boxVertices_zero :
  Forall (fun v => v = Vector3_Zero) (boxVertices (0 * 0.5) (0 * 0.5) (0 * 0.5)).
Proof. unfold boxVertices, Vector3_Zero. repeat constructor; f_equal; ring. Qed.

(** The vertex count of a ring does not depend on the dimensions. *)
Lemma size_ring_independent :
  (forall r r' vdn hdn, size (sphereRing r vdn hdn) = size (sphereRing r' vdn hdn))
  /\ (forall r y r' y' n, size (cylinderRings r y n) = size (cylinderRings r' y' n))
  /\ (forall r h r' h' n, size (coneRing r h n) = size (coneRing r' h' n))
  /\ (forall r h r' h' vdn hdn,
        size (capsuleRing r h vdn hdn) = size (capsuleRing r' h' vdn hdn)).
Proof.
  repeat split; intros.
  - unfold sphereRing, size. f_equal. rewrite !flat_map_concat_map, !length_concat.
    rewrite !map_map. f_equal. apply map_ext. intros. now rewrite !length_map.
  - unfold cylinderRings. now rewrite !size_app, !size_map.
  - unfold coneRing. now rewrite !size_map.
  - unfold capsuleRing, size. f_equal. rewrite !flat_map_concat_map, !length_concat.
    rewrite !map_map. f_equal. apply map_ext. intros. now rewrite !length_map.
Qed.

Section Dimensions.

Context {collaborators : Collaborators}.

(** C10: zero dimensions are accepted.  A box, sphere (division number at
    least 4), cylinder, cone or capsule whose dimensions are all zero is
    generated like one with positive dimensions: the call returns a mesh
    with the same numbers of vertices and triangles, whose vertices all
    lie at the origin; validation rejects negative values only. *)
Theorem zero_dimensions_accepted (g : MeshGenerator) (s : Shape) :
  nonNegativeSolid s ->
  (resolutionChecked s = true -> 4 <= divisionNumber g) ->
  exists mesh0 mesh,
    result (generate (zeroDimensions s)) g = Some mesh0
    /\ result (generate s) g = Some mesh
    /\ sameCounts mesh0 mesh
    /\ atOrigin mesh0.
Proof.
  unfold divisionNumber, sameCounts, atOrigin, numTriangles.
  destruct size_ring_independent as [Sph [Cyl [Con Cap]]].
  intros Hs Hd.
  destruct s as [sz tex|r tex|r h b t sd tex|r h b sd tex|r h|r ir|? ? ? ?|? ?|? ?];
    cbn [nonNegativeSolid] in Hs; try contradiction; cbn [zeroDimensions generate].
  - destruct Hs as [Hx [Hy Hz]].
    destruct (@generateBox_accepts _ (V3 0 0 0) tex g) as [m0 [E0 [V0 T0]]];
      [apply guard3_false; cbn; lra|].
    destruct (@generateBox_accepts _ sz tex g) as [m [E [V T]]];
      [apply guard3_false; assumption|].
    exists m0, m. rewrite V0, T0, V, T. cbn [vx vy vz].
    repeat split; try assumption. apply boxVertices_zero.
  - specialize (Hd eq_refl).
    assert (G : forall x : R, (0 <= x)%R -> Rltb x 0 || (divisionNumber_ g <? 4) = false)
      by (intros; apply orb_false_intro; [apply Rltb_false; assumption | apply Z.ltb_ge; lia]).
    destruct (@generateSphere_accepts _ 0 tex g) as [m0 [E0 [V0 T0]]]; [apply G; lra|].
    destruct (@generateSphere_accepts _ r tex g) as [m [E [V T]]]; [apply G; assumption|].
    exists m0, m. rewrite V0, T0, V, T.
    repeat split; try assumption.
    + unfold sphereVertices. rewrite !size_app. f_equal. apply Sph.
    + now rewrite (Sph 0%R r).
    + apply sphereVertices_zero.
  - destruct Hs as [Hr Hh].
    destruct (@generateCylinder_accepts _ 0 0 b t sd tex g) as [m0 [E0 [V0 T0]]];
      [apply guard2_false; lra|].
    destruct (@generateCylinder_accepts _ r h b t sd tex g) as [m [E [V T]]];
      [apply guard2_false; assumption|].
    exists m0, m. rewrite V0, T0, V, T.
    repeat split; try assumption.
    + unfold cylinderVertices. rewrite !size_app. f_equal. apply Cyl.
    + now rewrite (Cyl 0%R (0 / 2.0)%R r (h / 2.0)%R).
    + apply cylinderVertices_zero.
  - destruct Hs as [Hr Hh].
    destruct (@generateCone_accepts _ 0 0 b sd tex g) as [m0 [E0 [V0 T0]]];
      [apply guard2_false; lra|].
    destruct (@generateCone_accepts _ r h b sd tex g) as [m [E [V T]]];
      [apply guard2_false; assumption|].
    exists m0, m. rewrite V0, T0, V, T.
    repeat split; try assumption.
    + unfold coneVertices. rewrite !size_app. f_equal. apply Con.
    + now rewrite (Con 0%R 0%R r h).
    + apply coneVertices_zero.
  - destruct Hs as [Hr Hh].
    destruct (@generateCapsule_accepts _ 0 0 g) as [m0 [E0 [V0 T0]]];
      [apply guard2_false; lra|].
    destruct (@generateCapsule_accepts _ r h g) as [m [E [V T]]];
      [apply guard2_false; assumption|].
    exists m0, m. rewrite V0, T0, V, T.
    repeat split; try assumption.
    + unfold capsuleVertices. rewrite !size_app. f_equal. apply Cap.
    + now rewrite (Cap 0%R 0%R r h).
    + apply capsuleVertices_zero.
Qed.

End Dimensions.

Lemma zero_dimensions_accepted_witness :
  nonNegativeSolid (SphereShape 1 false)
  /\ (resolutionChecked (SphereShape 1 false) = true -> 4 <= divisionNumber MeshGenerator_new)
  /\ exists mesh0 mesh,
       result (@generate referenceCollaborators (zeroDimensions (SphereShape 1 false)))
              MeshGenerator_new = Some mesh0
       /\ result (@generate referenceCollaborators (SphereShape 1 false)) MeshGenerator_new
          = Some mesh
       /\ sameCounts mesh0 mesh
       /\ atOrigin mesh0.
Proof.
  assert (Hs : nonNegativeSolid (SphereShape 1 false)) by (cbn; lra).
  assert (Hd : resolutionChecked (SphereShape 1 false) = true
               -> 4 <= divisionNumber MeshGenerator_new)
    by (intros _; vm_compute; discriminate).
  split; [exact Hs|]. split; [exact Hd|].
  exact (@zero_dimensions_accepted referenceCollaborators MeshGenerator_new
           (SphereShape 1 false) Hs Hd).
Defined.

(** ** The generator after a call *)

Section After.

Context {collaborators : Collaborators}.

(** A call either leaves the generator as it is, or its only effect on
    the generator is one normal generation at the crease angle of the shape. *)
Lemma generate_after (s : Shape) (g : MeshGenerator) :
  match result (generate s) g, creaseAngleOf s with
  | Some _, Some a => exists m, after (generate s) g = snd (generateNormals m a g)
  | _, _ => after (generate s) g = g
  end.
Proof.
  destruct s as [sz tex|r tex|r h b t sd tex|r h b sd tex|r h|r ir|r c ba ea|grid tex|e tex];
    cbn [generate creaseAngleOf]; unfold result, after.
  - unfold generateBox.
    destruct (Rltb (vx sz) 0 || Rltb (vy sz) 0 || Rltb (vz sz) 0); [reflexivity|].
    cbv zeta. run_gen. eexists. reflexivity.
  - unfold generateSphere. run_gen.
    destruct (Rltb r 0 || (divisionNumber_ g <? 4)); [reflexivity|].
    cbv zeta. run_gen. eexists. reflexivity.
  - unfold generateCylinder. run_gen.
    destruct (Rltb h 0 || Rltb r 0); [reflexivity|].
    cbv zeta. run_gen. eexists. reflexivity.
  - unfold generateCone. run_gen.
    destruct (Rltb r 0 || Rltb h 0); [reflexivity|].
    cbv zeta. run_gen. eexists. reflexivity.
  - unfold generateCapsule. run_gen.
    destruct (Rltb h 0 || Rltb r 0); [reflexivity|].
    cbv zeta. run_gen. eexists. reflexivity.
  - unfold generateDisc. run_gen.
    destruct (Rleb ir 0 || Rleb r ir); [reflexivity|].
    cbv zeta. run_gen. reflexivity.
  - unfold generateTorus4. run_gen. cbv zeta. run_gen. eexists. reflexivity.
  - unfold generateElevationGrid.
    destruct (negb (_ =? _)); [reflexivity|].
    cbv zeta. run_gen. eexists. reflexivity.
  - unfold generateExtrusion. cbv zeta.
    destruct (_ || _); [reflexivity|].
    destruct (_ || _); [reflexivity|].
    run_gen. eexists. reflexivity.
Qed.

(** Generating a mesh does not change the configuration. *)
Lemma generate_configuration (s : Shape) (g : MeshGenerator) :
  isBoundingBoxUpdateEnabled_ (after (generate s) g) = isBoundingBoxUpdateEnabled_ g
  /\ divisionNumber_ (after (generate s) g) = divisionNumber_ g.
Proof.
  pose proof (generate_after s g) as H.
  destruct (result (generate s) g), (creaseAngleOf s);
    try (rewrite H; split; reflexivity).
  destruct H as [m ->]. apply generateNormals_flags.
Qed.

End After.

(** ** Negative dimensions *)

Section Negative.

Context {collaborators : Collaborators}.

(** C2, as the code has it: box, sphere, cylinder, cone, capsule and disc
    called with a negative dimension return a null pointer, whatever the
    other arguments and the configuration are; no collaborator is invoked
    and the generator is left unchanged. *)
Theorem negative_dimension_rejected (g : MeshGenerator) (s : Shape) :
  negativeDimension s ->
  result (generate s) g = None /\ after (generate s) g = g.
Proof.
  intros Hs. apply rejects_result.
  destruct s as [sz tex|r tex|r h b t sd tex|r h b sd tex|r h|r ir|? ? ? ?|? ?|? ?];
    cbn [negativeDimension] in Hs; try contradiction; cbn [generate].
  - apply generateBox_rejects, guard3_true, Hs.
  - apply generateSphere_rejects. apply Rltb_true in Hs. now rewrite Hs.
  - apply generateCylinder_rejects, guard2_true. tauto.
  - apply generateCone_rejects, guard2_true, Hs.
  - apply generateCapsule_rejects, guard2_true. tauto.
  - apply generateDisc_rejects. apply orb_true_iff.
    destruct (Rle_dec ir 0) as [Hle|Hgt].
    + left. apply Rleb_true, Hle.
    + right. apply Rleb_true. lra.
Qed.

(** With the bounding box update enabled, [generateArrow] never returns a
    null pointer, whatever its arguments and collaborators are. *)
Lemma generateArrow_not_null (g : MeshGenerator) (cr ch coner coneh : R) :
  isBoundingBoxUpdateEnabled_ g = true ->
  result (generateArrow cr ch coner coneh) g <> ArrowReturned None.
Proof.
  intros Hb. unfold result, generateArrow. run_gen.
  set (gc := snd (generateCone coner coneh defaultFace defaultFace defaultTextureCoordinate g)).
  set (gy := snd (generateCylinder cr ch true false defaultFace defaultTextureCoordinate gc)).
  assert (Hy : isBoundingBoxUpdateEnabled_ gy = true).
  { transitivity (isBoundingBoxUpdateEnabled_ gc).
    - exact (proj1 (generate_configuration
                      (CylinderShape cr ch true false defaultFace defaultTextureCoordinate)
                      gc)).
    - rewrite <- Hb.
      exact (proj1 (generate_configuration
                      (ConeShape coner coneh defaultFace defaultFace
                                 defaultTextureCoordinate) g)). }
  destruct (MeshExtractor_integrate _); run_gen.
  - discriminate.
  - rewrite Hy. cbn. discriminate.
Qed.

End Negative.

Lemma negative_dimension_rejected_witness :
  negativeDimension (BoxShape (V3 1 (-2) 3) false)
  /\ result (@generate referenceCollaborators (BoxShape (V3 1 (-2) 3) false)) MeshGenerator_new
     = None
  /\ after (@generate referenceCollaborators (BoxShape (V3 1 (-2) 3) false)) MeshGenerator_new
     = MeshGenerator_new.
Proof.
  assert (Hs : negativeDimension (BoxShape (V3 1 (-2) 3) false)) by (cbn; lra).
  split; [exact Hs|].
  exact (@negative_dimension_rejected referenceCollaborators MeshGenerator_new
           (BoxShape (V3 1 (-2) 3) false) Hs).
Defined.

(** C2 fails for the arrow: with all four dimensions negative and the
    default configuration, [generateArrow] returns a mesh (here the empty
    one that the integration of two shapes without meshes yields), and
    with no collaborators does it return a null pointer.  Nor does
    [generateTorus] reject negative radii. *)
Lemma generateArrow_negative_not_null :
  result (@generateArrow referenceCollaborators (-1) (-1) (-1) (-1)) MeshGenerator_new
  = ArrowReturned (Some newMesh)
  /\ ~ (exists collaborators : Collaborators,
          result (@generateArrow collaborators (-1) (-1) (-1) (-1)) MeshGenerator_new
          = ArrowReturned None)
  /\ result (@generateTorus referenceCollaborators (-1) (-1)) MeshGenerator_new <> None.
Proof.
  split; [|split].
  2: { intros [c E]. revert E. apply generateArrow_not_null. reflexivity. }
  2: { destruct (@generateTorus4_generates referenceCollaborators (-1) (-1) 0 (2.0 * PI)
                   MeshGenerator_new) as [m [E _]].
       unfold generateTorus. rewrite E. discriminate. }
  unfold result, generateArrow. run_gen.
  rewrite (@generateCone_rejects referenceCollaborators (-1) (-1) defaultFace defaultFace
             defaultTextureCoordinate MeshGenerator_new)
    by (apply guard2_true; lra).
  cbn [fst snd].
  rewrite (@generateCylinder_rejects referenceCollaborators (-1) (-1) true false defaultFace
             defaultTextureCoordinate MeshGenerator_new)
    by (apply guard2_true; lra).
  reflexivity.
Qed.

(** ** Division number *)

Section Resolution.

Context {collaborators : Collaborators}.

(** C3, as the code has it: with a division number below 4,
    [generateSphere] returns a null pointer for every radius; the
    cylinder and the cone do not look at the division number and return
    a null pointer exactly when a dimension is negative. *)
Theorem low_resolution_rejected_by_sphere (g : MeshGenerator) :
  divisionNumber g < 4 ->
  (forall radius tex,
      result (generateSphere radius tex) g = None
      /\ after (generateSphere radius tex) g = g)
  /\ (forall radius height bottom top side tex,
        result (generateCylinder radius height bottom top side tex) g = None
        <-> (height < 0 \/ radius < 0)%R)
  /\ (forall radius height bottom side tex,
        result (generateCone radius height bottom side tex) g = None
        <-> (radius < 0 \/ height < 0)%R).
Proof.
  unfold divisionNumber. intros Hd. repeat split.
  - apply rejects_result, generateSphere_rejects.
    apply orb_true_iff. right. apply Z.ltb_lt, Hd.
  - apply rejects_result, generateSphere_rejects.
    apply orb_true_iff. right. apply Z.ltb_lt, Hd.
  - intros E. destruct (Rltb height 0 || Rltb radius 0) eqn:G.
    + apply orb_true_iff in G as [G|G]; apply Rltb_true in G; tauto.
    + destruct (@generateCylinder_accepts _ radius height bottom top side tex g G)
        as [m [E' _]].
      rewrite E in E'. discriminate.
  - intros H. apply rejects_result, generateCylinder_rejects, guard2_true, H.
  - intros E. destruct (Rltb radius 0 || Rltb height 0) eqn:G.
    + apply orb_true_iff in G as [G|G]; apply Rltb_true in G; tauto.
    + destruct (@generateCone_accepts _ radius height bottom side tex g G) as [m [E' _]].
      rewrite E in E'. discriminate.
  - intros H. apply rejects_result, generateCone_rejects, guard2_true, H.
Qed.

End Resolution.

Lemma low_resolution_rejected_by_sphere_witness :
  divisionNumber (setDivisionNumber 3 MeshGenerator_new) < 4
  /\ result (@generateSphere referenceCollaborators 1 false)
            (setDivisionNumber 3 MeshGenerator_new) = None.
Proof.
  assert (Hd : divisionNumber (setDivisionNumber 3 MeshGenerator_new) < 4)
    by (vm_compute; reflexivity).
  split; [exact Hd|].
  exact (proj1 (proj1 (@low_resolution_rejected_by_sphere referenceCollaborators
                          (setDivisionNumber 3 MeshGenerator_new) Hd) 1%R false)).
Defined.

(** C3 fails for the cylinder, the cone and the capsule: with division
    number 3 each of them returns a mesh. *)
Lemma low_resolution_not_rejected :
  divisionNumber (setDivisionNumber 3 MeshGenerator_new) = 3
  /\ result (@generateCylinder referenceCollaborators 1 1 true true true false)
            (setDivisionNumber 3 MeshGenerator_new) <> None
  /\ result (@generateCone referenceCollaborators 1 1 true true false)
            (setDivisionNumber 3 MeshGenerator_new) <> None
  /\ result (@generateCapsule referenceCollaborators 1 1)
            (setDivisionNumber 3 MeshGenerator_new) <> None.
Proof.
  split; [reflexivity|]. repeat split.
  - destruct (@generateCylinder_accepts referenceCollaborators 1 1 true true true false
                (setDivisionNumber 3 MeshGenerator_new)) as [m [E _]];
      [apply guard2_false; lra|].
    rewrite E. discriminate.
  - destruct (@generateCone_accepts referenceCollaborators 1 1 true true false
                (setDivisionNumber 3 MeshGenerator_new)) as [m [E _]];
      [apply guard2_false; lra|].
    rewrite E. discriminate.
  - destruct (@generateCapsule_accepts referenceCollaborators 1 1
                (setDivisionNumber 3 MeshGenerator_new)) as [m [E _]];
      [apply guard2_false; lra|].
    rewrite E. discriminate.
Qed.

(** ** Crease angles *)

Section CreaseAngle.

Context {collaborators : Collaborators}.

(** C8, as the code has it: when normal generation is enabled, a call that
    returns a mesh invokes the normal generator once, with crease angle 0
    for the box, pi/2 for cylinder, cone and capsule, pi for sphere and
    torus, and the crease angle of the descriptor for the elevation grid
    and the extrusion.  The disc does not invoke the normal generator: it
    stores the single normal +Z itself, referenced by every normal index. *)
Theorem normal_generator_crease_angle (g : MeshGenerator) (s : Shape) (mesh : SgMesh) :
  isNormalGenerationEnabled_ g = true ->
  result (generate s) g = Some mesh ->
  normalRequests (after (generate s) g)
  = match creaseAngleOf s with
    | Some creaseAngle => creaseAngle :: normalRequests g
    | None => normalRequests g
    end
  /\ (creaseAngleOf s = None ->
      normals mesh = [Vector3f_UnitZ] /\ Forall (fun i => i = 0) (normalIndices mesh)).
Proof.
  intros Hn E. split.
  - pose proof (generate_after s g) as H. rewrite E in H.
    destruct (creaseAngleOf s) as [a|].
    + destruct H as [m ->]. apply generateNormals_enabled, Hn.
    + now rewrite H.
  - destruct s; cbn [creaseAngleOf]; try discriminate. intros _.
    revert E. cbn [generate]. unfold result, generateDisc. run_gen.
    destruct (Rleb innerRadius 0 || Rleb radius innerRadius); [discriminate|].
    cbv zeta. run_gen. intros E. injection E as <-.
    unfold updateBoundingBoxIfEnabled. cbn [fst].
    assert (Hz : Forall (fun i => i = 0) (discNormalIndices (divisionNumber_ g))).
    { unfold discNormalIndices. apply Forall_forall. intros i Hi.
      apply in_flat_map in Hi as [? [_ Hi]]. apply in_map_iff in Hi as [? [<- _]].
      reflexivity. }
    destruct (isBoundingBoxUpdateEnabled_ g); split; try reflexivity; exact Hz.
Qed.

End CreaseAngle.

Lemma normal_generator_crease_angle_witness :
  isNormalGenerationEnabled_ MeshGenerator_new = true
  /\ exists mesh,
       result (@generate referenceCollaborators (CylinderShape 1 2 true true true false))
              MeshGenerator_new = Some mesh
       /\ normalRequests
            (after (@generate referenceCollaborators (CylinderShape 1 2 true true true false))
                   MeshGenerator_new)
          = [(PI / 2.0)%R].
Proof.
  assert (Hn : isNormalGenerationEnabled_ MeshGenerator_new = true) by reflexivity.
  split; [exact Hn|].
  destruct (@generateCylinder_accepts referenceCollaborators 1 2 true true true false
              MeshGenerator_new) as [mesh [E _]]; [apply guard2_false; lra|].
  exists mesh. split; [exact E|].
  exact (proj1 (@normal_generator_crease_angle referenceCollaborators MeshGenerator_new
                  (CylinderShape 1 2 true true true false) mesh Hn E)).
Defined.

(** C8 fails for the disc and the elevation grid: with normal generation
    enabled, [generateDisc] returns a mesh without invoking the normal
    generator, and [generateElevationGrid] invokes it with the crease angle
    of the descriptor (here 0), not with pi/2. *)
Lemma crease_angle_not_shape_specific :
  isNormalGenerationEnabled_ MeshGenerator_new = true
  /\ result (generateDisc 2 1) MeshGenerator_new <> None
  /\ normalRequests (after (generateDisc 2 1) MeshGenerator_new) = []
  /\ result (@generateElevationGrid referenceCollaborators (unitGrid true) false)
            MeshGenerator_new <> None
  /\ normalRequests
       (after (@generateElevationGrid referenceCollaborators (unitGrid true) false)
              MeshGenerator_new) = [0%R]
  /\ (0 <> PI / 2)%R.
Proof.
  split; [reflexivity|].
  destruct (@generateDisc_accepts 2 1 MeshGenerator_new)
    as [md [Ed _]].
  { apply orb_false_intro; apply Rleb_false; lra. }
  destruct (@generateElevationGrid_accepts referenceCollaborators (unitGrid true) false
              MeshGenerator_new) as [mg [Eg _]]; [reflexivity|].
  split; [|split; [|split; [|split]]].
  - rewrite Ed. discriminate.
  - pose proof (@generate_after referenceCollaborators (DiscShape 2 1) MeshGenerator_new)
      as H.
    cbn [generate creaseAngleOf] in H. rewrite Ed in H. now rewrite H.
  - rewrite Eg. discriminate.
  - pose proof (@generate_after referenceCollaborators
                  (ElevationGridShape (unitGrid true) false) MeshGenerator_new) as H.
    cbn [generate creaseAngleOf] in H. rewrite Eg in H. destruct H as [m ->].
    now rewrite generateNormals_enabled.
  - pose proof PI_RGT_0. lra.
Qed.

(** ** Elevation grid *)

Lemma map_flat_map {A B C : Type} (f : B -> C) (h : A -> list B) (l : list A) :
  map f (flat_map h l) = flat_map (fun a => map f (h a)) l.
Proof.
  induction l as [|a l IH]; cbn [flat_map map]; [reflexivity|].
  now rewrite map_app, IH.
Qed.

Lemma cellTriangles_reversed (current next x : Z) :
  cellTriangles false current next x
  = map reverseWinding (cellTriangles true current next x).
Proof. reflexivity. Qed.

Lemma cellTriangles_diagonal (ccw : bool) (current next x : Z) (t : Triangle) :
  In t (cellTriangles ccw current next x) ->
  usesDiagonal (x + current) ((x + 1) + next) t.
Proof.
  unfold cellTriangles, usesDiagonal, corner.
  destruct ccw; intros [<-|[<-|[]]]; tauto.
Qed.

Lemma size_elevationGridTriangles (grid : ElevationGrid.t) :
  size (elevationGridTriangles grid) = numCells grid * 2.
Proof.
  unfold elevationGridTriangles, numCells.
  rewrite size_flat_map
    with (k := size (range 0 (ElevationGrid.xDimension grid - 1)) * 2).
  - ring.
  - intros z _. apply size_flat_map. intros x _.
    unfold cellTriangles. now destruct (ElevationGrid.ccw grid).
Qed.

Section Winding.

Context {collaborators : Collaborators}.

(** C9, as the code has it: a valid elevation grid yields exactly two
    triangles per cell.  Both triangles of the cell at column [x] between
    the rows starting at [current] and [next] lie on the diagonal from
    [x + current] to [x + 1 + next], whatever the [ccw] flag is; the flag
    only reverses the winding: the triangles generated with [ccw = false]
    are those generated with [ccw = true] with their last two corners
    exchanged. *)
Theorem elevation_grid_winding (g : MeshGenerator) (grid : ElevationGrid.t) (tex : bool) :
  ElevationGrid.xDimension grid * ElevationGrid.zDimension grid
  = size (ElevationGrid.height grid) ->
  exists ccwMesh cwMesh,
    result (generateElevationGrid (withCcw true grid) tex) g = Some ccwMesh
    /\ result (generateElevationGrid (withCcw false grid) tex) g = Some cwMesh
    /\ numTriangles ccwMesh = numCells grid * 2
    /\ numTriangles cwMesh = numCells grid * 2
    /\ triangles cwMesh = map reverseWinding (triangles ccwMesh)
    /\ (forall ccw : bool,
          triangles (if ccw then ccwMesh else cwMesh)
          = flat_map
              (fun z =>
                 flat_map (cellTriangles ccw (z * ElevationGrid.xDimension grid)
                                         ((z + 1) * ElevationGrid.xDimension grid))
                          (range 0 (ElevationGrid.xDimension grid - 1)))
              (range 0 (ElevationGrid.zDimension grid - 1)))
    /\ (forall (ccw : bool) (current next x : Z) (t : Triangle),
          In t (cellTriangles ccw current next x) ->
          usesDiagonal (x + current) ((x + 1) + next) t).
Proof.
  intros Hv.
  destruct (@generateElevationGrid_accepts _ (withCcw true grid) tex g Hv)
    as [m1 [E1 [_ T1]]].
  destruct (@generateElevationGrid_accepts _ (withCcw false grid) tex g Hv)
    as [m2 [E2 [_ T2]]].
  exists m1, m2. unfold numTriangles. rewrite T1, T2.
  split; [exact E1|]. split; [exact E2|].
  split; [apply (size_elevationGridTriangles (withCcw true grid))|].
  split; [apply (size_elevationGridTriangles (withCcw false grid))|].
  split; [|split].
  - unfold elevationGridTriangles. cbn [withCcw ElevationGrid.ccw ElevationGrid.xDimension
                                         ElevationGrid.zDimension].
    rewrite map_flat_map. apply flat_map_ext. intros z.
    rewrite map_flat_map. apply flat_map_ext. intros x.
    apply cellTriangles_reversed.
  - intros [|]; [rewrite T1 | rewrite T2]; reflexivity.
  - apply cellTriangles_diagonal.
Qed.

End Winding.

Lemma elevation_grid_winding_witness :
  ElevationGrid.xDimension (unitGrid true) * ElevationGrid.zDimension (unitGrid true)
  = size (ElevationGrid.height (unitGrid true))
  /\ exists ccwMesh cwMesh,
       result (@generateElevationGrid referenceCollaborators (unitGrid true) false)
              MeshGenerator_new = Some ccwMesh
       /\ result (@generateElevationGrid referenceCollaborators (unitGrid false) false)
                 MeshGenerator_new = Some cwMesh
       /\ numTriangles ccwMesh = 2
       /\ numTriangles cwMesh = 2
       /\ triangles cwMesh = map reverseWinding (triangles ccwMesh).
Proof.
  assert (Hv : ElevationGrid.xDimension (unitGrid true)
               * ElevationGrid.zDimension (unitGrid true)
               = size (ElevationGrid.height (unitGrid true))) by reflexivity.
  split; [exact Hv|].
  destruct (@elevation_grid_winding referenceCollaborators MeshGenerator_new
              (unitGrid true) false Hv)
    as [m1 [m2 [E1 [E2 [N1 [N2 [W _]]]]]]].
  exists m1, m2. split; [exact E1|]. split; [exact E2|].
  split; [exact N1|]. split; [exact N2|]. exact W.
Defined.

(** C9 fails on the diagonal: in the single cell of a 2 x 2 grid, whose
    corners are 0, 1 (first row) and 2, 3 (second row), the first triangle
    is (0, 2, 3) with [ccw = true] and (0, 3, 2) with [ccw = false]: both
    are built on the diagonal from 0 to 3. *)
Lemma ccw_keeps_the_diagonal :
  exists ccwMesh cwMesh,
    result (@generateElevationGrid referenceCollaborators (unitGrid true) false)
           MeshGenerator_new = Some ccwMesh
    /\ result (@generateElevationGrid referenceCollaborators (unitGrid false) false)
              MeshGenerator_new = Some cwMesh
    /\ hd_error (triangles ccwMesh) = Some (0, 2, 3)
    /\ hd_error (triangles cwMesh) = Some (0, 3, 2)
    /\ usesDiagonal 0 3 (0, 2, 3)
    /\ usesDiagonal 0 3 (0, 3, 2)
    /\ ~ usesDiagonal 1 2 (0, 2, 3)
    /\ ~ usesDiagonal 1 2 (0, 3, 2).
Proof.
  destruct (@generateElevationGrid_accepts referenceCollaborators (unitGrid true) false
              MeshGenerator_new eq_refl) as [m1 [E1 [_ T1]]].
  destruct (@generateElevationGrid_accepts referenceCollaborators (unitGrid false) false
              MeshGenerator_new eq_refl) as [m2 [E2 [_ T2]]].
  exists m1, m2. rewrite T1, T2.
  split; [exact E1|]. split; [exact E2|].
  split; [reflexivity|]. split; [reflexivity|].
  unfold usesDiagonal, corner.
  split; [tauto|]. split; [tauto|].
  split; intros [[H|[H|H]] _]; discriminate H.
Qed.

(** ** Extrusion: closure and effective point counts *)

Lemma at_0 {A : Type} (d : A) (l : list A) : at_ d l 0 = hd d l.
Proof. unfold at_. cbn. now destruct l. Qed.

Lemma nth_last {A : Type} (d : A) (l : list A) :
  nth (length l - 1) l d = last l d.
Proof.
  induction l as [|a l IH]; [reflexivity|].
  destruct l as [|b l]; [reflexivity|].
  cbn [length last] in *. rewrite <- IH.
  replace (S (S (length l)) - 1)%nat with (S (S (length l) - 1)) by lia.
  reflexivity.
Qed.

Lemma at_last {A : Type} (d : A) (l : list A) :
  l <> [] -> at_ d l (size l - 1) = last l d.
Proof.
  intros Hl. unfold at_, size.
  assert (0 < length l)%nat by (destruct l; [congruence | cbn; lia]).
  replace (Z.of_nat (length l) - 1 <? 0) with false by (symmetry; apply Z.ltb_ge; lia).
  replace (Z.to_nat (Z.of_nat (length l) - 1)) with (length l - 1)%nat by lia.
  apply nth_last.
Qed.

Lemma last_default {A : Type} (d d' : A) (l : list A) : l <> [] -> last l d = last l d'.
Proof.
  induction l as [|a l IH]; [congruence|]. intros _.
  destruct l as [|b l]; [reflexivity|]. cbn [last] in *. apply IH. discriminate.
Qed.

Lemma Vector3_eqb_eq (a b : Vector3) : Vector3_eqb a b = true <-> a = b.
Proof.
  unfold Vector3_eqb. rewrite !andb_true_iff, !Reqb_true.
  destruct a, b; cbn. split.
  - intros [[-> ->] ->]. reflexivity.
  - intros E. injection E as -> -> ->. auto.
Qed.

Lemma Vector2_eqb_eq (a b : Vector2) : Vector2_eqb a b = true <-> a = b.
Proof.
  unfold Vector2_eqb. rewrite !andb_true_iff, !Reqb_true.
  destruct a, b; cbn. split.
  - intros [-> ->]. reflexivity.
  - intros E. injection E as -> ->. auto.
Qed.

Lemma isClosed_closedContour (e : Extrusion.t) :
  Extrusion.spine e <> [] ->
  isClosed e = closedContour Vector3_eqb (Extrusion.spine e).
Proof.
  intros Hl. unfold isClosed, closedContour. cbv zeta.
  rewrite at_0, at_last by assumption.
  destruct (Extrusion.spine e) as [|a l] eqn:E; [congruence|].
  cbn [hd]. f_equal. apply last_default. discriminate.
Qed.

Lemma isCrossSectionClosed_closedContour (e : Extrusion.t) :
  Extrusion.crossSection e <> [] ->
  isCrossSectionClosed e = closedContour Vector2_eqb (Extrusion.crossSection e).
Proof.
  intros Hl. unfold isCrossSectionClosed, closedContour. cbv zeta.
  rewrite at_0, at_last by assumption.
  destruct (Extrusion.crossSection e) as [|a l] eqn:E; [congruence|].
  cbn [hd]. f_equal. apply last_default. discriminate.
Qed.

Lemma effectivePoints_small {A : Type} (eqb : A -> A -> bool) (l : list A) :
  size l < 2 -> effectivePoints eqb l < 2.
Proof. unfold effectivePoints. destruct (closedContour eqb l); lia. Qed.

Lemma size_nonempty {A : Type} (l : list A) : 1 <= size l -> l <> [].
Proof. destruct l; [cbn; lia | discriminate]. Qed.

Lemma spineSize_effective (e : Extrusion.t) :
  1 <= size (Extrusion.spine e) ->
  spineSize e = effectivePoints Vector3_eqb (Extrusion.spine e).
Proof.
  intros H. unfold spineSize, effectivePoints.
  now rewrite isClosed_closedContour by (apply size_nonempty; assumption).
Qed.

Lemma crossSectionSize_effective (e : Extrusion.t) :
  1 <= size (Extrusion.crossSection e) ->
  crossSectionSize e = effectivePoints Vector2_eqb (Extrusion.crossSection e).
Proof.
  intros H. unfold crossSectionSize, effectivePoints.
  now rewrite isCrossSectionClosed_closedContour by (apply size_nonempty; assumption).
Qed.

Lemma size_extrusionRing (e : Extrusion.t) (cs : Z) (axes : SpineAxes)
      (st : list Vector3f * list Vector3) (i : Z) :
  0 <= cs -> size (fst (extrusionRing e cs axes st i)) = size (fst st) + cs.
Proof.
  intros Hcs. unfold extrusionRing. destruct st as [vs zs].
  destruct (definedZaxis axes =? -1); cbn [fst];
    rewrite size_app, size_map, size_range; lia.
Qed.

Lemma size_extrusionVertices (e : Extrusion.t) (n cs : Z) (closed : bool) :
  0 <= n -> 0 <= cs -> size (extrusionVertices e n cs closed) = n * cs.
Proof.
  intros Hn Hcs. unfold extrusionVertices. cbv zeta.
  set (axes := spineAxes (Extrusion.spine e) n closed).
  assert (H : forall l st,
             size (fst (fold_left (extrusionRing e cs axes) l st))
             = size (fst st) + size l * cs).
  { induction l as [|i l IH]; intros st; cbn [fold_left].
    - unfold size at 3. cbn. lia.
    - rewrite IH, size_extrusionRing by assumption.
      unfold size at 4. cbn [length]. rewrite Nat2Z.inj_succ. unfold size. lia. }
  rewrite H, size_range by lia. cbn [fst]. unfold size at 1. cbn. lia.
Qed.

Section Closure.

Context {collaborators : Collaborators}.

(** C5: the spine and the cross-section are closed exactly when their first
    and last points are equal, each closure takes one point off the
    effective count, and [generateExtrusion] returns a null pointer if and
    only if fewer than 2 effective spine points or fewer than 2 effective
    cross-section points remain; otherwise the mesh has one vertex per
    pair of effective points. *)
Theorem generateExtrusion_null_iff (g : MeshGenerator) (e : Extrusion.t) (tex : bool) :
  let spinePoints := effectivePoints Vector3_eqb (Extrusion.spine e) in
  let crossPoints := effectivePoints Vector2_eqb (Extrusion.crossSection e) in
  (result (generateExtrusion e tex) g = None <-> spinePoints < 2 \/ crossPoints < 2)
  /\ (forall mesh,
        result (generateExtrusion e tex) g = Some mesh ->
        size (vertices mesh) = spinePoints * crossPoints)
  /\ (forall first rest,
        Extrusion.spine e = first :: rest ->
        (first = last rest first <-> spinePoints = size (Extrusion.spine e) - 1)
        /\ (first <> last rest first <-> spinePoints = size (Extrusion.spine e)))
  /\ (forall first rest,
        Extrusion.crossSection e = first :: rest ->
        (first = last rest first <-> crossPoints = size (Extrusion.crossSection e) - 1)
        /\ (first <> last rest first <-> crossPoints = size (Extrusion.crossSection e))).
Proof.
  cbv zeta.
  assert (Hcases :
            (size (Extrusion.spine e) < 2 \/ size (Extrusion.crossSection e) < 2)
            \/ (2 <= size (Extrusion.spine e) /\ 2 <= size (Extrusion.crossSection e)))
    by lia.
  assert (Hnull : result (generateExtrusion e tex) g = None
                  <-> effectivePoints Vector3_eqb (Extrusion.spine e) < 2
                      \/ effectivePoints Vector2_eqb (Extrusion.crossSection e) < 2).
  { destruct Hcases as [Hsmall|[Hs Hc]].
    - split.
      + intros _. destruct Hsmall; [left|right]; apply effectivePoints_small; assumption.
      + intros _. apply rejects_result, generateExtrusion_rejects. tauto.
    - rewrite <- spineSize_effective, <- crossSectionSize_effective by lia.
      split.
      + intros E.
        destruct (Z_lt_le_dec (spineSize e) 2) as [|H3]; [tauto|].
        destruct (Z_lt_le_dec (crossSectionSize e) 2) as [|H4]; [tauto|].
        destruct (@generateExtrusion_accepts _ e tex g Hs Hc H3 H4) as [m [E' _]].
        rewrite E in E'. discriminate.
      + intros H. apply rejects_result, generateExtrusion_rejects. tauto. }
  split; [exact Hnull|]. split; [|split].
  - intros mesh E.
    destruct Hcases as [Hsmall|[Hs Hc]].
    + assert (En : result (generateExtrusion e tex) g = None).
      { apply rejects_result, generateExtrusion_rejects. tauto. }
      rewrite En in E. discriminate.
    + rewrite <- spineSize_effective, <- crossSectionSize_effective by lia.
      destruct (Z_lt_le_dec (spineSize e) 2) as [H3|H3].
      { assert (En : result (generateExtrusion e tex) g = None).
        { apply rejects_result, generateExtrusion_rejects. tauto. }
        rewrite En in E. discriminate. }
      destruct (Z_lt_le_dec (crossSectionSize e) 2) as [H4|H4].
      { assert (En : result (generateExtrusion e tex) g = None).
        { apply rejects_result, generateExtrusion_rejects. tauto. }
        rewrite En in E. discriminate. }
      destruct (@generateExtrusion_accepts _ e tex g Hs Hc H3 H4) as [m [E' [V _]]].
      rewrite E in E'. injection E' as <-. rewrite V.
      apply size_extrusionVertices; lia.
  - intros first rest El. unfold effectivePoints. rewrite El.
    cbn [closedContour].
    replace (last (first :: rest) first) with (last rest first)
      by (destruct rest; reflexivity).
    destruct (Vector3_eqb first (last rest first)) eqn:Eq.
    + apply Vector3_eqb_eq in Eq. split; split; intros; try lia; try assumption.
      congruence.
    + assert (first <> last rest first)
        by (intros Heq; apply Vector3_eqb_eq in Heq; congruence).
      split; split; intros; try lia; try assumption. contradiction.
  - intros first rest El. unfold effectivePoints. rewrite El.
    cbn [closedContour].
    replace (last (first :: rest) first) with (last rest first)
      by (destruct rest; reflexivity).
    destruct (Vector2_eqb first (last rest first)) eqn:Eq.
    + apply Vector2_eqb_eq in Eq. split; split; intros; try lia; try assumption.
      congruence.
    + assert (first <> last rest first)
        by (intros Heq; apply Vector2_eqb_eq in Heq; congruence).
      split; split; intros; try lia; try assumption. contradiction.
Qed.

End Closure.

(** ** Extrusion: side and cap triangles *)

Lemma size_extrusionSideTriangles (n cs numSpinePoints numCrossPoints : Z) :
  1 <= numSpinePoints -> 1 <= numCrossPoints ->
  size (extrusionSideTriangles n cs numSpinePoints numCrossPoints)
  = (numSpinePoints - 1) * (numCrossPoints - 1) * 2.
Proof.
  intros Hs Hc. unfold extrusionSideTriangles.
  rewrite size_flat_map with (k := (numCrossPoints - 1) * 2).
  - rewrite size_range; lia.
  - intros i _. rewrite size_flat_map with (k := 2).
    + rewrite size_range; lia.
    + reflexivity.
Qed.

Lemma size_capTriangles (reversed : bool) (polygon output : list Z) :
  size (capTriangles reversed polygon output) = Z.quot (size output + 2) 3.
Proof.
  unfold capTriangles. rewrite size_map, size_range.
  - lia.
  - apply Z.quot_pos; [pose proof (size_nonneg output)|]; lia.
Qed.

Lemma capTriangles_reversed (polygon output : list Z) :
  capTriangles true polygon output
  = map reverseWinding (capTriangles false polygon output).
Proof. unfold capTriangles. rewrite map_map. reflexivity. Qed.

Section SquareExtrusion.

Context {collaborators : Collaborators}.

(** C6: an extrusion along an open spine of two points [p], [q] with the
    closed cross-section [a, b, c, d, a] and both caps has effective sizes
    2 and 4.  Its triangle list is the [(2 - 1) * 4 * 2 = 8] side
    triangles, followed by the triangles the triangulator returns for the
    begin polygon [0, 1, 2, 3], followed by those it returns for the end
    polygon [4, 5, 6, 7] with the last two corners of each exchanged; a
    triangulator output of [N - 2] triples for an [N]-gon ([N = 4]) gives
    [N - 2] triangles per cap. *)
Theorem square_extrusion_triangles
        (g : MeshGenerator) (p q : Vector3) (a b c d : Vector2)
        (scale : list Vector2) (orientation : list AngleAxis) (creaseAngle : R)
        (tex : bool) :
  p <> q ->
  let e := Extrusion.mk [a; b; c; d; a] [p; q] scale orientation creaseAngle true true in
  exists mesh,
    result (generateExtrusion e tex) g = Some mesh
    /\ spineSize e = 2 /\ crossSectionSize e = 4
    /\ size (vertices mesh) = 8
    /\ size (sideTriangles e) = (spineSize e - 1) * crossSectionSize e * 2
    /\ sideTriangles e
       = [(0, 4, 5); (0, 5, 1); (1, 5, 6); (1, 6, 2);
          (2, 6, 7); (2, 7, 3); (3, 7, 4); (3, 4, 0)]
    /\ let beginOutput := Triangulator_apply (vertices mesh) [0; 1; 2; 3] in
       let endOutput := Triangulator_apply (vertices mesh) [4; 5; 6; 7] in
       triangles mesh
       = (sideTriangles e
          ++ capTriangles false [0; 1; 2; 3] beginOutput)
         ++ map reverseWinding (capTriangles false [4; 5; 6; 7] endOutput)
       /\ (size beginOutput = 3 * (4 - 2) ->
           size (capTriangles false [0; 1; 2; 3] beginOutput) = 4 - 2)
       /\ (size endOutput = 3 * (4 - 2) ->
           size (map reverseWinding (capTriangles false [4; 5; 6; 7] endOutput)) = 4 - 2).
Proof.
  intros Hpq e.
  assert (Hopen : isClosed e = false).
  { change (isClosed e) with (Vector3_eqb p q).
    destruct (Vector3_eqb p q) eqn:E; [|reflexivity].
    apply Vector3_eqb_eq in E. contradiction. }
  assert (Hcross : isCrossSectionClosed e = true).
  { change (isCrossSectionClosed e) with (Vector2_eqb a a). now apply Vector2_eqb_eq. }
  assert (Hs : spineSize e = 2) by (unfold spineSize; rewrite Hopen; reflexivity).
  assert (Hc : crossSectionSize e = 4) by (unfold crossSectionSize; rewrite Hcross; reflexivity).
  destruct (@generateExtrusion_accepts _ e tex g) as [mesh [E [V T]]];
    try (rewrite ?Hs, ?Hc; cbn; lia).
  exists mesh. split; [exact E|]. split; [exact Hs|]. split; [exact Hc|].
  split; [|split; [|split]].
  - rewrite V, size_extrusionVertices; rewrite ?Hs, ?Hc; lia.
  - unfold sideTriangles. rewrite Hopen, Hcross, Hs, Hc.
    rewrite size_extrusionSideTriangles; lia.
  - unfold sideTriangles. rewrite Hopen, Hcross, Hs, Hc. reflexivity.
  - cbv zeta. split; [|split].
    + rewrite T. unfold beginCapOutput, endCapOutput, beginPolygon, endPolygon.
      rewrite <- V, Hopen, Hs, Hc. cbn [Extrusion.beginCap Extrusion.endCap e andb negb].
      rewrite capTriangles_reversed. reflexivity.
    + intros Hn. rewrite size_capTriangles, Hn. reflexivity.
    + intros Hn. rewrite size_map, size_capTriangles, Hn. reflexivity.
Qed.

End SquareExtrusion.

Lemma square_extrusion_triangles_witness :
  V3 0 0 0 <> V3 0 1 0
  /\ exists mesh,
       result (@generateExtrusion referenceCollaborators squarePrism false) MeshGenerator_new
       = Some mesh
       /\ size (vertices mesh) = 8
       /\ triangles mesh
          = (sideTriangles squarePrism ++ [(0, 1, 2); (0, 2, 3)]) ++ [(4, 6, 5); (4, 7, 6)].
Proof.
  assert (Hpq : V3 0 0 0 <> V3 0 1 0) by (intros E; injection E; lra).
  split; [exact Hpq|].
  destruct (@square_extrusion_triangles referenceCollaborators MeshGenerator_new
              (V3 0 0 0) (V3 0 1 0) (V2 0 0) (V2 1 0) (V2 1 1) (V2 0 1) [] [] 0%R false Hpq)
    as [mesh [E [_ [_ [V [_ [_ [T _]]]]]]]].
  exists mesh. split; [exact E|]. split; [exact V|]. exact T.
Defined.

(** ** Extrusion: cap texture coordinates *)

Section CapTexture.

Context {collaborators : Collaborators}.

Lemma generateExtrusion_textured (e : Extrusion.t) (g : MeshGenerator) :
  2 <= size (Extrusion.spine e) -> 2 <= size (Extrusion.crossSection e) ->
  2 <= spineSize e -> 2 <= crossSectionSize e ->
  exists m,
    result (generateExtrusion e true) g
    = Some (generateTextureCoordinateForExtrusion
              m (Extrusion.crossSection e) (Extrusion.spine e)
              (Z.quot (size (beginCapOutput e)) 3) (Z.quot (size (endCapOutput e)) 3)
              (crossSectionSize e * (spineSize e - 1))).
Proof.
  intros H1 H2 H3 H4. unfold generateExtrusion, result. cbv zeta.
  fold (isClosed e). fold (isCrossSectionClosed e).
  fold (spineSize e). fold (crossSectionSize e).
  replace ((size (Extrusion.spine e) <? 2) || (size (Extrusion.crossSection e) <? 2))
    with false by (symmetry; apply orb_false_intro; apply Z.ltb_ge; assumption).
  replace ((spineSize e <? 2) || (crossSectionSize e <? 2))
    with false by (symmetry; apply orb_false_intro; apply Z.ltb_ge; assumption).
  run_gen. eexists. reflexivity.
Qed.

End CapTexture.

(** With both caps triangulated, the texture coordinate array is the side
    block followed by the block of the begin cap and the block of the end
    cap. *)
Lemma texCoords_extrusion (m : SgMesh) (cs : list Vector2) (sp : list Vector3)
      (nb ne idx : Z) :
  0 < nb -> 0 < ne ->
  texCoords (generateTextureCoordinateForExtrusion m cs sp nb ne idx)
  = (extrusionSideTexCoords cs sp ++ beginCapTexCoords cs) ++ endCapTexCoords cs.
Proof.
  intros Hb He. unfold generateTextureCoordinateForExtrusion. cbv zeta.
  replace (nb + ne =? 0) with false by (symmetry; apply Z.eqb_neq; lia).
  replace (nb =? 0) with false by (symmetry; apply Z.eqb_neq; lia).
  replace (ne =? 0) with false by (symmetry; apply Z.eqb_neq; lia).
  reflexivity.
Qed.

(** Whatever the contour is, the lower z bound that the cap texture
    builder ends with is the smaller of the lower x bound and the z of the
    last point. *)
Lemma capExtent_zmin (first p : Vector2) (rest : list Vector2) :
  let '(xmin, _, zmin, _) := capExtent (first :: rest ++ [p]) in
  zmin = Rmin xmin (uy p).
Proof.
  unfold capExtent. cbn [hd tl]. rewrite fold_left_app. cbn [fold_left].
  destruct (fold_left _ rest _) as [[[xmin xmax] zmin] zmax]. reflexivity.
Qed.

(** Evaluate the [Rmin] and [Rmax] of numerals. *)
Ltac eval_min_max :=
  repeat match goal with
         | |- context [Rmax ?a ?b] =>
             first [ rewrite (Rmax_left a b) by lra | rewrite (Rmax_right a b) by lra ]
         | |- context [Rmin ?a ?b] =>
             first [ rewrite (Rmin_left a b) by lra | rewrite (Rmin_right a b) by lra ]
         end.

(** On the contour (4,2), (6,0), (6,4), (4,2) the extent is computed as
    x in [4, 6] and z in [2, 4], although z ranges over [0, 4]. *)
Lemma capExtent_trianglePrism :
  capExtent (Extrusion.crossSection trianglePrism) = (4, 6, 2, 4)%R.
Proof.
  unfold capExtent, trianglePrism.
  cbn [Extrusion.crossSection fold_left tl hd ux uy].
  eval_min_max. reflexivity.
Qed.

Lemma beginCapTexCoords_trianglePrism :
  beginCapTexCoords (Extrusion.crossSection trianglePrism)
  = [V2 0 0; V2 1 (-1); V2 1 1; V2 0 0].
Proof.
  unfold beginCapTexCoords. rewrite capExtent_trianglePrism.
  unfold trianglePrism. cbn [Extrusion.crossSection map ux uy].
  repeat (f_equal; try lra).
Qed.

(** C7 at the failing input: the extrusion of the closed contour
    (4,2), (6,0), (6,4), (4,2) with both caps and texture coordinates is
    generated, and the texture coordinate of its begin cap at (6,0) is
    (1, -1), outside the unit square; normalised by the bounding box of
    the contour it would be (1, 0). *)
Theorem cap_texture_leaves_unit_square :
  capExtent (Extrusion.crossSection trianglePrism) = (4, 6, 2, 4)%R
  /\ boundingExtent (Extrusion.crossSection trianglePrism) = (4, 6, 0, 4)%R
  /\ exists mesh,
       result (@generateExtrusion referenceCollaborators trianglePrism true) MeshGenerator_new
       = Some mesh
       /\ exists side endCap,
            texCoords mesh = (side ++ [V2 0 0; V2 1 (-1); V2 1 1; V2 0 0]) ++ endCap.
Proof.
  split; [exact capExtent_trianglePrism|].
  split.
  { unfold boundingExtent, trianglePrism.
    cbn [Extrusion.crossSection fold_left tl hd ux uy].
    eval_min_max. reflexivity. }
  assert (Hopen : isClosed trianglePrism = false).
  { change (isClosed trianglePrism) with (Vector3_eqb (V3 0 0 0) (V3 0 1 0)).
    destruct (Vector3_eqb (V3 0 0 0) (V3 0 1 0)) eqn:E; [|reflexivity].
    apply Vector3_eqb_eq in E. injection E. lra. }
  assert (Hcross : isCrossSectionClosed trianglePrism = true).
  { change (isCrossSectionClosed trianglePrism) with (Vector2_eqb (V2 4 2) (V2 4 2)).
    now apply Vector2_eqb_eq. }
  assert (Hs : spineSize trianglePrism = 2)
    by (unfold spineSize; rewrite Hopen; reflexivity).
  assert (Hc : crossSectionSize trianglePrism = 3)
    by (unfold crossSectionSize; rewrite Hcross; reflexivity).
  destruct (@generateExtrusion_textured referenceCollaborators trianglePrism
              MeshGenerator_new) as [m E]; try (rewrite ?Hs, ?Hc; cbn; lia).
  eexists. split; [exact E|].
  assert (Hb : Z.quot (size (@beginCapOutput referenceCollaborators trianglePrism)) 3 = 1).
  { unfold beginCapOutput, beginPolygon. rewrite Hopen, Hc. reflexivity. }
  assert (He : Z.quot (size (@endCapOutput referenceCollaborators trianglePrism)) 3 = 1).
  { unfold endCapOutput, endPolygon. rewrite Hopen, Hc, Hs. reflexivity. }
  rewrite Hb, He, texCoords_extrusion by lia.
  rewrite beginCapTexCoords_trianglePrism.
  eexists. eexists. reflexivity.
Qed.

(** ** Index bounds of the generated meshes *)

Lemma capsuleVdn_bounds (n : Z) :
  (n = 0 -> capsuleVdn n = 0) /\ (2 <= n -> 2 <= capsuleVdn n).
Proof.
  unfold capsuleVdn. cbv zeta. split.
  - intros ->. reflexivity.
  - intros Hn.
    assert (H1 : 1 <= Z.quot n 2) by (apply Z.quot_le_lower_bound; lia).
    destruct (Z.rem (Z.quot n 2) 2 =? 0) eqn:E; cbn [negb]; [|lia].
    apply Z.eqb_eq in E.
    pose proof (Z.quot_rem' (Z.quot n 2) 2) as Hq. rewrite E in Hq.
    destruct (Z.eq_dec (Z.quot n 2) 1) as [E1|]; [|lia].
    rewrite E1 in E. discriminate E.
Qed.

Lemma flat_map_nil {A B : Type} (f : A -> list B) (l : list A) :
  (forall a, In a l -> f a = []) -> flat_map f l = [].
Proof.
  induction l as [|a l IH]; intros H; cbn [flat_map]; [reflexivity|].
  rewrite (H a) by (cbn; auto). rewrite IH; [reflexivity|].
  intros; apply H; cbn; auto.
Qed.

Lemma elevationGridTriangles_empty (grid : ElevationGrid.t) :
  ElevationGrid.xDimension grid <= 1 \/ ElevationGrid.zDimension grid <= 1 ->
  elevationGridTriangles grid = [].
Proof.
  intros [H|H]; unfold elevationGridTriangles.
  - apply flat_map_nil. intros z _. now rewrite range_empty by lia.
  - now rewrite (@range_empty 0 (ElevationGrid.zDimension grid - 1)) by lia.
Qed.

Lemma torusTriangles_empty (n phi theta : Z) : n <= 0 -> torusTriangles n phi theta = [].
Proof. intros H. unfold torusTriangles. now rewrite (@range_empty 0 n) by lia. Qed.

Lemma boxTriangles_inBounds (x y z : R) :
  Forall (triangleInBounds (size (boxVertices x y z))) boxTriangles.
Proof.
  unfold boxTriangles, triangleInBounds, indexInBounds. cbn [boxVertices size length].
  repeat constructor; cbn; lia.
Qed.

Lemma truncate_ge_1 (x : R) : (1 <= x)%R -> 1 <= truncate x.
Proof.
  intros Hx. unfold truncate.
  replace (Rleb 0 x) with true by (symmetry; apply Rleb_true; lra).
  destruct (base_Int_part x) as [_ H].
  assert (H0 : (IZR 0 < IZR (Int_part x))%R) by (cbn; lra).
  apply lt_IZR in H0. lia.
Qed.

Lemma at_In {A : Type} (d : A) (l : list A) (i : Z) :
  0 <= i < size l -> In (at_ d l i) l.
Proof.
  unfold at_, size. intros H.
  replace (i <? 0) with false by (symmetry; apply Z.ltb_ge; lia).
  apply nth_In. lia.
Qed.

Lemma extrusionSideTriangles_inBounds (n cs numSpinePoints numCrossPoints : Z) :
  1 <= n -> 1 <= cs ->
  numSpinePoints <= n + 1 -> numCrossPoints <= cs + 1 ->
  Forall (triangleInBounds (n * cs))
         (extrusionSideTriangles n cs numSpinePoints numCrossPoints).
Proof.
  intros Hn Hc Hs Hx. unfold extrusionSideTriangles. each_triangle; in_bounds.
Qed.

Lemma capTriangles_inBounds (reversed : bool) (polygon output : list Z) (n : Z) :
  triangulated polygon output ->
  Forall (indexInBounds n) polygon ->
  Forall (triangleInBounds n) (capTriangles reversed polygon output).
Proof.
  intros [Hrem Hout] Hpoly. unfold capTriangles.
  apply Forall_forall. intros t Ht.
  apply in_map_iff in Ht as [k [<- Hk]]. apply in_range in Hk.
  assert (Hk3 : 3 * k + 2 < size output).
  { pose proof (size_nonneg output). Z.to_euclidean_division_equations. lia. }
  assert (Hcorner : forall i, 0 <= i < size output ->
                              indexInBounds n (at_ 0 polygon (at_ 0 output i))).
  { intros i Hi.
    assert (Hp : indexInBounds (size polygon) (at_ 0 output i)).
    { rewrite Forall_forall in Hout. apply Hout, at_In, Hi. }
    rewrite Forall_forall in Hpoly. apply Hpoly, at_In, Hp. }
  assert (H0 := Hcorner (3 * k) ltac:(lia)).
  assert (H1 := Hcorner (3 * k + 1) ltac:(lia)).
  assert (H2 := Hcorner (3 * k + 2) ltac:(lia)).
  cbv zeta. destruct reversed; unfold triangleInBounds; tauto.
Qed.

Lemma beginPolygon_inBounds (e : Extrusion.t) :
  1 <= spineSize e -> 0 <= crossSectionSize e ->
  Forall (indexInBounds (spineSize e * crossSectionSize e)) (beginPolygon e).
Proof.
  intros Hs Hc. unfold beginPolygon, indexInBounds.
  apply Forall_forall. intros i Hi. apply in_range in Hi. nia.
Qed.

Lemma endPolygon_inBounds (e : Extrusion.t) :
  1 <= spineSize e -> 0 <= crossSectionSize e ->
  Forall (indexInBounds (spineSize e * crossSectionSize e)) (endPolygon e).
Proof.
  intros Hs Hc. unfold endPolygon, indexInBounds.
  apply Forall_forall. intros i Hi.
  apply in_map_iff in Hi as [j [<- Hj]]. apply in_range in Hj. nia.
Qed.

Lemma sideTriangles_inBounds (e : Extrusion.t) :
  1 <= spineSize e -> 1 <= crossSectionSize e ->
  Forall (triangleInBounds (spineSize e * crossSectionSize e)) (sideTriangles e).
Proof.
  intros Hs Hc. unfold sideTriangles.
  apply extrusionSideTriangles_inBounds; try assumption.
  - destruct (isClosed e); lia.
  - destruct (isCrossSectionClosed e); lia.
Qed.

Lemma sideTriangles_nonempty (e : Extrusion.t) :
  2 <= spineSize e -> 2 <= crossSectionSize e -> sideTriangles e <> [].
Proof.
  intros Hs Hc E.
  assert (H : size (sideTriangles e) = 0) by now rewrite E.
  unfold sideTriangles in H. rewrite size_extrusionSideTriangles in H.
  - destruct (isClosed e), (isCrossSectionClosed e); nia.
  - destruct (isClosed e); lia.
  - destruct (isCrossSectionClosed e); lia.
Qed.

Lemma app_nonempty {A : Type} (l l' : list A) : l <> [] -> l ++ l' <> [].
Proof. destruct l; [congruence | discriminate]. Qed.

Section Indices.

Context {collaborators : Collaborators}.

(** From a returned mesh back to the branch that produced it. *)
Ltac returned E guard accepts rejects :=
  let G := fresh "G" in
  destruct guard eqn:G;
  [ apply rejects, rejects_result in G; rewrite (proj1 G) in E; discriminate E
  | apply accepts in G; cbv zeta in G;
    let m := fresh "m" in let E' := fresh "E" in
    let V := fresh "V" in let T := fresh "T" in
    destruct G as [m [E' [V T]]]; rewrite E in E'; injection E' as <- ].

(** C1, as the code has it: in every mesh returned by the box, sphere,
    cylinder, cone, capsule, disc, torus, elevation grid and extrusion
    generators, each triangle corner is an index into the vertex array
    (the capsule at division number 1 excepted, and provided the
    triangulator returns whole triples of polygon positions for the caps
    of an extrusion).  The triangle list is not empty when a face is
    asked for: some face group of the cylinder or cone is enabled and the
    division number is at least 1, the division number is at least 1 for
    capsule and disc and at least 4 for a torus whose sweep spans a
    division, and the elevation grid has at least 2 x 2 samples. *)
Theorem generated_triangles_indexed (g : MeshGenerator) (s : Shape) (mesh : SgMesh) :
  0 <= divisionNumber g ->
  indexable g s ->
  result (generate s) g = Some mesh ->
  wellIndexed mesh /\ (facesRequested g s -> triangles mesh <> []).
Proof.
  unfold divisionNumber, wellIndexed. intros Hd Hi E.
  destruct s as [sz tex|r tex|r h b t sd tex|r h b sd tex|r h|r ir|r c ba ea|grid tex|e tex];
    cbn [generate indexable facesRequested] in *; unfold divisionNumber in *.
  - (* box *)
    returned E (Rltb (vx sz) 0 || Rltb (vy sz) 0 || Rltb (vz sz) 0)
             (@generateBox_accepts _ sz tex g) (@generateBox_rejects _ sz tex g).
    rewrite V, T. split; [apply boxTriangles_inBounds | discriminate].
  - (* sphere *)
    destruct (Rltb r 0 || (divisionNumber_ g <? 4)) eqn:G.
    + apply (@generateSphere_rejects _ r tex g), rejects_result in G.
      rewrite (proj1 G) in E. discriminate E.
    + pose proof G as G'. apply orb_false_elim in G' as [_ Hd4]. apply Z.ltb_ge in Hd4.
      apply (@generateSphere_accepts _ r tex g) in G. cbv zeta in G.
      destruct G as [m [E' [V T]]]. rewrite E in E'. injection E' as <-.
      assert (Hv : 2 <= Z.quot (divisionNumber_ g) 2) by (apply Z.quot_le_lower_bound; lia).
      rewrite V, T. unfold sphereVertices.
      rewrite size_app, size_sphereRing by lia. split.
      * apply sphereTriangles_inBounds; lia.
      * intros _. unfold sphereTriangles. apply app_nonempty.
        intros En. apply map_eq_nil in En. revert En. apply range_nonempty. lia.
  - (* cylinder *)
    returned E (Rltb h 0 || Rltb r 0)
             (@generateCylinder_accepts _ r h b t sd tex g)
             (@generateCylinder_rejects _ r h b t sd tex g).
    rewrite V, T. unfold cylinderVertices.
    rewrite size_app, size_cylinderRings by lia. split.
    + apply cylinderTriangles_inBounds; lia.
    + intros [Hn Hf]. unfold cylinderTriangles.
      apply flat_map_nonempty with (a := 0); [apply in_range; lia|].
      destruct t; [discriminate|]. destruct sd; [discriminate|].
      destruct b; [discriminate|]. discriminate Hf.
  - (* cone *)
    returned E (Rltb r 0 || Rltb h 0)
             (@generateCone_accepts _ r h b sd tex g)
             (@generateCone_rejects _ r h b sd tex g).
    rewrite V, T. unfold coneVertices.
    rewrite size_app, size_coneRing by lia. split.
    + apply coneTriangles_inBounds; lia.
    + intros [Hn Hf]. unfold coneTriangles.
      apply flat_map_nonempty with (a := 0); [apply in_range; lia|].
      destruct sd; [discriminate|]. destruct b; [discriminate|]. discriminate Hf.
  - (* capsule *)
    returned E (Rltb h 0 || Rltb r 0)
             (@generateCapsule_accepts _ r h g) (@generateCapsule_rejects _ r h g).
    rewrite V, T. unfold divisionNumber in Hi.
    destruct (capsuleVdn_bounds (divisionNumber_ g)) as [H0 H2].
    destruct (Z.eq_dec (divisionNumber_ g) 0) as [Ez|Enz].
    + split; [|lia]. rewrite Ez. change (capsuleVdn 0) with 0.
      unfold capsuleTriangles. cbn [range Z.sub Z.add Z.opp Z.to_nat seq map flat_map app].
      constructor.
    + assert (H2' : 2 <= capsuleVdn (divisionNumber_ g)) by (apply H2; lia).
      unfold capsuleVertices. rewrite size_app, size_capsuleRing by lia. split.
      * apply capsuleTriangles_inBounds; lia.
      * intros _. unfold capsuleTriangles. apply app_nonempty.
        intros En. apply map_eq_nil in En. revert En. apply range_nonempty. lia.
  - (* disc *)
    returned E (Rleb ir 0 || Rleb r ir)
             (@generateDisc_accepts r ir g) (@generateDisc_rejects r ir g).
    rewrite V, T. rewrite size_discVertices by lia. split.
    + apply discTriangles_inBounds; lia.
    + intros Hn. unfold discTriangles.
      apply flat_map_nonempty with (a := 0); [apply in_range; lia | discriminate].
  - (* torus *)
    pose proof (@generateTorus4_generates _ r c ba ea g) as G. cbv zeta in G.
    destruct G as [m [E' [V T]]]. rewrite E in E'. injection E' as <-.
    set (phi0 := truncate (IZR (divisionNumber_ g) * ea / (2.0 * PI))) in *.
    set (phi := if Rltb 0 ba || Rltb ea (2.0 * PI) then phi0 + 1 else phi0) in *.
    set (n := if Reqb ea (2.0 * PI) then phi else phi - 1) in *.
    assert (Hn : n <= phi) by (subst n; destruct (Reqb ea (2.0 * PI)); lia).
    assert (Ht : 0 <= Z.quot (divisionNumber_ g) 4) by (apply Z.quot_pos; lia).
    rewrite V, T. split.
    + destruct (Z_le_gt_dec n 0) as [Hle|Hgt].
      * rewrite torusTriangles_empty by assumption. constructor.
      * rewrite size_torusVertices by lia. apply torusTriangles_inBounds; assumption.
    + intros [Hd4 Hsweep].
      assert (Hphi0 : 1 <= phi0).
      { subst phi0. apply truncate_ge_1.
        pose proof PI_RGT_0. apply Rmult_le_reg_r with (r := (2.0 * PI)%R); [lra|].
        unfold Rdiv. rewrite Rmult_assoc, Rinv_l by lra. lra. }
      assert (Hn1 : 1 <= n).
      { subst n phi. destruct (Reqb ea (2.0 * PI)) eqn:Eq.
        - destruct (Rltb 0 ba || Rltb ea (2.0 * PI)); lia.
        - destruct (Rltb 0 ba || Rltb ea (2.0 * PI)) eqn:Es; [lia|].
          apply orb_false_elim in Es as [_ Es]. apply Rltb_false in Es.
          apply Reqb_false in Eq.
          assert (Hgt : (2.0 * PI < ea)%R) by lra.
          assert (Hd1 : (1 <= IZR (divisionNumber_ g))%R) by (apply IZR_le; lia).
          assert (Hphi4 : 2 <= phi0).
          { subst phi0. unfold truncate.
            pose proof PI_RGT_0 as Hpi.
            assert (Hx : (2 <= IZR (divisionNumber_ g) * ea / (2.0 * PI))%R).
            { apply Rmult_le_reg_r with (r := (2.0 * PI)%R); [lra|].
              unfold Rdiv. rewrite Rmult_assoc, Rinv_l by lra.
              assert (H4 : (4 <= IZR (divisionNumber_ g))%R) by (apply IZR_le; lia).
              nra. }
            replace (Rleb 0 (IZR (divisionNumber_ g) * ea / (2.0 * PI))) with true
              by (symmetry; apply Rleb_true; lra).
            destruct (base_Int_part (IZR (divisionNumber_ g) * ea / (2.0 * PI))) as [_ Hb].
            assert (H1 : (IZR 1 < IZR (Int_part (IZR (divisionNumber_ g) * ea / (2.0 * PI))))%R)
              by (cbn; lra).
            apply lt_IZR in H1. lia. }
          lia. }
      unfold torusTriangles.
      apply flat_map_nonempty with (a := 0); [apply in_range; lia|].
      apply flat_map_nonempty with (a := 0); [|discriminate].
      apply in_range. assert (1 <= Z.quot (divisionNumber_ g) 4)
        by (apply Z.quot_le_lower_bound; lia). lia.
  - (* elevation grid *)
    destruct (Z.eq_dec (ElevationGrid.xDimension grid * ElevationGrid.zDimension grid)
                       (size (ElevationGrid.height grid))) as [G|G].
    2: { apply (@generateElevationGrid_rejects _ grid tex g), rejects_result in G.
         rewrite (proj1 G) in E. discriminate E. }
    apply (@generateElevationGrid_accepts _ grid tex g) in G.
    destruct G as [m [E' [V T]]]. rewrite E in E'. injection E' as <-.
    rewrite V, T. split.
    + destruct (Z_le_gt_dec (ElevationGrid.xDimension grid) 1) as [Hx|Hx].
      { rewrite elevationGridTriangles_empty by tauto. constructor. }
      destruct (Z_le_gt_dec (ElevationGrid.zDimension grid) 1) as [Hz|Hz].
      { rewrite elevationGridTriangles_empty by tauto. constructor. }
      rewrite size_elevationGridVertices by lia.
      apply elevationGridTriangles_inBounds.
    + intros [Hx Hz]. unfold elevationGridTriangles.
      apply flat_map_nonempty with (a := 0); [apply in_range; lia|].
      apply flat_map_nonempty with (a := 0); [apply in_range; lia|].
      unfold cellTriangles. destruct (ElevationGrid.ccw grid); discriminate.
  - (* extrusion *)
    destruct Hi as [Hbegin Hend].
    destruct (Z_lt_le_dec (size (Extrusion.spine e)) 2) as [H1|H1];
      [|destruct (Z_lt_le_dec (size (Extrusion.crossSection e)) 2) as [H2|H2];
        [|destruct (Z_lt_le_dec (spineSize e) 2) as [H3|H3];
          [|destruct (Z_lt_le_dec (crossSectionSize e) 2) as [H4|H4]]]];
      try (assert (En : result (generateExtrusion e tex) g = None)
            by (apply rejects_result, generateExtrusion_rejects; tauto);
           rewrite En in E; discriminate E).
    destruct (@generateExtrusion_accepts _ e tex g H1 H2 H3 H4) as [m [E' [V T]]].
    rewrite E in E'. injection E' as <-.
    rewrite V, T, size_extrusionVertices by lia. split.
    + repeat (apply Forall_app; split).
      * apply sideTriangles_inBounds; lia.
      * apply capTriangles_inBounds; [assumption | apply beginPolygon_inBounds; lia].
      * apply capTriangles_inBounds; [assumption | apply endPolygon_inBounds; lia].
    + intros _. apply app_nonempty, app_nonempty, sideTriangles_nonempty; assumption.
Qed.

End Indices.

Lemma generated_triangles_indexed_witness :
  0 <= divisionNumber MeshGenerator_new
  /\ @indexable referenceCollaborators MeshGenerator_new
                (CylinderShape 1 2 true false true false)
  /\ exists mesh,
       result (@generate referenceCollaborators (CylinderShape 1 2 true false true false))
              MeshGenerator_new = Some mesh
       /\ wellIndexed mesh
       /\ triangles mesh <> [].
Proof.
  assert (Hd : 0 <= divisionNumber MeshGenerator_new) by (vm_compute; discriminate).
  assert (Hi : @indexable referenceCollaborators MeshGenerator_new
                          (CylinderShape 1 2 true false true false)) by exact I.
  split; [exact Hd|]. split; [exact Hi|].
  destruct (@generateCylinder_accepts referenceCollaborators 1 2 true false true false
              MeshGenerator_new) as [mesh [E _]]; [apply guard2_false; lra|].
  exists mesh. split; [exact E|].
  destruct (@generated_triangles_indexed referenceCollaborators MeshGenerator_new
              (CylinderShape 1 2 true false true false) mesh Hd Hi E) as [Hw Hn].
  split; [exact Hw|]. apply Hn. split; [vm_compute; discriminate | reflexivity].
Defined.

(** C1 fails without faces: a cylinder generated with the top, bottom and
    side flags all off is a mesh without triangles.  It also fails for
    the capsule at division number 1, whose bottom face is the triangle
    (1, -1, -1). *)
Lemma generateCylinder_without_faces :
  (exists mesh,
      result (@generateCylinder referenceCollaborators 1 1 false false false false)
             MeshGenerator_new = Some mesh
      /\ triangles mesh = [])
  /\ (exists mesh,
        result (@generateCapsule referenceCollaborators 1 1)
               (setDivisionNumber 1 MeshGenerator_new) = Some mesh
        /\ size (vertices mesh) = 2
        /\ triangles mesh = [(0, 0, 0); (1, -1, -1)]).
Proof.
  split.
  - destruct (@generateCylinder_accepts referenceCollaborators 1 1 false false false false
                MeshGenerator_new) as [mesh [E [_ T]]]; [apply guard2_false; lra|].
    exists mesh. split; [exact E|]. rewrite T. reflexivity.
  - destruct (@generateCapsule_accepts referenceCollaborators 1 1
                (setDivisionNumber 1 MeshGenerator_new)) as [mesh [E [V T]]];
      [apply guard2_false; lra|].
    exists mesh. split; [exact E|]. rewrite V, T. split; reflexivity.
Qed.

(** * Further properties *)

(** ** Texture coordinate builders: the shared invariant *)

Lemma findTexCoordPoint_from_spec (i : Z) (l : list Vector2f) (p : Vector2f) :
  (findTexCoordPoint_from i l p = -1 /\ Forall (fun c => isApprox c p = false) l)
  \/ (i <= findTexCoordPoint_from i l p < i + size l).
Proof.
  revert i. induction l as [|c l IH]; intros i; cbn [findTexCoordPoint_from].
  - left. split; [reflexivity | constructor].
  - destruct (isApprox c p) eqn:E.
    + right. unfold size. cbn [length]. lia.
    + destruct (IH (i + 1)) as [[H1 H2]|H].
      * left. split; [exact H1 | constructor; assumption].
      * right. unfold size in *. cbn [length]. lia.
Qed.

Lemma ForallOrdPairs_snoc {A : Type} (R : A -> A -> Prop) (l : list A) (a : A) :
  ForallOrdPairs R l -> Forall (fun b => R b a) l -> ForallOrdPairs R (l ++ [a]).
Proof.
  induction 1 as [|b l Hb Hl IH]; intros Ha; cbn [app].
  - constructor; constructor.
  - inversion Ha; subst. constructor.
    + apply Forall_app. split; [assumption | constructor; [assumption | constructor]].
    + apply IH. assumption.
Qed.

Lemma Forall_indexInBounds_mono (n n' : Z) (l : list Z) :
  n <= n' -> Forall (indexInBounds n) l -> Forall (indexInBounds n') l.
Proof.
  intros Hn. apply Forall_impl. unfold indexInBounds. intros; lia.
Qed.

Lemma texStep_refl (P : Vector2f -> Prop) (st : TexState) : texStep P 0 st st.
Proof. unfold texStep. split; [tauto|]. split; lia. Qed.

Lemma texStep_trans (P : Vector2f -> Prop) (n m : Z) (st st' st'' : TexState) :
  texStep P n st st' -> texStep P m st' st'' -> texStep P (n + m) st st''.
Proof.
  unfold texStep. intros [H1 [H2 H3]] [H4 [H5 H6]].
  split; [tauto|]. split; lia.
Qed.

Lemma size_snoc {A : Type} (l : list A) (a : A) : size (l ++ [a]) = size l + 1.
Proof. rewrite size_app. reflexivity. Qed.

Lemma pushTexPoint_step (P : Vector2f -> Prop) (st : TexState) (p : Vector2f) :
  P p -> texStep P 1 st (pushTexPoint st p).
Proof.
  intros Hp. unfold texStep, pushTexPoint, findTexCoordPoint. cbv zeta.
  pose proof (size_nonneg (coords st)) as Hsz.
  destruct (findTexCoordPoint_from_spec 0 (coords st) p) as [[H1 H2]|H].
  - rewrite H1. change (0 <=? -1) with false. cbn [coords indices texIndex].
    rewrite !size_snoc. split; [|split; lia].
    intros [I1 [I2 [I3 I4]]]. unfold texInvariant.
    cbn [coords indices texIndex]. rewrite size_snoc.
    split; [lia|]. split; [|split].
    + apply Forall_app. split.
      * eapply Forall_indexInBounds_mono; [|exact I2]. lia.
      * constructor; [|constructor]. unfold indexInBounds. lia.
    + apply Forall_app. split; [assumption | constructor; [assumption | constructor]].
    + apply ForallOrdPairs_snoc; assumption.
  - replace (0 <=? findTexCoordPoint_from 0 (coords st) p) with true
      by (symmetry; apply Z.leb_le; lia).
    cbn [coords indices texIndex]. rewrite size_snoc. split; [|split; lia].
    intros [I1 [I2 [I3 I4]]]. unfold texInvariant. cbn [coords indices texIndex].
    split; [assumption|]. split; [|split; assumption].
    apply Forall_app. split; [assumption|].
    constructor; [|constructor]. unfold indexInBounds. lia.
Qed.

Lemma pushTexIndex_step (P : Vector2f -> Prop) (st : TexState) :
  1 <= size (coords st) -> texStep P 1 st (pushTexIndex st 0).
Proof.
  intros Hn. unfold texStep, pushTexIndex. cbn [coords indices texIndex].
  rewrite size_snoc. split; [|split; lia].
  intros [I1 [I2 [I3 I4]]]. unfold texInvariant. cbn [coords indices texIndex].
  split; [assumption|]. split; [|split; assumption].
  apply Forall_app. split; [assumption|].
  constructor; [|constructor]. unfold indexInBounds. lia.
Qed.

Lemma fold_texStep (P : Vector2f -> Prop) (c : Z)
      (f : TexState -> Triangle -> TexState) :
  (forall st t, c <= size (coords st) -> texStep P 3 st (f st t)) ->
  forall l st, c <= size (coords st) -> texStep P (3 * size l) st (fold_left f l st).
Proof.
  intros Hf. induction l as [|t l IH]; intros st Hc; cbn [fold_left].
  - apply texStep_refl.
  - replace (3 * size (t :: l)) with (3 + 3 * size l)
      by (unfold size; cbn [length]; lia).
    apply texStep_trans with (st' := f st t); [apply Hf; assumption|].
    apply IH. destruct (Hf st t Hc) as [_ [_ H]]. lia.
Qed.

(** ** Texture coordinates in the unit square *)

Lemma seamAdjust_unit (over : bool) (sj : R) : (0 <= seamAdjust over sj <= 1)%R.
Proof.
  unfold seamAdjust. cbv zeta.
  destruct (Rltb sj 1.0e-6) eqn:E1.
  - replace (Rltb 1 0) with false by (symmetry; apply Rltb_false; lra).
    destruct (over && Reqb 0 0); lra.
  - apply Rltb_false in E1.
    destruct (Rltb 1 sj) eqn:E2.
    + destruct (over && Reqb 1 0); lra.
    + apply Rltb_false in E2. destruct (over && Reqb sj 0); lra.
Qed.

Lemma atan_nonpos (x : R) : (x <= 0)%R -> (atan x <= 0)%R.
Proof.
  intros [H | ->].
  - left. rewrite <- atan_0. apply atan_increasing. assumption.
  - rewrite atan_0. lra.
Qed.

Lemma atan_pos (x : R) : (0 < x)%R -> (0 < atan x)%R.
Proof. intros H. rewrite <- atan_0. apply atan_increasing. assumption. Qed.

Lemma atan2_bound (y x : R) : (- PI <= atan2 y x <= PI)%R.
Proof.
  pose proof PI_RGT_0 as Hpi. unfold atan2.
  destruct (Rltb 0 x) eqn:E1.
  - pose proof (atan_bound (y / x)). lra.
  - destruct (Rltb x 0) eqn:E2.
    + apply Rltb_true in E2. pose proof (Rinv_lt_0_compat x E2) as Hinv.
      pose proof (atan_bound (y / x)) as Hb.
      destruct (Rleb 0 y) eqn:E3.
      * apply Rleb_true in E3.
        assert (Hq : (y / x <= 0)%R) by (unfold Rdiv; nra).
        pose proof (atan_nonpos Hq). lra.
      * apply Rleb_false in E3.
        assert (Hq : (0 < y / x)%R) by (unfold Rdiv; nra).
        pose proof (atan_pos Hq). lra.
    + destruct (Rltb 0 y); [lra|]. destruct (Rltb y 0); lra.
Qed.

Lemma longitude_unit (p : Vector3f) : (0 <= longitude p <= 1)%R.
Proof.
  pose proof PI_RGT_0 as Hpi. unfold longitude.
  pose proof (atan2_bound (vx p) (vz p)) as [H1 H2].
  assert (Hinv : (0 < / PI)%R) by (apply Rinv_0_lt_compat; assumption).
  assert (Hone : (PI * / PI = 1)%R) by (apply Rinv_r; lra).
  unfold Rdiv. split; nra.
Qed.

Lemma half_cos_unit (a : R) : (0 <= 0.5 + 0.5 * cos a <= 1)%R.
Proof. pose proof (COS_bound a). lra. Qed.

Lemma half_sin_unit (a : R) :
  (0 <= 0.5 + 0.5 * sin a <= 1)%R /\ (0 <= 0.5 - 0.5 * sin a <= 1)%R.
Proof. pose proof (SIN_bound a). lra. Qed.

Lemma latitude_unit (w : R) :
  let w1 := if Rltb 1 w then 1%R else w in
  let w2 := if Rltb w1 (-1) then (-1)%R else w1 in
  (0 <= 1 - acos w2 / PI <= 1)%R.
Proof.
  cbv zeta. pose proof PI_RGT_0 as Hpi.
  set (w2 := if Rltb _ (-1) then _ else _).
  pose proof (acos_bound w2) as [H1 H2].
  assert (Hinv : (0 < / PI)%R) by (apply Rinv_0_lt_compat; assumption).
  assert (Hone : (PI * / PI = 1)%R) by (apply Rinv_r; lra).
  unfold Rdiv. split; nra.
Qed.

(** ** Texture coordinate builders, triangle by triangle *)

Ltac three_steps :=
  change 3 with (1 + (1 + 1));
  eapply texStep_trans; [|eapply texStep_trans].

Lemma sphereTexTriangle_step (vs : list Vector3f) (radius : R) (st : TexState)
      (t : Triangle) :
  texStep inUnitSquare 3 st (sphereTexTriangle vs radius st t).
Proof.
  destruct t as [[a b] c]. unfold sphereTexTriangle. cbv zeta.
  cbn [corners map combine fold_left fst snd].
  three_steps; apply pushTexPoint_step; (split; cbn [ux uy];
    [apply seamAdjust_unit | apply latitude_unit]).
Qed.

Lemma capTexTriangle_step (flip : bool) (center : Z) (p0 p1 p2 : Vector3f)
      (st : TexState) :
  1 <= size (coords st) ->
  texStep inUnitSquare 3 st (capTexTriangle flip center [p0; p1; p2] st).
Proof.
  intros Hc. unfold capTexTriangle.
  change (numbered [p0; p1; p2]) with [(0, p0); (1, p1); (2, p2)].
  cbn [fold_left fst snd].
  assert (Hstep : forall j p st0,
             1 <= size (coords st0) ->
             texStep inUnitSquare 1 st0
               (if negb (j =? center)
                then pushTexPoint st0
                       (V2 (0.5 + 0.5 * cos (atan2 (vz p) (vx p)))
                           (if flip then (0.5 - 0.5 * sin (atan2 (vz p) (vx p)))%R
                            else (0.5 + 0.5 * sin (atan2 (vz p) (vx p)))%R))
                else pushTexIndex st0 0)).
  { intros j p st0 H0. destruct (negb (j =? center)).
    - apply pushTexPoint_step. split; cbn [ux uy]; [apply half_cos_unit|].
      destruct flip; apply half_sin_unit.
    - apply pushTexIndex_step. assumption. }
  pose proof (Hstep 0 p0 st Hc) as S0.
  set (st1 := if negb (0 =? center) then _ else _) in *.
  assert (H1 : 1 <= size (coords st1)) by (destruct S0 as [_ [_ ?]]; lia).
  pose proof (Hstep 1 p1 st1 H1) as S1.
  set (st2 := if negb (1 =? center) then _ else _) in *.
  assert (H2 : 1 <= size (coords st2)) by (destruct S1 as [_ [_ ?]]; lia).
  pose proof (Hstep 2 p2 st2 H2) as S2.
  change 3 with (1 + (1 + 1)).
  eapply texStep_trans; [exact S0|]. eapply texStep_trans; [exact S1 | exact S2].
Qed.

Lemma cylinderTexTriangle_step (vs : list Vector3f) (st : TexState) (t : Triangle) :
  1 <= size (coords st) ->
  texStep inUnitSquare 3 st (cylinderTexTriangle vs st t).
Proof.
  intros Hc. destruct t as [[a b] c]. unfold cylinderTexTriangle. cbv zeta.
  cbn [corners]. destruct (negb _).
  - cbn [map combine fold_left fst snd].
    three_steps; apply pushTexPoint_step; (split; cbn [ux uy];
      [apply seamAdjust_unit | destruct (Rltb 0 _); lra]).
  - apply capTexTriangle_step. assumption.
Qed.

Lemma numbered3 {A : Type} (a b c : A) : numbered [a; b; c] = [(0, a); (1, b); (2, c)].
Proof. reflexivity. Qed.

Lemma coneSideTexTriangle_step (top : Z) (p0 p1 p2 : Vector3f) (st : TexState) :
  texStep inUnitSquare 3 st (coneSideTexTriangle top [p0; p1; p2] st).
Proof.
  pose proof (longitude_unit p0) as L0.
  pose proof (longitude_unit p1) as L1.
  pose proof (longitude_unit p2) as L2.
  unfold coneSideTexTriangle. cbv zeta. rewrite numbered3.
  cbn [fold_left fst snd app].
  destruct (0 =? top) eqn:E0; destruct (1 =? top) eqn:E1; destruct (2 =? top) eqn:E2;
    try (apply Z.eqb_eq in E0); try (apply Z.eqb_eq in E1); try (apply Z.eqb_eq in E2);
    try lia; try subst top;
    cbn [negb fst snd app]; rewrite numbered3; cbn [fold_left fst snd];
    rewrite ?E0, ?E1, ?E2; cbn [Z.eqb Pos.eqb negb];
    change (at_ 0%R [?a; ?b; ?c] 0) with a;
    change (at_ 0%R [?a; ?b; ?c] 1) with b;
    change (at_ 0%R [?a; ?b; ?c] 2) with c;
    (three_steps; apply pushTexPoint_step; split; cbn [ux uy]; try lra;
     repeat match goal with
            | |- context [if ?b then _ else _] => destruct b
            end; lra).
Qed.

Lemma coneTexTriangle_step (vs : list Vector3f) (st : TexState) (t : Triangle) :
  1 <= size (coords st) ->
  texStep inUnitSquare 3 st (coneTexTriangle vs st t).
Proof.
  intros Hc. destruct t as [[a b] c]. unfold coneTexTriangle. cbv zeta.
  cbn [corners]. destruct (0 <=? _).
  - apply coneSideTexTriangle_step.
  - apply capTexTriangle_step. assumption.
Qed.

Lemma texInvariant_empty : texInvariant inUnitSquare (mkTex [] [] 0).
Proof. unfold texInvariant. cbn. repeat split; constructor. Qed.

Lemma texInvariant_centre : texInvariant inUnitSquare (mkTex [V2 0.5 0.5] [] 1).
Proof.
  unfold texInvariant. cbn [coords indices texIndex].
  split; [reflexivity|]. split; [constructor|]. split.
  - constructor; [|constructor]. unfold inUnitSquare. cbn [ux uy]. lra.
  - constructor; constructor.
Qed.

(** The arrays a builder leaves in the mesh. *)
Lemma builder_arrays (f : TexState -> Triangle -> TexState) (start : TexState)
      (c : Z) (mesh : SgMesh) :
  (forall st t, c <= size (coords st) -> texStep inUnitSquare 3 st (f st t)) ->
  c <= size (coords start) ->
  texInvariant inUnitSquare start ->
  indices start = [] ->
  let st := fold_left f (triangles mesh) start in
  let mesh' := setTexCoords (coords st) (indices st) mesh in
  textureIndexed mesh'
  /\ Forall inUnitSquare (texCoords mesh')
  /\ deduplicated (texCoords mesh').
Proof.
  intros Hf Hc Hinv Hnil st mesh'.
  destruct (@fold_texStep _ _ _ Hf (triangles mesh) start Hc) as [H1 [H2 _]].
  destruct (H1 Hinv) as [_ [I2 [I3 I4]]]. fold st in H2, I2, I3, I4.
  unfold textureIndexed, mesh', numTriangles.
  cbn [texCoords texCoordIndices triangles setTexCoords].
  rewrite Hnil in H2. change (size (@nil Z)) with 0 in H2.
  split; [split; [lia | assumption] | split; assumption].
Qed.

Lemma sphere_arrays (mesh : SgMesh) :
  let mesh' := generateTextureCoordinateForSphere mesh in
  textureIndexed mesh' /\ Forall inUnitSquare (texCoords mesh')
  /\ deduplicated (texCoords mesh').
Proof.
  apply builder_arrays with (c := 0).
  - intros. apply sphereTexTriangle_step.
  - cbn. lia.
  - apply texInvariant_empty.
  - reflexivity.
Qed.

Lemma cylinder_arrays (mesh : SgMesh) :
  let mesh' := generateTextureCoordinateForCylinder mesh in
  textureIndexed mesh' /\ Forall inUnitSquare (texCoords mesh')
  /\ deduplicated (texCoords mesh').
Proof.
  apply builder_arrays with (c := 1).
  - intros. apply cylinderTexTriangle_step. assumption.
  - cbn. lia.
  - apply texInvariant_centre.
  - reflexivity.
Qed.

Lemma cone_arrays (mesh : SgMesh) :
  let mesh' := generateTextureCoordinateForCone mesh in
  textureIndexed mesh' /\ Forall inUnitSquare (texCoords mesh')
  /\ deduplicated (texCoords mesh').
Proof.
  apply builder_arrays with (c := 1).
  - intros. apply coneTexTriangle_step. assumption.
  - cbn. lia.
  - apply texInvariant_centre.
  - reflexivity.
Qed.

(** ** The textured mesh a generator returns *)

Lemma size_triangleVertices (m : SgMesh) : size (triangleVertices m) = 3 * numTriangles m.
Proof.
  unfold triangleVertices, numTriangles.
  rewrite size_flat_map with (k := 3); [lia|].
  intros [[a b] c] _. reflexivity.
Qed.

Lemma triangleVertices_inBounds (m : SgMesh) (n : Z) :
  Forall (triangleInBounds n) (triangles m) ->
  Forall (indexInBounds n) (triangleVertices m).
Proof.
  intros H. unfold triangleVertices. apply Forall_forall. intros i Hi.
  apply in_flat_map in Hi as [[[a b] c] [Ht Hi]].
  rewrite Forall_forall in H. specialize (H _ Ht). cbn in H.
  destruct Hi as [<-|[<-|[<-|[]]]]; tauto.
Qed.

(** With texture coordinates requested, the texture arrays of the returned
    mesh are those the builder of the shape makes from a mesh with the
    triangles, vertices and primitive of the returned one. *)
Lemma generate_textured {collaborators : Collaborators}
      (s : Shape) (g : MeshGenerator) (mesh : SgMesh) :
  texturedCall s ->
  result (generate s) g = Some mesh ->
  exists m,
    triangles m = triangles mesh
    /\ vertices m = vertices mesh
    /\ primitive m = primitive mesh
    /\ texCoords mesh = texCoords (textureBuilder s m)
    /\ texCoordIndices mesh = texCoordIndices (textureBuilder s m).
Proof.
  destruct s as [sz tex|r tex|r h b t sd tex|r h b sd tex|r h|r ir|r c ba ea|grid tex|e tex];
    cbn [texturedCall generate textureBuilder]; intros Ht; try contradiction; subst tex;
    unfold result.
  - unfold generateBox. destruct (_ || _); [discriminate|].
    cbv zeta. run_gen. intros E. injection E as <-. eexists.
    split; [|split; [|split; [|split; reflexivity]]]; geometry; reflexivity.
  - unfold generateSphere. run_gen. destruct (_ || _); [discriminate|].
    cbv zeta. run_gen. intros E. injection E as <-. eexists.
    split; [|split; [|split; [|split; reflexivity]]]; geometry; reflexivity.
  - unfold generateCylinder. run_gen. destruct (_ || _); [discriminate|].
    cbv zeta. run_gen. intros E. injection E as <-. eexists.
    split; [|split; [|split; [|split; reflexivity]]]; geometry; reflexivity.
  - unfold generateCone. run_gen. destruct (_ || _); [discriminate|].
    cbv zeta. run_gen. intros E. injection E as <-. eexists.
    split; [|split; [|split; [|split; reflexivity]]]; geometry; reflexivity.
  - unfold generateElevationGrid. destruct (negb _); [discriminate|].
    cbv zeta. run_gen. intros E. injection E as <-.
    exists (fst (generateNormals
                   (addTriangles (elevationGridTriangles grid)
                                 (setVertices (elevationGridVertices grid) newMesh))
                   (ElevationGrid.creaseAngle grid) g)).
    unfold updateBoundingBoxIfEnabled. cbn [fst].
    unfold generateTextureCoordinateForElevationGrid.
    destruct (isBoundingBoxUpdateEnabled_ _);
      (split; [|split; [|split; [|split]]]); reflexivity.
Qed.

Lemma elevationGrid_wellIndexed (grid : ElevationGrid.t) :
  Forall (triangleInBounds (size (elevationGridVertices grid)))
         (elevationGridTriangles grid).
Proof.
  destruct (Z_le_gt_dec (ElevationGrid.xDimension grid) 1) as [Hx|Hx].
  { rewrite elevationGridTriangles_empty by tauto. constructor. }
  destruct (Z_le_gt_dec (ElevationGrid.zDimension grid) 1) as [Hz|Hz].
  { rewrite elevationGridTriangles_empty by tauto. constructor. }
  rewrite size_elevationGridVertices by lia.
  apply elevationGridTriangles_inBounds.
Qed.

(** A box, a sphere, a cylinder, a cone or an elevation grid generated with
    texture coordinates carries three texture indices per triangle, each
    of them inside the texture coordinate array of the mesh. *)
Theorem textured_mesh_indexed {collaborators : Collaborators}
        (s : Shape) (g : MeshGenerator) (mesh : SgMesh) :
  texturedCall s ->
  result (generate s) g = Some mesh ->
  textureIndexed mesh.
Proof.
  intros Ht E.
  destruct (generate_textured s g Ht E) as [m [T [V [_ [C I]]]]].
  unfold textureIndexed, numTriangles. rewrite C, I, <- T.
  destruct s as [sz tex|r tex|r h b t sd tex|r h b sd tex|r h|r ir|r c ba ea|grid tex|e tex];
    cbn [texturedCall] in Ht; try contradiction; subst tex; cbn [textureBuilder].
  - (* box: twelve triangles, four texture points *)
    assert (B : triangles mesh = boxTriangles).
    { cbn [generate] in E.
      destruct (Rltb (vx sz) 0 || Rltb (vy sz) 0 || Rltb (vz sz) 0) eqn:G.
      - apply (@generateBox_rejects _ sz true g), rejects_result in G.
        rewrite (proj1 G) in E. discriminate E.
      - apply (@generateBox_accepts _ sz true g) in G.
        destruct G as [m' [E' [_ T']]]. rewrite E in E'. injection E' as <-. exact T'. }
    rewrite T, B. unfold generateTextureCoordinateForBox.
    cbn [setTexCoords texCoords texCoordIndices].
    split; [reflexivity|].
    repeat constructor; cbv; discriminate.
  - destruct (sphere_arrays m) as [[H1 H2] _]. cbv zeta in H1, H2.
    unfold numTriangles in H1. rewrite textureSphere_triangles in H1. split; assumption.
  - destruct (cylinder_arrays m) as [[H1 H2] _]. cbv zeta in H1, H2.
    unfold numTriangles in H1. rewrite textureCylinder_triangles in H1. split; assumption.
  - destruct (cone_arrays m) as [[H1 H2] _]. cbv zeta in H1, H2.
    unfold numTriangles in H1. rewrite textureCone_triangles in H1. split; assumption.
  - (* elevation grid: the texture indices are the vertex indices *)
    assert (B : vertices mesh = elevationGridVertices grid
                /\ triangles mesh = elevationGridTriangles grid).
    { cbn [generate] in E.
      destruct (Z.eq_dec (ElevationGrid.xDimension grid * ElevationGrid.zDimension grid)
                         (size (ElevationGrid.height grid))) as [G|G].
      2: { apply (@generateElevationGrid_rejects _ grid true g), rejects_result in G.
           rewrite (proj1 G) in E. discriminate E. }
      apply (@generateElevationGrid_accepts _ grid true g) in G.
      destruct G as [m' [E' [V' T']]]. rewrite E in E'. injection E' as <-. tauto. }
    unfold generateTextureCoordinateForElevationGrid.
    cbn [setTexCoords texCoords texCoordIndices].
    split.
    + apply size_triangleVertices.
    + rewrite size_map. apply triangleVertices_inBounds.
      rewrite V, T, (proj1 B), (proj2 B). apply elevationGrid_wellIndexed.
Qed.

Lemma textured_mesh_indexed_witness :
  texturedCall (BoxShape (V3 1 2 3) true)
  /\ exists mesh,
       result (@generate referenceCollaborators (BoxShape (V3 1 2 3) true)) MeshGenerator_new
       = Some mesh
       /\ textureIndexed mesh.
Proof.
  assert (Ht : texturedCall (BoxShape (V3 1 2 3) true)) by reflexivity.
  split; [exact Ht|].
  destruct (@generateBox_accepts referenceCollaborators (V3 1 2 3) true MeshGenerator_new)
    as [mesh [E _]]; [apply guard3_false; cbn; lra|].
  exists mesh. split; [exact E|].
  exact (@textured_mesh_indexed referenceCollaborators (BoxShape (V3 1 2 3) true)
           MeshGenerator_new mesh Ht E).
Defined.



(** The texture coordinate array of a textured sphere, cylinder or cone
    holds no two approximately equal points: a point that approximates an
    earlier one is never appended, its index is reused. *)
Theorem textured_mesh_points_shared {collaborators : Collaborators}
        (s : Shape) (g : MeshGenerator) (mesh : SgMesh) :
  sharedPointCall s ->
  result (generate s) g = Some mesh ->
  deduplicated (texCoords mesh).
Proof.
  intros Hs E.
  assert (Ht : texturedCall s).
  { destruct s; cbn in Hs |- *; tauto. }
  destruct (generate_textured s g Ht E) as [m [_ [_ [_ [C _]]]]].
  rewrite C.
  destruct s as [sz tex|r tex|r h b t sd tex|r h b sd tex|r h|r ir|r c ba ea|grid tex|e tex];
    cbn [sharedPointCall] in Hs; try contradiction; cbn [textureBuilder].
  - apply sphere_arrays.
  - apply cylinder_arrays.
  - apply cone_arrays.
Qed.

Lemma textured_mesh_points_shared_witness :
  sharedPointCall (ConeShape 1 2 true true true)
  /\ exists mesh,
       result (@generate referenceCollaborators (ConeShape 1 2 true true true))
              MeshGenerator_new = Some mesh
       /\ deduplicated (texCoords mesh).
Proof.
  assert (Hs : sharedPointCall (ConeShape 1 2 true true true)) by reflexivity.
  split; [exact Hs|].
  destruct (@generateCone_accepts referenceCollaborators 1 2 true true true MeshGenerator_new)
    as [mesh [E _]]; [apply guard2_false; lra|].
  exists mesh. split; [exact E|].
  exact (@textured_mesh_points_shared referenceCollaborators (ConeShape 1 2 true true true)
           MeshGenerator_new mesh Hs E).
Defined.

(** ** Positions in the vertex array *)

Lemma at_nth {A : Type} (d : A) (l : list A) (i : Z) :
  0 <= i -> at_ d l i = nth (Z.to_nat i) l d.
Proof.
  intros Hi. unfold at_.
  replace (i <? 0) with false by (symmetry; apply Z.ltb_ge; lia). reflexivity.
Qed.

Lemma at_app_l {A : Type} (d : A) (l l' : list A) (i : Z) :
  0 <= i < size l -> at_ d (l ++ l') i = at_ d l i.
Proof.
  unfold size. intros Hi. rewrite !at_nth by lia. apply app_nth1. lia.
Qed.

Lemma at_app_r {A : Type} (d : A) (l l' : list A) (i : Z) :
  size l <= i -> at_ d (l ++ l') i = at_ d l' (i - size l).
Proof.
  unfold size. intros Hi. rewrite !at_nth by lia.
  rewrite app_nth2 by lia. f_equal. lia.
Qed.

Lemma at_range (lo hi i : Z) :
  0 <= i < hi - lo -> at_ 0 (range lo hi) i = lo + i.
Proof.
  intros Hi. rewrite at_nth by lia. unfold range.
  rewrite nth_indep with (d' := lo + Z.of_nat 0)
    by (rewrite length_map, length_seq; lia).
  rewrite (map_nth (fun k => lo + Z.of_nat k)), seq_nth by lia. lia.
Qed.

Lemma at_map {A B : Type} (f : A -> B) (da : A) (db : B) (l : list A) (i : Z) :
  0 <= i < size l -> at_ db (map f l) i = f (at_ da l i).
Proof.
  unfold size. intros Hi. rewrite !at_nth by lia.
  rewrite nth_indep with (d' := f da) by (rewrite length_map; lia).
  apply map_nth.
Qed.

Lemma at_map_range {B : Type} (f : Z -> B) (d : B) (n i : Z) :
  0 <= i < n -> at_ d (map f (range 0 n)) i = f i.
Proof.
  intros Hi. rewrite at_map with (da := 0) by (rewrite size_range; lia).
  rewrite at_range by lia. f_equal.
Qed.

(** Row [i] of a list built from rows of [k] entries starts at [i * k]. *)
Lemma at_flat_map_range {B : Type} (f : Z -> list B) (d : B) (lo hi k i j : Z) :
  (forall a, lo <= a < hi -> size (f a) = k) ->
  lo <= i < hi -> 0 <= j < k ->
  at_ d (flat_map f (range lo hi)) ((i - lo) * k + j) = at_ d (f i) j.
Proof.
  intros Hk Hi Hj.
  assert (G : forall (n : nat) (lo' : Z),
             lo <= lo' -> lo' + Z.of_nat n <= hi -> lo' <= i < lo' + Z.of_nat n ->
             at_ d (flat_map f (map (fun c => lo' + Z.of_nat c) (seq 0 n)))
                 ((i - lo') * k + j) = at_ d (f i) j).
  { induction n as [|n IH]; intros lo' H1 H2 H3; [lia|].
    cbn [seq map flat_map]. rewrite <- seq_shift, map_map.
    replace (lo' + Z.of_nat 0) with lo' by lia.
    destruct (Z.eq_dec i lo') as [->|Hne].
    - replace ((lo' - lo') * k + j) with j by lia.
      apply at_app_l. rewrite Hk; lia.
    - rewrite at_app_r by (rewrite Hk by lia; nia).
      rewrite Hk by lia.
      replace ((i - lo') * k + j - k) with ((i - (lo' + 1)) * k + j) by lia.
      rewrite <- (IH (lo' + 1)) by lia.
      f_equal. f_equal. apply map_ext. intros c. lia. }
  unfold range. apply G; lia.
Qed.

(** ** Cylinder and cone *)

Lemma on_circle (r a : R) :
  (r * cos a * (r * cos a) + r * sin a * (r * sin a) = r * r)%R.
Proof.
  pose proof (sin2_cos2 a) as H. unfold Rsqr in H.
  replace (r * cos a * (r * cos a) + r * sin a * (r * sin a))%R
    with (r * r * (sin a * sin a + cos a * cos a))%R by ring.
  rewrite H. ring.
Qed.

Lemma size_cylinderTriangles (n a b : Z) (bottom top side : bool) :
  0 <= n ->
  size (cylinderTriangles n a b bottom top side)
  = n * ((if top then 1 else 0) + (if side then 2 else 0) + (if bottom then 1 else 0)).
Proof.
  intros Hn. unfold cylinderTriangles.
  rewrite size_flat_map
    with (k := (if top then 1 else 0) + (if side then 2 else 0) + (if bottom then 1 else 0)).
  - rewrite size_range; lia.
  - intros i _. destruct top, side, bottom; reflexivity.
Qed.

Lemma size_coneTriangles (n a b : Z) (bottom side : bool) :
  0 <= n ->
  size (coneTriangles n a b bottom side)
  = n * ((if side then 1 else 0) + (if bottom then 1 else 0)).
Proof.
  intros Hn. unfold coneTriangles.
  rewrite size_flat_map with (k := (if side then 1 else 0) + (if bottom then 1 else 0)).
  - rewrite size_range; lia.
  - intros i _. destruct side, bottom; reflexivity.
Qed.

(** A cylinder of non-negative radius and height at division number [n]
    has [2 n + 2] vertices and [n] triangles per requested cap plus [2 n]
    for the side.  Vertex [i] of the top ring is at height [height / 2] and
    at distance [radius] from the axis, vertex [i + n] is straight below it
    at [- height / 2], and the last two vertices are the cap centres. *)
Theorem generateCylinder_mesh {collaborators : Collaborators}
        (radius height : R) (bottom top side tex : bool) (g : MeshGenerator) :
  (0 <= radius)%R -> (0 <= height)%R -> 0 <= divisionNumber g ->
  let n := divisionNumber g in
  exists mesh,
    result (generateCylinder radius height bottom top side tex) g = Some mesh
    /\ size (vertices mesh) = 2 * n + 2
    /\ numTriangles mesh
       = n * ((if top then 1 else 0) + (if side then 2 else 0) + (if bottom then 1 else 0))
    /\ (forall i, 0 <= i < n ->
          let v := at_ Vector3_Zero (vertices mesh) i in
          let w := at_ Vector3_Zero (vertices mesh) (i + n) in
          vy v = (height / 2)%R /\ vy w = (- (height / 2))%R
          /\ vx w = vx v /\ vz w = vz v
          /\ (vx v * vx v + vz v * vz v = radius * radius)%R)
    /\ at_ Vector3_Zero (vertices mesh) (2 * n) = V3 0 (height / 2) 0
    /\ at_ Vector3_Zero (vertices mesh) (2 * n + 1) = V3 0 (- (height / 2)) 0.
Proof.
  intros Hr Hh Hd n. unfold divisionNumber in Hd, n.
  destruct (@generateCylinder_accepts _ radius height bottom top side tex g)
    as [mesh [E [V T]]]; [apply guard2_false; assumption|].
  exists mesh. split; [exact E|]. unfold numTriangles. rewrite V, T. clear E V T.
  fold n.
  assert (Hs : size (cylinderRings radius (height / 2.0) n) = 2 * n)
    by (rewrite size_cylinderRings; lia).
  split; [|split; [|split; [|split]]].
  - unfold cylinderVertices. rewrite size_app, Hs. reflexivity.
  - apply size_cylinderTriangles. assumption.
  - intros i Hi. cbv zeta. unfold cylinderVertices.
    rewrite (@at_app_l Vector3f Vector3_Zero (cylinderRings radius (height / 2.0) n) _ i),
      (@at_app_l Vector3f Vector3_Zero (cylinderRings radius (height / 2.0) n) _ (i + n))
      by (rewrite Hs; lia).
    unfold cylinderRings.
    rewrite at_app_l by (rewrite size_map, size_range; lia).
    rewrite at_app_r by (rewrite size_map, size_range; lia).
    rewrite size_map, size_range by lia.
    replace (i + n - (n - 0)) with i by lia.
    rewrite !at_map_range by lia. cbn [vx vy vz].
    split; [lra|]. split; [lra|]. split; [reflexivity|]. split; [reflexivity|].
    apply on_circle.
  - unfold cylinderVertices. rewrite (@at_app_r Vector3f) by (rewrite Hs; lia). rewrite Hs.
    replace (2 * n - 2 * n) with 0 by lia. cbn. f_equal. lra.
  - unfold cylinderVertices. rewrite (@at_app_r Vector3f) by (rewrite Hs; lia). rewrite Hs.
    replace (2 * n + 1 - 2 * n) with 1 by lia.
    change (at_ Vector3_Zero [V3 0 (height / 2.0) 0; V3 0 (- (height / 2.0)) 0] 1)
      with (V3 0 (- (height / 2.0)) 0).
    f_equal. lra.
Qed.

Lemma generateCylinder_mesh_witness :
  (0 <= 1)%R /\ (0 <= 2)%R /\ 0 <= divisionNumber MeshGenerator_new
  /\ exists mesh,
       result (@generateCylinder referenceCollaborators 1 2 true true true false)
              MeshGenerator_new = Some mesh
       /\ size (vertices mesh) = 42
       /\ numTriangles mesh = 80.
Proof.
  assert (Hr : (0 <= 1)%R) by lra.
  assert (Hh : (0 <= 2)%R) by lra.
  assert (Hd : 0 <= divisionNumber MeshGenerator_new) by (vm_compute; discriminate).
  split; [exact Hr|]. split; [exact Hh|]. split; [exact Hd|].
  destruct (@generateCylinder_mesh referenceCollaborators 1 2 true true true false
              MeshGenerator_new Hr Hh Hd) as [mesh [E [V [T _]]]].
  exists mesh. split; [exact E|]. split; [exact V | exact T].
Defined.

(** A cone of non-negative radius and height at division number [n] has
    [n + 2] vertices and [n] triangles for the side and [n] for the bottom,
    when requested.  The ring is at [- height / 2] at distance [radius]
    from the axis, followed by the apex and the centre of the base. *)
Theorem generateCone_mesh {collaborators : Collaborators}
        (radius height : R) (bottom side tex : bool) (g : MeshGenerator) :
  (0 <= radius)%R -> (0 <= height)%R -> 0 <= divisionNumber g ->
  let n := divisionNumber g in
  exists mesh,
    result (generateCone radius height bottom side tex) g = Some mesh
    /\ size (vertices mesh) = n + 2
    /\ numTriangles mesh = n * ((if side then 1 else 0) + (if bottom then 1 else 0))
    /\ (forall i, 0 <= i < n ->
          let v := at_ Vector3_Zero (vertices mesh) i in
          vy v = (- (height / 2))%R
          /\ (vx v * vx v + vz v * vz v = radius * radius)%R)
    /\ at_ Vector3_Zero (vertices mesh) n = V3 0 (height / 2) 0
    /\ at_ Vector3_Zero (vertices mesh) (n + 1) = V3 0 (- (height / 2)) 0.
Proof.
  intros Hr Hh Hd n. unfold divisionNumber in Hd, n.
  destruct (@generateCone_accepts _ radius height bottom side tex g)
    as [mesh [E [V T]]]; [apply guard2_false; assumption|].
  exists mesh. split; [exact E|]. unfold numTriangles. rewrite V, T. clear E V T.
  fold n.
  assert (Hs : size (coneRing radius height n) = n) by (apply size_coneRing; lia).
  unfold coneVertices.
  split; [|split; [|split; [|split]]].
  - rewrite size_app, Hs. reflexivity.
  - apply size_coneTriangles. assumption.
  - intros i Hi. cbv zeta.
    rewrite (@at_app_l Vector3f) by (rewrite Hs; lia). unfold coneRing.
    rewrite at_map_range by lia. cbn [vx vy vz].
    split; [lra | apply on_circle].
  - rewrite (@at_app_r Vector3f) by (rewrite Hs; lia). rewrite Hs.
    replace (n - n) with 0 by lia.
    change (at_ Vector3_Zero [V3 0 (height / 2.0) 0; V3 0 (- height / 2.0) 0] 0)
      with (V3 0 (height / 2.0) 0).
    f_equal. lra.
  - rewrite (@at_app_r Vector3f) by (rewrite Hs; lia). rewrite Hs.
    replace (n + 1 - n) with 1 by lia.
    change (at_ Vector3_Zero [V3 0 (height / 2.0) 0; V3 0 (- height / 2.0) 0] 1)
      with (V3 0 (- height / 2.0) 0).
    f_equal. lra.
Qed.

Lemma generateCone_mesh_witness :
  (0 <= 1)%R /\ (0 <= 2)%R /\ 0 <= divisionNumber MeshGenerator_new
  /\ exists mesh,
       result (@generateCone referenceCollaborators 1 2 true true false)
              MeshGenerator_new = Some mesh
       /\ size (vertices mesh) = 22
       /\ numTriangles mesh = 40.
Proof.
  assert (Hr : (0 <= 1)%R) by lra.
  assert (Hh : (0 <= 2)%R) by lra.
  assert (Hd : 0 <= divisionNumber MeshGenerator_new) by (vm_compute; discriminate).
  split; [exact Hr|]. split; [exact Hh|]. split; [exact Hd|].
  destruct (@generateCone_mesh referenceCollaborators 1 2 true true false
              MeshGenerator_new Hr Hh Hd) as [mesh [E [V [T _]]]].
  exists mesh. split; [exact E|]. split; [exact V | exact T].
Defined.

(** ** Capsule *)

Lemma capsuleVdn_even (n : Z) : Z.rem (capsuleVdn n) 2 = 0.
Proof.
  unfold capsuleVdn. cbv zeta.
  destruct (Z.rem (Z.quot n 2) 2 =? 0) eqn:E; cbn [negb].
  - apply Z.eqb_eq, E.
  - apply Z.eqb_neq in E. revert E. generalize (Z.quot n 2). intros q E.
    Z.to_euclidean_division_equations. lia.
Qed.

Lemma size_capsuleTriangles (vdn hdn a b : Z) :
  1 <= vdn -> 0 <= hdn -> size (capsuleTriangles vdn hdn a b) = vdn * hdn * 2.
Proof.
  intros Hv Hh. unfold capsuleTriangles. cbv zeta.
  rewrite !size_app, !size_map, size_flat_map with (k := hdn * 2).
  - rewrite !size_range; lia.
  - intros i _. apply size_bandTriangles. assumption.
Qed.

Lemma squaredNorm_on_sphere (r tv th c : R) :
  squaredNorm (Vector3_sub (V3 (r * sin tv * cos th) (r * cos tv + c) (r * sin tv * sin th))
                           (V3 0 c 0))
  = (r * r)%R.
Proof.
  unfold squaredNorm, dot, Vector3_sub. cbn [vx vy vz].
  pose proof (sin2_cos2 tv) as H1. pose proof (sin2_cos2 th) as H2. unfold Rsqr in H1, H2.
  replace ((r * sin tv * cos th - 0) * (r * sin tv * cos th - 0)
           + (r * cos tv + c - c) * (r * cos tv + c - c)
           + (r * sin tv * sin th - 0) * (r * sin tv * sin th - 0))%R
    with (r * r * (sin tv * sin tv * (sin th * sin th + cos th * cos th)
                   + cos tv * cos tv))%R by ring.
  rewrite H2, Rmult_1_r, H1. ring.
Qed.

Lemma ratio_le_half (a b : Z) : 0 <= a -> 0 < b -> 2 * a <= b ->
  (0 <= IZR a * PI / IZR b <= PI / 2)%R.
Proof.
  intros Ha Hb Hab. pose proof PI_RGT_0 as Hpi.
  apply IZR_le in Ha, Hab. apply IZR_lt in Hb. rewrite mult_IZR in Hab.
  assert (Hq : (IZR a * PI / IZR b = PI * (IZR a / IZR b))%R) by (field; lra).
  rewrite Hq.
  assert (H0 : (0 <= IZR a / IZR b)%R) by (apply Rle_mult_inv_pos; lra).
  assert (H1 : (IZR a / IZR b <= 1 / 2)%R).
  { apply Rmult_le_reg_r with (IZR b); [lra|].
    replace (IZR a / IZR b * IZR b)%R with (IZR a) by (field; lra). lra. }
  split; nra.
Qed.

Lemma ratio_ge_half (a b : Z) : 0 < b -> b <= 2 * a -> a <= b ->
  (PI / 2 <= IZR a * PI / IZR b <= PI)%R.
Proof.
  intros Hb Hab Hle. pose proof PI_RGT_0 as Hpi.
  apply IZR_le in Hab, Hle. apply IZR_lt in Hb. rewrite mult_IZR in Hab.
  assert (Hq : (IZR a * PI / IZR b = PI * (IZR a / IZR b))%R) by (field; lra).
  rewrite Hq.
  assert (H0 : (IZR a / IZR b <= 1)%R).
  { apply Rmult_le_reg_r with (IZR b); [lra|].
    replace (IZR a / IZR b * IZR b)%R with (IZR a) by (field; lra). lra. }
  assert (H1 : (1 / 2 <= IZR a / IZR b)%R).
  { apply Rmult_le_reg_r with (IZR b); [lra|].
    replace (IZR a / IZR b * IZR b)%R with (IZR a) by (field; lra). lra. }
  split; nra.
Qed.

Lemma capsuleVertices_onCapsule (radius height : R) (n hdn : Z) :
  (0 <= radius)%R ->
  Forall (onCapsule radius height) (capsuleVertices radius height (capsuleVdn n) hdn).
Proof.
  intros Hr. pose proof (capsuleVdn_even n) as Heven.
  set (vdn := capsuleVdn n) in *.
  unfold capsuleVertices. apply Forall_app. split.
  - unfold capsuleRing. apply Forall_forall. intros v Hv.
    apply in_flat_map in Hv as [i [Hi Hv]]. apply in_range in Hi.
    apply in_map_iff in Hv as [j [<- _]].
    assert (Hq : 2 * Z.quot vdn 2 = vdn)
      by (Z.to_euclidean_division_equations; lia).
    destruct (i <=? Z.quot vdn 2) eqn:Ei.
    + apply Z.leb_le in Ei. left. split.
      * replace (height / 2.0)%R with (height / 2)%R by lra.
        apply squaredNorm_on_sphere.
      * cbn [vy].
        destruct (@ratio_le_half i vdn) as [H1 H2]; try lia.
        assert (0 <= cos (IZR i * PI / IZR vdn))%R by (apply cos_ge_0; lra).
        nra.
    + apply Z.leb_gt in Ei. right. split.
      * replace (- height / 2.0)%R with (- (height / 2))%R by lra.
        apply squaredNorm_on_sphere.
      * cbn [vy].
        destruct (@ratio_ge_half (i - 1) vdn) as [H1 H2]; try lia.
        pose proof PI_RGT_0 as Hpi.
        assert (cos (IZR (i - 1) * PI / IZR vdn) <= 0)%R by (apply cos_le_0; lra).
        nra.
  - apply Forall_cons; [|apply Forall_cons; [|apply Forall_nil]].
    + left. replace (height / 2.0)%R with (height / 2)%R by lra. split.
      * unfold squaredNorm, dot, Vector3_sub. cbn [vx vy vz]. field.
      * cbn [vy]. lra.
    + right. replace (height / 2.0)%R with (height / 2)%R by lra. split.
      * unfold squaredNorm, dot, Vector3_sub. cbn [vx vy vz]. field.
      * cbn [vy]. lra.
Qed.

(** Every vertex of a capsule of non-negative radius and height, at any
    division number, is at distance [radius] from the centre of one of the
    two caps and on the outer side of it: on the upper half of the top
    sphere or on the lower half of the bottom sphere. *)
Theorem capsule_vertices_on_caps {collaborators : Collaborators}
        (radius height : R) (g : MeshGenerator) :
  (0 <= radius)%R -> (0 <= height)%R ->
  exists mesh,
    result (generateCapsule radius height) g = Some mesh
    /\ Forall (onCapsule radius height) (vertices mesh).
Proof.
  intros Hr Hh.
  destruct (@generateCapsule_accepts _ radius height g)
    as [mesh [E [V T]]]; [apply guard2_false; assumption|].
  exists mesh. split; [exact E|]. rewrite V.
  apply capsuleVertices_onCapsule. assumption.
Qed.

Lemma capsule_vertices_on_caps_witness :
  (0 <= 1)%R /\ (0 <= 2)%R
  /\ exists mesh,
       result (@generateCapsule referenceCollaborators 1 2) MeshGenerator_new = Some mesh
       /\ Forall (onCapsule 1 2) (vertices mesh).
Proof.
  assert (Hr : (0 <= 1)%R) by lra.
  assert (Hh : (0 <= 2)%R) by lra.
  split; [exact Hr|]. split; [exact Hh|].
  exact (@capsule_vertices_on_caps referenceCollaborators 1 2 MeshGenerator_new Hr Hh).
Defined.

(** At a division number [n] of at least 2 a capsule has as many vertices
    and triangles as the generator reserves: [vdn * n + 2] vertices and
    [2 * vdn * n] triangles, where [vdn] is [n / 2] rounded up to the next
    even number. *)
Theorem capsule_counts {collaborators : Collaborators}
        (radius height : R) (g : MeshGenerator) :
  (0 <= radius)%R -> (0 <= height)%R -> 2 <= divisionNumber g ->
  let n := divisionNumber g in
  let vdn := Z.quot n 2 + Z.rem (Z.quot n 2) 2 in
  exists mesh,
    result (generateCapsule radius height) g = Some mesh
    /\ size (vertices mesh) = vdn * n + 2
    /\ numTriangles mesh = 2 * vdn * n.
Proof.
  intros Hr Hh Hd n vdn. unfold divisionNumber in Hd, n.
  destruct (@generateCapsule_accepts _ radius height g)
    as [mesh [E [V T]]]; [apply guard2_false; assumption|].
  exists mesh. split; [exact E|]. unfold numTriangles. rewrite V, T. clear E V T.
  fold n.
  assert (Hv : capsuleVdn n = vdn).
  { unfold capsuleVdn, vdn. cbv zeta.
    assert (1 <= Z.quot n 2) by (apply Z.quot_le_lower_bound; lia).
    destruct (Z.rem (Z.quot n 2) 2 =? 0) eqn:E; cbn [negb].
    - apply Z.eqb_eq in E. lia.
    - apply Z.eqb_neq in E.
      pose proof (Z.rem_bound_pos (Z.quot n 2) 2). lia. }
  rewrite Hv.
  assert (2 <= vdn) by (rewrite <- Hv; apply capsuleVdn_bounds; assumption).
  split.
  - unfold capsuleVertices. rewrite size_app, size_capsuleRing by lia. reflexivity.
  - rewrite size_capsuleTriangles by lia. lia.
Qed.

Lemma capsule_counts_witness :
  (0 <= 1)%R /\ (0 <= 2)%R /\ 2 <= divisionNumber MeshGenerator_new
  /\ exists mesh,
       result (@generateCapsule referenceCollaborators 1 2) MeshGenerator_new = Some mesh
       /\ size (vertices mesh) = 202
       /\ numTriangles mesh = 400.
Proof.
  assert (Hr : (0 <= 1)%R) by lra.
  assert (Hh : (0 <= 2)%R) by lra.
  assert (Hd : 2 <= divisionNumber MeshGenerator_new) by (vm_compute; discriminate).
  split; [exact Hr|]. split; [exact Hh|]. split; [exact Hd|].
  exact (@capsule_counts referenceCollaborators 1 2 MeshGenerator_new Hr Hh Hd).
Defined.

(** ** Disc *)

(** The disc generator returns no mesh exactly when the inner radius is
    not positive or the outer radius does not exceed the inner one. *)
Theorem generateDisc_null_iff (radius innerRadius : R) (g : MeshGenerator) :
  result (generateDisc radius innerRadius) g = None
  <-> (innerRadius <= 0 \/ radius <= innerRadius)%R.
Proof.
  destruct (Rleb innerRadius 0 || Rleb radius innerRadius) eqn:G.
  - split; [intros _|intros _].
    + apply orb_true_iff in G. destruct G as [G|G]; apply Rleb_true in G; tauto.
    + apply (@generateDisc_rejects radius innerRadius g), rejects_result in G. apply G.
  - split.
    + intros E. destruct (@generateDisc_accepts radius innerRadius g G) as [m [E' _]].
      rewrite E in E'. discriminate E'.
    + apply orb_false_iff in G. destruct G as [G1 G2].
      apply Rleb_false in G1, G2. lra.
Qed.

Lemma size_discTriangles (n : Z) : 0 <= n -> size (discTriangles n) = n * 2.
Proof.
  intros Hn. unfold discTriangles. rewrite size_flat_map with (k := 2).
  - rewrite size_range; lia.
  - reflexivity.
Qed.

Lemma size_discNormalIndices (n : Z) : 0 <= n -> size (discNormalIndices n) = n * 6.
Proof.
  intros Hn. unfold discNormalIndices. rewrite size_flat_map with (k := 6).
  - rewrite size_range; lia.
  - reflexivity.
Qed.

Lemma discNormalIndices_zero (n : Z) : Forall (fun k => k = 0) (discNormalIndices n).
Proof.
  unfold discNormalIndices. apply Forall_forall. intros k Hk.
  apply in_flat_map in Hk as [i [_ Hk]]. apply in_map_iff in Hk as [j [<- _]].
  reflexivity.
Qed.

Lemma squaredNorm_on_circle (r a : R) :
  squaredNorm (V3 (r * cos a) 0 (r * sin a)) = (r * r)%R.
Proof.
  unfold squaredNorm, dot. cbn [vx vy vz]. rewrite <- (on_circle r a). ring.
Qed.

Lemma discVertices_pair (radius innerRadius : R) (n i : Z) :
  0 <= i < n ->
  let inner := at_ Vector3_Zero (discVertices radius innerRadius n) (2 * i) in
  let outer := at_ Vector3_Zero (discVertices radius innerRadius n) (2 * i + 1) in
  vy inner = 0%R /\ vy outer = 0%R
  /\ squaredNorm inner = (innerRadius * innerRadius)%R
  /\ squaredNorm outer = (radius * radius)%R
  /\ (vx outer * innerRadius = vx inner * radius)%R
  /\ (vz outer * innerRadius = vz inner * radius)%R.
Proof.
  intros Hi. cbv zeta. unfold discVertices.
  replace (2 * i + 1) with ((i - 0) * 2 + 1) by lia.
  replace (2 * i) with ((i - 0) * 2 + 0) by lia.
  rewrite !at_flat_map_range by (try reflexivity; lia).
  set (a := (IZR i * 2.0 * PI / IZR n)%R).
  change (at_ Vector3_Zero [V3 (innerRadius * cos a) 0 (innerRadius * sin a);
                            V3 (radius * cos a) 0 (radius * sin a)] 0)
    with (V3 (innerRadius * cos a) 0 (innerRadius * sin a)).
  change (at_ Vector3_Zero [V3 (innerRadius * cos a) 0 (innerRadius * sin a);
                            V3 (radius * cos a) 0 (radius * sin a)] 1)
    with (V3 (radius * cos a) 0 (radius * sin a)).
  rewrite !squaredNorm_on_circle. cbn [vx vy vz].
  split; [reflexivity|]. split; [reflexivity|]. split; [reflexivity|].
  split; [reflexivity|]. split; ring.
Qed.

(** A disc with [0 < innerRadius < radius] at division number [n] has [2 n]
    vertices in the plane [y = 0], alternately on the inner and on the
    outer circle and in the same direction from the centre, and [2 n]
    triangles.  Its only normal is [+Z], which lies in the plane of the
    disc, and each of the [6 n] normal indices is 0.  The generator itself
    is left as it was: no normals are requested from the mesh filter. *)
Theorem generateDisc_mesh (radius innerRadius : R) (g : MeshGenerator) :
  (0 < innerRadius)%R -> (innerRadius < radius)%R -> 0 <= divisionNumber g ->
  let n := divisionNumber g in
  exists mesh,
    result (generateDisc radius innerRadius) g = Some mesh
    /\ after (generateDisc radius innerRadius) g = g
    /\ size (vertices mesh) = 2 * n
    /\ numTriangles mesh = 2 * n
    /\ normals mesh = [V3 0 0 1]
    /\ size (normalIndices mesh) = 3 * numTriangles mesh
    /\ Forall (fun k => k = 0) (normalIndices mesh)
    /\ (forall i, 0 <= i < n ->
          let inner := at_ Vector3_Zero (vertices mesh) (2 * i) in
          let outer := at_ Vector3_Zero (vertices mesh) (2 * i + 1) in
          vy inner = 0%R /\ vy outer = 0%R
          /\ squaredNorm inner = (innerRadius * innerRadius)%R
          /\ squaredNorm outer = (radius * radius)%R
          /\ (vx outer * innerRadius = vx inner * radius)%R
          /\ (vz outer * innerRadius = vz inner * radius)%R).
Proof.
  intros Hi Hr Hd n. unfold divisionNumber in Hd, n.
  assert (G : Rleb innerRadius 0 || Rleb radius innerRadius = false).
  { apply orb_false_iff. split; apply Rleb_false; lra. }
  unfold result, after, generateDisc. run_gen. rewrite G. cbv zeta. run_gen.
  fold n. eexists. split; [reflexivity|].
  unfold updateBoundingBoxIfEnabled, numTriangles. cbn [fst snd].
  split; [reflexivity|].
  destruct (isBoundingBoxUpdateEnabled_ g);
    cbn [updateBoundingBox addTriangles setNormals setVertices newMesh
         vertices triangles normals normalIndices app];
    (split; [rewrite size_discVertices by lia; lia|]);
    (split; [rewrite size_discTriangles by lia; lia|]);
    (split; [reflexivity|]);
    (split; [rewrite size_discNormalIndices, size_discTriangles by lia; lia|]);
    (split; [apply discNormalIndices_zero|]);
    intros i Hin; apply discVertices_pair; assumption.
Qed.

Lemma generateDisc_mesh_witness :
  (0 < 1)%R /\ (1 < 2)%R /\ 0 <= divisionNumber MeshGenerator_new
  /\ exists mesh,
       result (generateDisc 2 1) MeshGenerator_new = Some mesh
       /\ size (vertices mesh) = 40
       /\ normals mesh = [V3 0 0 1].
Proof.
  assert (Hi : (0 < 1)%R) by lra.
  assert (Hr : (1 < 2)%R) by lra.
  assert (Hd : 0 <= divisionNumber MeshGenerator_new) by (vm_compute; discriminate).
  split; [exact Hi|]. split; [exact Hr|]. split; [exact Hd|].
  destruct (@generateDisc_mesh 2 1 MeshGenerator_new Hi Hr Hd)
    as [mesh [E [_ [V [_ [N _]]]]]].
  exists mesh. split; [exact E|]. split; [exact V | exact N].
Defined.

(** ** Torus *)



(** ** Elevation grid *)

Lemma at_elevationGridVertices (grid : ElevationGrid.t) (x z : Z) :
  0 <= x < ElevationGrid.xDimension grid ->
  0 <= z < ElevationGrid.zDimension grid ->
  at_ Vector3_Zero (elevationGridVertices grid) (z * ElevationGrid.xDimension grid + x)
  = V3 (IZR x * ElevationGrid.xSpacing grid)
       (at_ 0%R (ElevationGrid.height grid) (z * ElevationGrid.xDimension grid + x))
       (IZR z * ElevationGrid.zSpacing grid).
Proof.
  intros Hx Hz. unfold elevationGridVertices.
  replace (z * ElevationGrid.xDimension grid + x)
    with ((z - 0) * ElevationGrid.xDimension grid + x) at 1 by lia.
  rewrite at_flat_map_range; try lia.
  - rewrite at_map_range by lia. reflexivity.
  - intros a _. rewrite size_map, size_range; lia.
Qed.

(** A grid whose height array has [xDimension * zDimension] entries is
    stored row by row: the vertex of column [x] and row [z] is at index
    [z * xDimension + x], at [(x * xSpacing, height, z * zSpacing)] with the
    height taken from the same index of the height array. *)
Theorem elevation_grid_layout {collaborators : Collaborators}
        (grid : ElevationGrid.t) (tex : bool) (g : MeshGenerator) :
  ElevationGrid.xDimension grid * ElevationGrid.zDimension grid
  = size (ElevationGrid.height grid) ->
  0 <= ElevationGrid.xDimension grid -> 0 <= ElevationGrid.zDimension grid ->
  exists mesh,
    result (generateElevationGrid grid tex) g = Some mesh
    /\ size (vertices mesh) = size (ElevationGrid.height grid)
    /\ forall x z,
         0 <= x < ElevationGrid.xDimension grid ->
         0 <= z < ElevationGrid.zDimension grid ->
         let i := z * ElevationGrid.xDimension grid + x in
         at_ Vector3_Zero (vertices mesh) i
         = V3 (IZR x * ElevationGrid.xSpacing grid)
              (at_ 0%R (ElevationGrid.height grid) i)
              (IZR z * ElevationGrid.zSpacing grid).
Proof.
  intros Hs Hx Hz.
  destruct (@generateElevationGrid_accepts _ grid tex g Hs) as [mesh [E [V _]]].
  exists mesh. split; [exact E|]. rewrite V. split.
  - rewrite size_elevationGridVertices by assumption. lia.
  - intros x z Hx' Hz'. apply at_elevationGridVertices; assumption.
Qed.

Lemma elevation_grid_layout_witness :
  2 * 1 = size (ElevationGrid.height (ElevationGrid.mk 2 1 1 1 [5%R; 7%R] true 0))
  /\ 0 <= 2 /\ 0 <= 1
  /\ exists mesh,
       result (@generateElevationGrid referenceCollaborators
                 (ElevationGrid.mk 2 1 1 1 [5%R; 7%R] true 0) false)
              MeshGenerator_new = Some mesh
       /\ size (vertices mesh) = 2.
Proof.
  assert (Hs : ElevationGrid.xDimension (ElevationGrid.mk 2 1 1 1 [5%R; 7%R] true 0)
               * ElevationGrid.zDimension (ElevationGrid.mk 2 1 1 1 [5%R; 7%R] true 0)
               = size (ElevationGrid.height (ElevationGrid.mk 2 1 1 1 [5%R; 7%R] true 0)))
    by reflexivity.
  assert (Hx : 0 <= ElevationGrid.xDimension (ElevationGrid.mk 2 1 1 1 [5%R; 7%R] true 0))
    by (cbn; lia).
  assert (Hz : 0 <= ElevationGrid.zDimension (ElevationGrid.mk 2 1 1 1 [5%R; 7%R] true 0))
    by (cbn; lia).
  split; [exact Hs|]. split; [exact Hx|]. split; [exact Hz|].
  destruct (@elevation_grid_layout referenceCollaborators
              (ElevationGrid.mk 2 1 1 1 [5%R; 7%R] true 0) false MeshGenerator_new Hs Hx Hz)
    as [mesh [E [V _]]].
  exists mesh. split; [exact E | exact V].
Defined.

Lemma ratio_unit (a b : Z) : 0 <= a <= b -> 0 < b -> (0 <= IZR a / IZR b <= 1)%R.
Proof.
  intros [H0 H1] Hb. apply IZR_le in H0, H1. apply IZR_lt in Hb.
  split.
  - apply Rle_mult_inv_pos; lra.
  - apply Rmult_le_reg_r with (IZR b); [lra|].
    replace (IZR a / IZR b * IZR b)%R with (IZR a) by (field; lra). lra.
Qed.

(** The texture of an elevation grid with at least two rows and two
    columns and non-zero spacings maps the grid linearly onto the unit
    square: the texture coordinate of column [x] and row [z] is
    [(x / (xDimension - 1), z / (zDimension - 1))], and the texture indices
    are the vertex indices of the triangles. *)
Theorem elevation_grid_texture {collaborators : Collaborators}
        (grid : ElevationGrid.t) (g : MeshGenerator) :
  ElevationGrid.xDimension grid * ElevationGrid.zDimension grid
  = size (ElevationGrid.height grid) ->
  2 <= ElevationGrid.xDimension grid -> 2 <= ElevationGrid.zDimension grid ->
  ElevationGrid.xSpacing grid <> 0%R -> ElevationGrid.zSpacing grid <> 0%R ->
  exists mesh,
    result (generateElevationGrid grid true) g = Some mesh
    /\ size (texCoords mesh) = size (vertices mesh)
    /\ texCoordIndices mesh = triangleVertices mesh
    /\ forall x z,
         0 <= x < ElevationGrid.xDimension grid ->
         0 <= z < ElevationGrid.zDimension grid ->
         let p := at_ (V2 0 0) (texCoords mesh) (z * ElevationGrid.xDimension grid + x) in
         p = V2 (IZR x / IZR (ElevationGrid.xDimension grid - 1))
                (IZR z / IZR (ElevationGrid.zDimension grid - 1))
         /\ inUnitSquare p.
Proof.
  intros Hs Hx Hz Hxs Hzs.
  apply Z.eqb_eq in Hs.
  unfold result, generateElevationGrid. rewrite Hs. cbn [negb]. cbv zeta. run_gen.
  eexists. split; [reflexivity|].
  unfold updateBoundingBoxIfEnabled, generateTextureCoordinateForElevationGrid.
  cbn [fst]. cbv zeta.
  set (m := fst (generateNormals _ _ g)).
  assert (V : vertices m = elevationGridVertices grid) by (unfold m; geometry).
  assert (G : forall x z,
             0 <= x < ElevationGrid.xDimension grid ->
             0 <= z < ElevationGrid.zDimension grid ->
             let p := at_ (V2 0 0)
                          (map (fun v => V2 (vx v / (ElevationGrid.xSpacing grid
                                                     * IZR (ElevationGrid.xDimension grid - 1)))
                                            (vz v / (ElevationGrid.zSpacing grid
                                                     * IZR (ElevationGrid.zDimension grid - 1))))
                               (vertices m))
                          (z * ElevationGrid.xDimension grid + x) in
             p = V2 (IZR x / IZR (ElevationGrid.xDimension grid - 1))
                    (IZR z / IZR (ElevationGrid.zDimension grid - 1))
             /\ inUnitSquare p).
  { intros x z Hx' Hz'. cbv zeta. rewrite V.
    rewrite at_map with (da := Vector3_Zero)
      by (rewrite size_elevationGridVertices by lia; nia).
    rewrite at_elevationGridVertices by assumption. cbn [vx vz].
    assert (Hdx : IZR (ElevationGrid.xDimension grid - 1) <> 0%R)
      by (apply not_0_IZR; lia).
    assert (Hdz : IZR (ElevationGrid.zDimension grid - 1) <> 0%R)
      by (apply not_0_IZR; lia).
    replace (IZR x * ElevationGrid.xSpacing grid
             / (ElevationGrid.xSpacing grid * IZR (ElevationGrid.xDimension grid - 1)))%R
      with (IZR x / IZR (ElevationGrid.xDimension grid - 1))%R by (field; tauto).
    replace (IZR z * ElevationGrid.zSpacing grid
             / (ElevationGrid.zSpacing grid * IZR (ElevationGrid.zDimension grid - 1)))%R
      with (IZR z / IZR (ElevationGrid.zDimension grid - 1))%R by (field; tauto).
    split; [reflexivity|].
    split; cbn [ux uy]; apply ratio_unit; lia. }
  destruct (isBoundingBoxUpdateEnabled_ _);
    cbn [updateBoundingBox setTexCoords texCoords texCoordIndices vertices triangleVertices
         triangles];
    (split; [apply size_map|]); (split; [reflexivity|]); exact G.
Qed.

Lemma elevation_grid_texture_witness :
  2 * 2 = size (ElevationGrid.height (ElevationGrid.mk 2 2 1 1 [0; 1; 2; 3]%R true 0))
  /\ 2 <= 2 /\ 1%R <> 0%R
  /\ exists mesh,
       result (@generateElevationGrid referenceCollaborators
                 (ElevationGrid.mk 2 2 1 1 [0; 1; 2; 3]%R true 0) true)
              MeshGenerator_new = Some mesh
       /\ size (texCoords mesh) = size (vertices mesh).
Proof.
  set (grid := ElevationGrid.mk 2 2 1 1 [0; 1; 2; 3]%R true 0).
  assert (Hs : ElevationGrid.xDimension grid * ElevationGrid.zDimension grid
               = size (ElevationGrid.height grid)) by reflexivity.
  assert (Hx : 2 <= ElevationGrid.xDimension grid) by (cbn; lia).
  assert (Hz : 2 <= ElevationGrid.zDimension grid) by (cbn; lia).
  assert (Hxs : ElevationGrid.xSpacing grid <> 0%R) by (cbn; lra).
  assert (Hzs : ElevationGrid.zSpacing grid <> 0%R) by (cbn; lra).
  split; [exact Hs|]. split; [exact Hx|]. split; [exact Hxs|].
  destruct (@elevation_grid_texture referenceCollaborators grid MeshGenerator_new
              Hs Hx Hz Hxs Hzs) as [mesh [E [V _]]].
  exists mesh. split; [exact E | exact V].
Defined.
(** ** Configuration and normal generation *)

Lemma generateNormals_keeps_enabled {collaborators : Collaborators}
      (m : SgMesh) (a : R) (g : MeshGenerator) :
  isNormalGenerationEnabled_ (snd (generateNormals m a g)) = isNormalGenerationEnabled_ g.
Proof.
  unfold generateNormals. destruct (isNormalGenerationEnabled_ g) eqn:E; [|exact E].
  destruct (MeshFilter_generateNormals m a). reflexivity.
Qed.

Lemma generateNormals_result_ext {collaborators : Collaborators}
      (m : SgMesh) (a : R) (g g' : MeshGenerator) :
  isNormalGenerationEnabled_ g = isNormalGenerationEnabled_ g' ->
  fst (generateNormals m a g) = fst (generateNormals m a g').
Proof.
  intros H. unfold generateNormals. rewrite H.
  destruct (isNormalGenerationEnabled_ g'); [|reflexivity].
  destruct (MeshFilter_generateNormals m a). reflexivity.
Qed.

(** The result of a generation call depends on the generator through its
    three settings only. *)
Lemma generate_result_ext {collaborators : Collaborators}
      (s : Shape) (g g' : MeshGenerator) :
  isNormalGenerationEnabled_ g = isNormalGenerationEnabled_ g' ->
  isBoundingBoxUpdateEnabled_ g = isBoundingBoxUpdateEnabled_ g' ->
  divisionNumber_ g = divisionNumber_ g' ->
  result (generate s) g = result (generate s) g'.
Proof.
  intros Hn Hb Hd.
  destruct s as [sz tex|r tex|r h b t sd tex|r h b sd tex|r h|r ir|r c ba ea|grid tex|e tex];
    cbn [generate]; unfold result.
  - unfold generateBox. destruct (_ || _); [reflexivity|].
    cbv zeta. run_gen. unfold updateBoundingBoxIfEnabled. cbn [fst snd].
    rewrite Hb. erewrite generateNormals_result_ext by exact Hn. reflexivity.
  - unfold generateSphere. run_gen. rewrite Hd. destruct (_ || _); [reflexivity|].
    cbv zeta. run_gen. unfold updateBoundingBoxIfEnabled. cbn [fst snd].
    rewrite Hb. erewrite generateNormals_result_ext by exact Hn. reflexivity.
  - unfold generateCylinder. run_gen. rewrite Hd. destruct (_ || _); [reflexivity|].
    cbv zeta. run_gen. unfold updateBoundingBoxIfEnabled. cbn [fst snd].
    rewrite Hb. erewrite generateNormals_result_ext by exact Hn. reflexivity.
  - unfold generateCone. run_gen. rewrite Hd. destruct (_ || _); [reflexivity|].
    cbv zeta. run_gen. unfold updateBoundingBoxIfEnabled. cbn [fst snd].
    rewrite Hb. erewrite generateNormals_result_ext by exact Hn. reflexivity.
  - unfold generateCapsule. run_gen. rewrite Hd. destruct (_ || _); [reflexivity|].
    cbv zeta. run_gen. unfold updateBoundingBoxIfEnabled. cbn [fst snd].
    rewrite Hb. erewrite generateNormals_result_ext by exact Hn. reflexivity.
  - unfold generateDisc. run_gen. rewrite Hd. destruct (_ || _); [reflexivity|].
    cbv zeta. run_gen. unfold updateBoundingBoxIfEnabled. cbn [fst snd].
    rewrite Hb. reflexivity.
  - unfold generateTorus4. run_gen. rewrite Hd.
    cbv zeta. run_gen. unfold updateBoundingBoxIfEnabled. cbn [fst snd].
    rewrite Hb. erewrite generateNormals_result_ext by exact Hn. reflexivity.
  - unfold generateElevationGrid. destruct (negb _); [reflexivity|].
    cbv zeta. run_gen. unfold updateBoundingBoxIfEnabled. cbn [fst snd].
    pose proof (proj1 (generateNormals_flags
                         (addTriangles (elevationGridTriangles grid)
                            (setVertices (elevationGridVertices grid) newMesh))
                         (ElevationGrid.creaseAngle grid) g)) as F.
    pose proof (proj1 (generateNormals_flags
                         (addTriangles (elevationGridTriangles grid)
                            (setVertices (elevationGridVertices grid) newMesh))
                         (ElevationGrid.creaseAngle grid) g')) as F'.
    rewrite F, F', Hb. erewrite generateNormals_result_ext by exact Hn. reflexivity.
  - unfold generateExtrusion. cbv zeta.
    destruct (_ || _); [reflexivity|].
    destruct (_ || _); [reflexivity|].
    run_gen. unfold updateBoundingBoxIfEnabled. cbn [fst snd].
    rewrite Hb. erewrite generateNormals_result_ext by exact Hn. reflexivity.
Qed.

Lemma generate_keeps_enabled {collaborators : Collaborators} (s : Shape) (g : MeshGenerator) :
  isNormalGenerationEnabled_ (after (generate s) g) = isNormalGenerationEnabled_ g.
Proof.
  pose proof (generate_after s g) as H.
  destruct (result (generate s) g), (creaseAngleOf s); try (rewrite H; reflexivity).
  destruct H as [m ->]. apply generateNormals_keeps_enabled.
Qed.

(** No generation call changes a setting of the generator: normal
    generation, bounding box update and the division number are after the
    call what they were before it, whether a mesh was returned or not. *)
Theorem generation_keeps_settings {collaborators : Collaborators}
        (s : Shape) (g : MeshGenerator) :
  let g' := after (generate s) g in
  isNormalGenerationEnabled_ g' = isNormalGenerationEnabled_ g
  /\ isBoundingBoxUpdateEnabled_ g' = isBoundingBoxUpdateEnabled_ g
  /\ divisionNumber g' = divisionNumber g.
Proof.
  cbv zeta. split; [apply generate_keeps_enabled|]. apply generate_configuration.
Qed.

(** The division number of a generator is never negative, whatever
    sequence of setter and generation calls it has been through: a
    negative argument of [setDivisionNumber] selects the default 20. *)
Theorem division_number_never_negative {collaborators : Collaborators}
        (g : MeshGenerator) :
  used g -> 0 <= divisionNumber g.
Proof.
  unfold divisionNumber. induction 1; cbn; try assumption.
  - discriminate.
  - destruct (n <? 0) eqn:E; [discriminate | apply Z.ltb_ge, E].
  - rewrite (proj2 (generate_configuration s g)). assumption.
Qed.

Lemma division_number_never_negative_witness :
  @used referenceCollaborators
        (after (@generate referenceCollaborators (SphereShape 1 false))
               (setDivisionNumber (-3) MeshGenerator_new))
  /\ 0 <= divisionNumber
            (after (@generate referenceCollaborators (SphereShape 1 false))
                   (setDivisionNumber (-3) MeshGenerator_new)).
Proof.
  assert (U : @used referenceCollaborators
                (after (@generate referenceCollaborators (SphereShape 1 false))
                       (setDivisionNumber (-3) MeshGenerator_new)))
    by (apply used_generate, used_setDivisionNumber, used_new).
  split; [exact U|].
  exact (@division_number_never_negative referenceCollaborators _ U).
Defined.

(** A generator can be reused: the vertices, triangles, texture arrays,
    primitive and bounding box generated for a shape are the same after
    any earlier generation call as before it. *)
Theorem generation_repeatable {collaborators : Collaborators}
        (s earlier : Shape) (g : MeshGenerator) :
  option_map geometryOf (result (generate s) (after (generate earlier) g))
  = option_map geometryOf (result (generate s) g).
Proof.
  f_equal. apply generate_result_ext.
  - apply generate_keeps_enabled.
  - apply generate_configuration.
  - apply generate_configuration.
Qed.

Lemma textureExtrusion_normals (m : SgMesh) (cs : list Vector2) (sp : list Vector3)
      (nb ne idx : Z) :
  normals (generateTextureCoordinateForExtrusion m cs sp nb ne idx) = normals m
  /\ normalIndices (generateTextureCoordinateForExtrusion m cs sp nb ne idx)
     = normalIndices m.
Proof.
  unfold generateTextureCoordinateForExtrusion. cbv zeta.
  destruct (nb + ne =? 0); [split; reflexivity|].
  destruct (negb (nb =? 0)), (negb (ne =? 0)); split; reflexivity.
Qed.

(** With normal generation disabled a generation call leaves the generator
    exactly as it was (no mesh filter is created) and the mesh it returns
    has no normals and no normal indices; the one exception is the disc,
    which sets its single normal itself. *)
Theorem disabled_normals {collaborators : Collaborators}
        (s : Shape) (g : MeshGenerator) (mesh : SgMesh) :
  isNormalGenerationEnabled_ g = false ->
  result (generate s) g = Some mesh ->
  after (generate s) g = g
  /\ match s with
     | DiscShape _ _ => normals mesh = [V3 0 0 1]
     | _ => normals mesh = [] /\ normalIndices mesh = []
     end.
Proof.
  intros Hn E. split.
  - pose proof (generate_after s g) as H. rewrite E in H.
    destruct (creaseAngleOf s); [|exact H].
    destruct H as [m ->]. rewrite generateNormals_disabled by exact Hn. reflexivity.
  - revert E.
    destruct s as [sz tex|r tex|r h b t sd tex|r h b sd tex|r h|r ir|r c ba ea|grid tex|e tex];
      cbn [generate]; unfold result.
    + unfold generateBox. destruct (_ || _); [discriminate|].
      cbv zeta. run_gen. unfold updateBoundingBoxIfEnabled. cbn [fst snd].
      rewrite generateNormals_disabled by exact Hn. cbn [fst].
      intros E. injection E as <-.
      destruct tex, (isBoundingBoxUpdateEnabled_ g); split; reflexivity.
    + unfold generateSphere. run_gen. destruct (_ || _); [discriminate|].
      cbv zeta. run_gen. unfold updateBoundingBoxIfEnabled. cbn [fst snd].
      rewrite generateNormals_disabled by exact Hn. cbn [fst].
      intros E. injection E as <-.
      destruct tex, (isBoundingBoxUpdateEnabled_ g); split; reflexivity.
    + unfold generateCylinder. run_gen. destruct (_ || _); [discriminate|].
      cbv zeta. run_gen. unfold updateBoundingBoxIfEnabled. cbn [fst snd].
      rewrite generateNormals_disabled by exact Hn. cbn [fst].
      intros E. injection E as <-.
      destruct tex, (isBoundingBoxUpdateEnabled_ g); split; reflexivity.
    + unfold generateCone. run_gen. destruct (_ || _); [discriminate|].
      cbv zeta. run_gen. unfold updateBoundingBoxIfEnabled. cbn [fst snd].
      rewrite generateNormals_disabled by exact Hn. cbn [fst].
      intros E. injection E as <-.
      destruct tex, (isBoundingBoxUpdateEnabled_ g); split; reflexivity.
    + unfold generateCapsule. run_gen. destruct (_ || _); [discriminate|].
      cbv zeta. run_gen. unfold updateBoundingBoxIfEnabled. cbn [fst snd].
      rewrite generateNormals_disabled by exact Hn. cbn [fst].
      intros E. injection E as <-.
      destruct (isBoundingBoxUpdateEnabled_ g); split; reflexivity.
    + unfold generateDisc. run_gen. destruct (_ || _); [discriminate|].
      cbv zeta. run_gen. unfold updateBoundingBoxIfEnabled. cbn [fst snd].
      intros E. injection E as <-.
      destruct (isBoundingBoxUpdateEnabled_ g); reflexivity.
    + unfold generateTorus4. run_gen.
      cbv zeta. run_gen. unfold updateBoundingBoxIfEnabled. cbn [fst snd].
      rewrite generateNormals_disabled by exact Hn. cbn [fst].
      intros E. injection E as <-.
      destruct (isBoundingBoxUpdateEnabled_ g); split; reflexivity.
    + unfold generateElevationGrid. destruct (negb _); [discriminate|].
      cbv zeta. run_gen. unfold updateBoundingBoxIfEnabled. cbn [fst snd].
      rewrite generateNormals_disabled by exact Hn. cbn [fst snd].
      intros E. injection E as <-.
      destruct tex, (isBoundingBoxUpdateEnabled_ g); split; reflexivity.
    + unfold generateExtrusion. cbv zeta.
      destruct (_ || _); [discriminate|].
      destruct (_ || _); [discriminate|].
      run_gen. unfold updateBoundingBoxIfEnabled. cbn [fst snd].
      rewrite generateNormals_disabled by exact Hn. cbn [fst].
      intros E. injection E as <-.
      destruct tex; [rewrite (proj1 (textureExtrusion_normals _ _ _ _ _ _)),
                       (proj2 (textureExtrusion_normals _ _ _ _ _ _))|];
        destruct (isBoundingBoxUpdateEnabled_ g); split; reflexivity.
Qed.

Lemma disabled_normals_witness :
  isNormalGenerationEnabled_ (setNormalGenerationEnabled false MeshGenerator_new) = false
  /\ exists mesh,
       result (@generate referenceCollaborators (BoxShape (V3 1 1 1) false))
              (setNormalGenerationEnabled false MeshGenerator_new) = Some mesh
       /\ after (@generate referenceCollaborators (BoxShape (V3 1 1 1) false))
                (setNormalGenerationEnabled false MeshGenerator_new)
          = setNormalGenerationEnabled false MeshGenerator_new
       /\ normals mesh = [].
Proof.
  assert (Hn : isNormalGenerationEnabled_ (setNormalGenerationEnabled false MeshGenerator_new)
               = false) by reflexivity.
  split; [exact Hn|].
  destruct (@generateBox_accepts referenceCollaborators (V3 1 1 1) false
              (setNormalGenerationEnabled false MeshGenerator_new))
    as [mesh [E _]]; [apply guard3_false; cbn; lra|].
  exists mesh. split; [exact E|].
  destruct (@disabled_normals referenceCollaborators (BoxShape (V3 1 1 1) false)
              (setNormalGenerationEnabled false MeshGenerator_new) mesh Hn E) as [A [N _]].
  split; [exact A | exact N].
Defined.

(** ** Extrusion *)

(** What a successful extrusion call has checked and built. *)
Lemma generateExtrusion_returned {collaborators : Collaborators}
      (e : Extrusion.t) (tex : bool) (g : MeshGenerator) (mesh : SgMesh) :
  result (generateExtrusion e tex) g = Some mesh ->
  (2 <= size (Extrusion.spine e) /\ 2 <= size (Extrusion.crossSection e)
   /\ 2 <= spineSize e /\ 2 <= crossSectionSize e)
  /\ vertices mesh = extrusionVertices e (spineSize e) (crossSectionSize e) (isClosed e)
  /\ triangles mesh
     = (sideTriangles e ++ capTriangles false (beginPolygon e) (beginCapOutput e))
       ++ capTriangles true (endPolygon e) (endCapOutput e).
Proof.
  intros E.
  destruct (Z_lt_le_dec (size (Extrusion.spine e)) 2) as [H1|H1];
    [|destruct (Z_lt_le_dec (size (Extrusion.crossSection e)) 2) as [H2|H2];
      [|destruct (Z_lt_le_dec (spineSize e) 2) as [H3|H3];
        [|destruct (Z_lt_le_dec (crossSectionSize e) 2) as [H4|H4]]]].
  5: { destruct (@generateExtrusion_accepts _ e tex g H1 H2 H3 H4) as [m [E' [V T]]].
       rewrite E in E'. injection E' as <-. tauto. }
  all: assert (R : rejects (generateExtrusion e tex) g)
    by (apply generateExtrusion_rejects; tauto);
    apply rejects_result in R; rewrite (proj1 R) in E; discriminate E.
Qed.


(** The side of an extrusion has two triangles per pair of consecutive
    spine points and consecutive cross-section points, counted in the
    points as given: closing the spine or the cross-section removes a ring or
    a column of vertices but no triangle.  Cap triangles follow the side
    triangles, and there are none when the spine is closed, whatever the
    cap flags, or when both flags are off. *)
Theorem extrusion_triangle_counts {collaborators : Collaborators}
        (e : Extrusion.t) (tex : bool) (g : MeshGenerator) (mesh : SgMesh) :
  result (generateExtrusion e tex) g = Some mesh ->
  size (sideTriangles e)
  = 2 * (size (Extrusion.spine e) - 1) * (size (Extrusion.crossSection e) - 1)
  /\ exists caps,
       triangles mesh = sideTriangles e ++ caps
       /\ (isClosed e = true -> caps = [])
       /\ (Extrusion.beginCap e = false -> Extrusion.endCap e = false -> caps = []).
Proof.
  intros E. destruct (generateExtrusion_returned _ _ _ E) as [[H1 [H2 [H3 H4]]] [_ T]].
  split.
  - unfold sideTriangles. rewrite size_extrusionSideTriangles.
    + unfold spineSize, crossSectionSize.
      destruct (isClosed e), (isCrossSectionClosed e); lia.
    + destruct (isClosed e); lia.
    + destruct (isCrossSectionClosed e); lia.
  - exists (capTriangles false (beginPolygon e) (beginCapOutput e)
            ++ capTriangles true (endPolygon e) (endCapOutput e)).
    split; [rewrite T; symmetry; apply app_assoc|]. split.
    + intros C. unfold beginCapOutput, endCapOutput. rewrite C.
      rewrite !andb_false_r. reflexivity.
    + intros B N. unfold beginCapOutput, endCapOutput. rewrite B, N. reflexivity.
Qed.

Lemma extrusion_triangle_counts_witness :
  exists mesh,
    result (@generateExtrusion referenceCollaborators
              (Extrusion.mk [V2 0 0; V2 1 0; V2 0 1] [V3 0 0 0; V3 0 1 0] [] [] 0 false false)
              false)
           MeshGenerator_new = Some mesh
    /\ size (sideTriangles
               (Extrusion.mk [V2 0 0; V2 1 0; V2 0 1] [V3 0 0 0; V3 0 1 0] [] [] 0 false false))
       = 4.
Proof.
  set (e := Extrusion.mk [V2 0 0; V2 1 0; V2 0 1] [V3 0 0 0; V3 0 1 0] [] [] 0 false false).
  assert (C : isClosed e = false).
  { change (isClosed e) with (Vector3_eqb (V3 0 0 0) (V3 0 1 0)).
    unfold Vector3_eqb. cbn [vx vy vz].
    replace (Reqb 0 1) with false by (symmetry; apply Reqb_false; lra).
    rewrite andb_false_r. reflexivity. }
  assert (D : isCrossSectionClosed e = false).
  { change (isCrossSectionClosed e) with (Vector2_eqb (V2 0 0) (V2 0 1)).
    unfold Vector2_eqb. cbn [ux uy].
    replace (Reqb 0 1) with false by (symmetry; apply Reqb_false; lra).
    rewrite andb_false_r. reflexivity. }
  destruct (@generateExtrusion_accepts referenceCollaborators e false MeshGenerator_new)
    as [mesh [E _]].
  - cbn. lia.
  - cbn. lia.
  - unfold spineSize. rewrite C. cbn. lia.
  - unfold crossSectionSize. rewrite D. cbn. lia.
  - exists mesh. split; [exact E|].
    exact (proj1 (@extrusion_triangle_counts referenceCollaborators e false
                    MeshGenerator_new mesh E)).
Defined.











(** ** A straight extrusion *)

Lemma toRotationMatrix_angle_0 (a : Vector3) :
  toRotationMatrix (mkAngleAxis 0 a) = M3 (V3 1 0 0) (V3 0 1 0) (V3 0 0 1).
Proof.
  unfold toRotationMatrix, Vector3_scale. cbn [angle axis vx vy vz].
  rewrite sin_0, cos_0. f_equal; f_equal; ring.
Qed.

Lemma normalized_up (h : R) : (0 < h)%R -> normalized (V3 0 h 0) = V3 0 1 0.
Proof.
  intros Hh. unfold normalized, squaredNorm, dot. cbn [vx vy vz].
  replace (0 * 0 + h * h + 0 * 0)%R with (h * h)%R by ring.
  replace (Rltb 0 (h * h)) with true by (symmetry; apply Rltb_true; nra).
  rewrite sqrt_square by lra. unfold Vector3_scale. cbn [vx vy vz].
  f_equal; field; lra.
Qed.

Lemma identity_apply (v : Vector3) :
  Matrix3_apply (Matrix3_mul (M3 (V3 1 0 0) (V3 0 1 0) (V3 0 0 1))
                             (M3 (V3 1 0 0) (V3 0 1 0) (V3 0 0 1))) v = v.
Proof.
  destruct v as [x y z].
  unfold Matrix3_apply, Matrix3_mul, fromColumns, column0, column1, column2, dot.
  unfold Matrix3_apply, dot. cbn [row0 row1 row2 vx vy vz]. f_equal; ring.
Qed.

Lemma extrusionRing_upright (cs : list Vector2) (p : Vector3) (h a : R) (bc ec : bool)
      (n i : Z) (vs : list Vector3f) (zs : list Vector3) :
  (0 < h)%R -> 0 <= i < 2 ->
  let e := upright cs p h a bc ec in
  extrusionRing e n (spineAxes (Extrusion.spine e) 2 false) (vs, zs) i
  = (vs ++ map (fun j =>
                  let c := at_ (V2 0 0) cs j in
                  V3 (ux c + vx p) (if i =? 0 then vy p else vy p + h)%R (uy c + vz p))
               (range 0 n),
     zs).
Proof.
  intros Hh Hi e. unfold extrusionRing, spineAxes, e, upright.
  cbn [Extrusion.spine Extrusion.scale Extrusion.orientation Extrusion.crossSection
       Yaxisarray definedZaxis Zaxisarray Z.ltb Z.compare Pos.compare Pos.compare_cont].
  change (2 <? 2) with false. cbv iota.
  cbn [Yaxisarray definedZaxis Zaxisarray].
  change (-1 =? -1) with true. cbv iota.
  change (size (@nil Vector2)) with 0. change (size (@nil AngleAxis)) with 0.
  change (0 =? 1) with false. change (1 <? 0) with false. cbv iota.
  assert (Y : Vector3_sub (at_ Vector3_Zero [p; V3 (vx p) (vy p + h) (vz p)] 1)
                          (at_ Vector3_Zero [p; V3 (vx p) (vy p + h) (vz p)] 0)
              = V3 0 h 0).
  { change (at_ Vector3_Zero [p; V3 (vx p) (vy p + h) (vz p)] 1)
      with (V3 (vx p) (vy p + h) (vz p)).
    change (at_ Vector3_Zero [p; V3 (vx p) (vy p + h) (vz p)] 0) with p.
    unfold Vector3_sub. cbn [vx vy vz]. f_equal; ring. }
  rewrite Y.
  assert (N : normalized (at_ Vector3_Zero [V3 0 h 0; V3 0 h 0] i) = V3 0 1 0).
  { assert (i = 0 \/ i = 1) as [-> | ->] by lia; apply normalized_up; assumption. }
  rewrite N. cbn [vx vy vz]. rewrite acos_1, !toRotationMatrix_angle_0.
  f_equal. f_equal. apply map_ext. intros j. cbv zeta.
  rewrite identity_apply. unfold Vector3_add. cbn [vx vy vz ux uy].
  assert (i = 0 \/ i = 1) as [-> | ->] by lia.
  - change (at_ Vector3_Zero [p; V3 (vx p) (vy p + h) (vz p)] 0) with p.
    change (0 =? 0) with true. cbv iota. f_equal; ring.
  - change (at_ Vector3_Zero [p; V3 (vx p) (vy p + h) (vz p)] 1)
      with (V3 (vx p) (vy p + h) (vz p)).
    change (1 =? 0) with false. cbv iota. cbn [vx vy vz]. f_equal; ring.
Qed.

Lemma upright_open (cs : list Vector2) (p : Vector3) (h a : R) (bc ec : bool) :
  (0 < h)%R ->
  isClosed (upright cs p h a bc ec) = false /\ spineSize (upright cs p h a bc ec) = 2.
Proof.
  intros Hh.
  assert (C : isClosed (upright cs p h a bc ec) = false).
  { change (isClosed (upright cs p h a bc ec))
      with (Vector3_eqb p (V3 (vx p) (vy p + h) (vz p))).
    unfold Vector3_eqb. cbn [vx vy vz].
    replace (Reqb (vy p) (vy p + h)) with false by (symmetry; apply Reqb_false; lra).
    rewrite andb_false_r. reflexivity. }
  split; [exact C|]. unfold spineSize. rewrite C. reflexivity.
Qed.

(** A cross-section extruded straight up from [p] by a height [h > 0], with
    the default scale and orientation, is reproduced unrotated at both ends:
    the first ring of vertices is the cross-section placed at [p] in the
    XZ plane, the second ring is the same [h] higher. *)
Theorem extrusion_straight_up {collaborators : Collaborators}
        (cs : list Vector2) (p : Vector3) (h a : R) (bc ec tex : bool)
        (g : MeshGenerator) :
  (0 < h)%R ->
  let e := upright cs p h a bc ec in
  2 <= crossSectionSize e ->
  exists mesh,
    result (generateExtrusion e tex) g = Some mesh
    /\ size (vertices mesh) = 2 * crossSectionSize e
    /\ forall j, 0 <= j < crossSectionSize e ->
         let c := at_ (V2 0 0) cs j in
         at_ Vector3_Zero (vertices mesh) j = V3 (ux c + vx p) (vy p) (uy c + vz p)
         /\ at_ Vector3_Zero (vertices mesh) (crossSectionSize e + j)
            = V3 (ux c + vx p) (vy p + h) (uy c + vz p).
Proof.
  intros Hh e Hc. destruct (upright_open cs p a bc ec Hh) as [C S].
  fold e in C, S.
  assert (H2 : 2 <= size (Extrusion.crossSection e)).
  { unfold crossSectionSize in Hc. destruct (isCrossSectionClosed e); lia. }
  destruct (@generateExtrusion_accepts _ e tex g) as [mesh [E [V _]]];
    [unfold e, upright; cbn; lia | exact H2 | lia | exact Hc |].
  exists mesh. split; [exact E|]. rewrite V, S, C. clear E V mesh.
  set (n := crossSectionSize e) in *.
  unfold extrusionVertices. cbv zeta.
  change (range 0 2) with [0; 1]. cbn [fold_left].
  set (axes := spineAxes (Extrusion.spine e) 2 false).
  set (zs := Zaxisarray axes).
  unfold axes, e.
  rewrite (@extrusionRing_upright cs p h a bc ec n 0 [] zs Hh) by lia.
  rewrite (@extrusionRing_upright cs p h a bc ec n 1 _ zs Hh) by lia.
  cbn [fst app]. change (0 =? 0) with true. change (1 =? 0) with false. cbv iota.
  split.
  - rewrite size_app, !size_map, !size_range by lia. lia.
  - intros j Hj. cbv zeta. split.
    + rewrite (@at_app_l Vector3f) by (rewrite size_map, size_range; lia).
      rewrite at_map_range by lia. reflexivity.
    + rewrite (@at_app_r Vector3f) by (rewrite size_map, size_range; lia).
      rewrite size_map, size_range by lia.
      replace (n + j - (n - 0)) with j by lia.
      rewrite at_map_range by lia. reflexivity.
Qed.

Lemma extrusion_straight_up_witness :
  (0 < 1)%R
  /\ 2 <= crossSectionSize (upright [V2 0 0; V2 1 0; V2 0 1] (V3 0 0 0) 1 0 true true)
  /\ exists mesh,
       result (@generateExtrusion referenceCollaborators
                 (upright [V2 0 0; V2 1 0; V2 0 1] (V3 0 0 0) 1 0 true true) false)
              MeshGenerator_new = Some mesh
       /\ size (vertices mesh) = 6.
Proof.
  assert (Hh : (0 < 1)%R) by lra.
  assert (D : isCrossSectionClosed
                (upright [V2 0 0; V2 1 0; V2 0 1] (V3 0 0 0) 1 0 true true) = false).
  { change (isCrossSectionClosed
              (upright [V2 0 0; V2 1 0; V2 0 1] (V3 0 0 0) 1 0 true true))
      with (Vector2_eqb (V2 0 0) (V2 0 1)).
    unfold Vector2_eqb. cbn [ux uy].
    replace (Reqb 0 1) with false by (symmetry; apply Reqb_false; lra).
    rewrite andb_false_r. reflexivity. }
  assert (S : crossSectionSize
                (upright [V2 0 0; V2 1 0; V2 0 1] (V3 0 0 0) 1 0 true true) = 3)
    by (unfold crossSectionSize; rewrite D; reflexivity).
  assert (Hc : 2 <= crossSectionSize
                      (upright [V2 0 0; V2 1 0; V2 0 1] (V3 0 0 0) 1 0 true true))
    by (rewrite S; lia).
  split; [exact Hh|]. split; [exact Hc|].
  destruct (@extrusion_straight_up referenceCollaborators
              [V2 0 0; V2 1 0; V2 0 1] (V3 0 0 0) 1 0 true true false
              MeshGenerator_new Hh Hc) as [mesh [E [V _]]].
  exists mesh. split; [exact E|]. rewrite V, S. reflexivity.
Defined.

(** ** Line set of an extrusion *)

Lemma generateExtrusionLineSet_lines (e : Extrusion.t) (mesh : SgMesh) :
  4 <= size (Extrusion.crossSection e) -> 2 <= size (Extrusion.spine e) ->
  generateExtrusionLineSet e mesh
  = Some (mkLineSet (vertices mesh)
                    (extrusionLines (size (Extrusion.spine e) - 1) (crossSectionSize e)
                                    (isClosed e))).
Proof.
  intros Hc Hs. unfold generateExtrusionLineSet. cbv zeta.
  replace ((size (Extrusion.crossSection e) <? 4) || (size (Extrusion.spine e) <? 2))
    with false by (symmetry; apply orb_false_intro; apply Z.ltb_ge; assumption).
  reflexivity.
Qed.

Lemma size_extrusionLines (n m : Z) (closed : bool) :
  0 <= n -> 0 <= m ->
  size (extrusionLines n m closed) = 2 * n * m + (if closed then 0 else m).
Proof.
  intros Hn Hm. unfold extrusionLines.
  rewrite size_app, size_flat_map with (k := m * 2).
  - rewrite size_range by lia. destruct closed; cbn [negb].
    + change (size (@nil (Z * Z))) with 0. lia.
    + cbv zeta. rewrite size_map, size_range by lia. lia.
  - intros i _. cbv zeta. rewrite size_flat_map with (k := 2).
    + rewrite size_range; lia.
    + reflexivity.
Qed.

Lemma lineSet_guard (e : Extrusion.t) (mesh : SgMesh) :
  size (Extrusion.crossSection e) < 4 \/ size (Extrusion.spine e) < 2 ->
  generateExtrusionLineSet e mesh = None.
Proof.
  intros H. unfold generateExtrusionLineSet. cbv zeta.
  replace ((size (Extrusion.crossSection e) <? 4) || (size (Extrusion.spine e) <? 2))
    with true; [reflexivity|].
  symmetry. apply orb_true_iff. rewrite !Z.ltb_lt. exact H.
Qed.

(** No line set is made for a cross-section of fewer than 4 points or a
    spine of fewer than 2, counted as given.  Otherwise the line set shares
    the vertex array of the mesh and has two lines per point of each of the
    [spine.size() - 1] rings, plus one line per point of a last ring when
    the spine is open. *)
Theorem lineSet_lines (e : Extrusion.t) (mesh : SgMesh) :
  let n := size (Extrusion.spine e) - 1 in
  let m := crossSectionSize e in
  (generateExtrusionLineSet e mesh = None
   <-> size (Extrusion.crossSection e) < 4 \/ size (Extrusion.spine e) < 2)
  /\ forall lineSet,
       generateExtrusionLineSet e mesh = Some lineSet ->
       lineSetVertices lineSet = vertices mesh
       /\ size (lines lineSet) = 2 * n * m + (if isClosed e then 0 else m).
Proof.
  cbv zeta.
  destruct (Z_lt_le_dec (size (Extrusion.crossSection e)) 4) as [Hc|Hc];
    [|destruct (Z_lt_le_dec (size (Extrusion.spine e)) 2) as [Hs|Hs]].
  - assert (N : generateExtrusionLineSet e mesh = None).
    { unfold generateExtrusionLineSet. cbv zeta.
      replace (size (Extrusion.crossSection e) <? 4) with true
        by (symmetry; apply Z.ltb_lt; assumption).
      reflexivity. }
    rewrite N. split; [tauto | discriminate].
  - assert (N : generateExtrusionLineSet e mesh = None).
    { unfold generateExtrusionLineSet. cbv zeta.
      replace (size (Extrusion.spine e) <? 2) with true
        by (symmetry; apply Z.ltb_lt; assumption).
      rewrite orb_true_r. reflexivity. }
    rewrite N. split; [tauto | discriminate].
  - rewrite generateExtrusionLineSet_lines by assumption. split.
    + split; [discriminate | lia].
    + intros lineSet E. injection E as <-. cbn [lineSetVertices lines].
      split; [reflexivity|]. apply size_extrusionLines.
      * lia.
      * unfold crossSectionSize. destruct (isCrossSectionClosed e); lia.
Qed.

Lemma extrusionLines_open_inBounds (n m : Z) :
  0 <= n -> 0 < m ->
  Forall (lineInBounds ((n + 1) * m)) (extrusionLines n m false).
Proof.
  intros Hn Hm. unfold extrusionLines. cbn [negb]. cbv zeta.
  apply Forall_app. split; apply Forall_forall; intros l Hl.
  - apply in_flat_map in Hl as [i [Hi Hl]]. apply in_flat_map in Hl as [j [Hj Hl]].
    apply in_range in Hi, Hj.
    pose proof (@rem_bounds (j + 1) m) as Hr.
    unfold lineInBounds, indexInBounds.
    destruct Hl as [<-|[<-|[]]]; cbn [fst snd]; split; nia.
  - apply in_map_iff in Hl as [j [<- Hj]]. apply in_range in Hj.
    pose proof (@rem_bounds (j + 1) m) as Hr.
    unfold lineInBounds, indexInBounds. cbn [fst snd]. split; nia.
Qed.

(** For an open spine every line of the line set made for the mesh of the
    same extrusion joins two existing vertices. *)
Theorem lineSet_open_spine_indexed {collaborators : Collaborators}
        (e : Extrusion.t) (tex : bool) (g : MeshGenerator)
        (mesh : SgMesh) (lineSet : SgLineSet) :
  result (generateExtrusion e tex) g = Some mesh ->
  generateExtrusionLineSet e mesh = Some lineSet ->
  isClosed e = false ->
  Forall (lineInBounds (size (lineSetVertices lineSet))) (lines lineSet).
Proof.
  intros E L C.
  destruct (generateExtrusion_returned _ _ _ E) as [[H1 [H2 [H3 H4]]] [V _]].
  pose proof (lineSet_guard e mesh) as N.
  destruct (Z_lt_le_dec (size (Extrusion.crossSection e)) 4) as [Hc|Hc];
    [rewrite (N (or_introl Hc)) in L; discriminate L|].
  rewrite generateExtrusionLineSet_lines in L by assumption.
  injection L as <-. cbn [lineSetVertices lines].
  rewrite V, size_extrusionVertices by lia.
  rewrite C. unfold spineSize. rewrite C.
  replace (size (Extrusion.spine e) * crossSectionSize e)
    with ((size (Extrusion.spine e) - 1 + 1) * crossSectionSize e) by lia.
  apply extrusionLines_open_inBounds; lia.
Qed.

Lemma lineSet_open_spine_indexed_witness :
  isClosed (upright [V2 0 0; V2 1 0; V2 1 1; V2 0 1] (V3 0 0 0) 1 0 false false) = false
  /\ exists mesh lineSet,
       result (@generateExtrusion referenceCollaborators
                 (upright [V2 0 0; V2 1 0; V2 1 1; V2 0 1] (V3 0 0 0) 1 0 false false) false)
              MeshGenerator_new = Some mesh
       /\ generateExtrusionLineSet
            (upright [V2 0 0; V2 1 0; V2 1 1; V2 0 1] (V3 0 0 0) 1 0 false false) mesh
          = Some lineSet
       /\ Forall (lineInBounds (size (lineSetVertices lineSet))) (lines lineSet).
Proof.
  set (e := upright [V2 0 0; V2 1 0; V2 1 1; V2 0 1] (V3 0 0 0) 1 0 false false).
  assert (Hh : (0 < 1)%R) by lra.
  destruct (upright_open [V2 0 0; V2 1 0; V2 1 1; V2 0 1] (V3 0 0 0) 0 false false Hh)
    as [C S].
  fold e in C, S.
  assert (D : isCrossSectionClosed e = false).
  { change (isCrossSectionClosed e) with (Vector2_eqb (V2 0 0) (V2 0 1)).
    unfold Vector2_eqb. cbn [ux uy].
    replace (Reqb 0 1) with false by (symmetry; apply Reqb_false; lra).
    rewrite andb_false_r. reflexivity. }
  split; [exact C|].
  destruct (@generateExtrusion_accepts referenceCollaborators e false MeshGenerator_new)
    as [mesh [E _]].
  - cbn. lia.
  - cbn. lia.
  - rewrite S. lia.
  - unfold crossSectionSize. rewrite D. cbn. lia.
  - exists mesh.
    assert (L : generateExtrusionLineSet e mesh
                = Some (mkLineSet (vertices mesh)
                          (extrusionLines (size (Extrusion.spine e) - 1)
                                          (crossSectionSize e) (isClosed e))))
      by (apply generateExtrusionLineSet_lines; cbn; lia).
    eexists. split; [exact E|]. split; [exact L|].
    exact (@lineSet_open_spine_indexed referenceCollaborators e false MeshGenerator_new
             mesh _ E L C).
Defined.

(** For a closed spine the line set made for the mesh of the same
    extrusion reaches past the vertex array: the mesh has
    [spine.size() - 1] rings of vertices, and the lines that leave the last
    ring lead to the indices of one more ring instead of back to the
    first. *)
Theorem lineSet_closed_spine_overflow {collaborators : Collaborators}
        (e : Extrusion.t) (tex : bool) (g : MeshGenerator)
        (mesh : SgMesh) (lineSet : SgLineSet) :
  result (generateExtrusion e tex) g = Some mesh ->
  generateExtrusionLineSet e mesh = Some lineSet ->
  isClosed e = true ->
  let m := crossSectionSize e in
  let numVertices := size (lineSetVertices lineSet) in
  numVertices = (size (Extrusion.spine e) - 1) * m
  /\ forall j, 0 <= j < m ->
       In (numVertices - m + j, numVertices + j) (lines lineSet)
       /\ ~ lineInBounds numVertices (numVertices - m + j, numVertices + j).
Proof.
  intros E L C. cbv zeta.
  destruct (generateExtrusion_returned _ _ _ E) as [[H1 [H2 [H3 H4]]] [V _]].
  pose proof (lineSet_guard e mesh) as N.
  destruct (Z_lt_le_dec (size (Extrusion.crossSection e)) 4) as [Hc|Hc];
    [rewrite (N (or_introl Hc)) in L; discriminate L|].
  rewrite generateExtrusionLineSet_lines in L by assumption.
  injection L as <-. cbn [lineSetVertices lines].
  rewrite V, size_extrusionVertices by lia.
  assert (S : spineSize e = size (Extrusion.spine e) - 1)
    by (unfold spineSize; rewrite C; reflexivity).
  rewrite S. split; [reflexivity|]. intros j Hj. split.
  - unfold extrusionLines. apply in_or_app. left.
    apply in_flat_map. exists (size (Extrusion.spine e) - 2). split.
    + apply in_range. lia.
    + cbv zeta. apply in_flat_map. exists j. split; [apply in_range; lia|].
      right. left. f_equal; lia.
  - unfold lineInBounds, indexInBounds. cbn [fst snd]. lia.
Qed.

Lemma lineSet_closed_spine_overflow_witness :
  isClosed (Extrusion.mk [V2 0 0; V2 1 0; V2 1 1; V2 0 1]
                         [V3 0 0 0; V3 1 0 0; V3 0 0 1; V3 0 0 0] [] [] 0 false false)
  = true
  /\ exists mesh lineSet,
       result (@generateExtrusion referenceCollaborators
                 (Extrusion.mk [V2 0 0; V2 1 0; V2 1 1; V2 0 1]
                               [V3 0 0 0; V3 1 0 0; V3 0 0 1; V3 0 0 0] [] [] 0 false false)
                 false)
              MeshGenerator_new = Some mesh
       /\ generateExtrusionLineSet
            (Extrusion.mk [V2 0 0; V2 1 0; V2 1 1; V2 0 1]
                          [V3 0 0 0; V3 1 0 0; V3 0 0 1; V3 0 0 0] [] [] 0 false false)
            mesh
          = Some lineSet
       /\ size (lineSetVertices lineSet) = 12
       /\ In (8, 12) (lines lineSet).
Proof.
  set (e := Extrusion.mk [V2 0 0; V2 1 0; V2 1 1; V2 0 1]
                         [V3 0 0 0; V3 1 0 0; V3 0 0 1; V3 0 0 0] [] [] 0 false false).
  assert (C : isClosed e = true).
  { change (isClosed e) with (Vector3_eqb (V3 0 0 0) (V3 0 0 0)).
    unfold Vector3_eqb. cbn [vx vy vz].
    replace (Reqb 0 0) with true by (symmetry; apply Reqb_true; reflexivity).
    reflexivity. }
  assert (D : isCrossSectionClosed e = false).
  { change (isCrossSectionClosed e) with (Vector2_eqb (V2 0 0) (V2 0 1)).
    unfold Vector2_eqb. cbn [ux uy].
    replace (Reqb 0 1) with false by (symmetry; apply Reqb_false; lra).
    rewrite andb_false_r. reflexivity. }
  assert (M : crossSectionSize e = 4) by (unfold crossSectionSize; rewrite D; reflexivity).
  split; [exact C|].
  destruct (@generateExtrusion_accepts referenceCollaborators e false MeshGenerator_new)
    as [mesh [E _]].
  - cbn. lia.
  - cbn. lia.
  - unfold spineSize. rewrite C. cbn. lia.
  - rewrite M. lia.
  - exists mesh.
    assert (L : generateExtrusionLineSet e mesh
                = Some (mkLineSet (vertices mesh)
                          (extrusionLines (size (Extrusion.spine e) - 1)
                                          (crossSectionSize e) (isClosed e))))
      by (apply generateExtrusionLineSet_lines; cbn; lia).
    eexists. split; [exact E|]. split; [exact L|].
    destruct (@lineSet_closed_spine_overflow referenceCollaborators e false
                MeshGenerator_new mesh _ E L C) as [Hn Hl].
    split; [rewrite Hn, M; reflexivity|].
    assert (H0 : 0 <= 0 < crossSectionSize e) by (rewrite M; lia).
    apply Hl in H0. destruct H0 as [H0 _]. rewrite Hn in H0.
    revert H0. rewrite M. intros H0. exact H0.
Defined.

(** ** Texture of an indexed face set *)

Lemma component_sub (a b : Vector3) (j : Z) :
  component (Vector3_sub a b) j = (component a j - component b j)%R.
Proof. unfold component, Vector3_sub. destruct (j =? 0), (j =? 1); reflexivity. Qed.

Lemma insideBox_component (lo hi v : Vector3) (j : Z) :
  insideBox lo hi v -> (component lo j <= component v j <= component hi j)%R.
Proof.
  unfold insideBox, component. intros [Hx [Hy Hz]].
  destruct (j =? 0), (j =? 1); assumption.
Qed.

(** One vertex more: the box grows to contain it and stays a box. *)
Lemma extentStep_vertex (vi max min : Vector3) :
  insideBox min max min ->
  let out := fold_left (extentStep vi) (range 0 3) (max, min) in
  insideBox (snd out) (fst out) vi
  /\ insideBox (snd out) (fst out) min
  /\ insideBox (snd out) (fst out) max.
Proof.
  intros [Hx [Hy Hz]]. change (range 0 3) with [0; 1; 2].
  destruct vi as [x y z], max as [a b c], min as [a' b' c'].
  cbn [vx vy vz] in Hx, Hy, Hz.
  cbn [fold_left]. unfold extentStep, component, setComponent.
  cbn [Z.eqb Pos.eqb fst snd vx vy vz].
  repeat match goal with
         | |- context [Rltb ?u ?v] =>
             let E := fresh "E" in
             destruct (Rltb u v) eqn:E;
             [apply Rltb_true in E | apply Rltb_false in E];
             cbn [fst snd vx vy vz]
         end.
  all: cbn [fst snd vx vy vz] in *; unfold insideBox; cbn [vx vy vz]; lra.
Qed.

Lemma insideBox_trans (lo hi lo' hi' v : Vector3) :
  insideBox lo' hi' lo -> insideBox lo' hi' hi -> insideBox lo hi v -> insideBox lo' hi' v.
Proof. unfold insideBox. intros H1 H2 H3. lra. Qed.

Lemma vertexExtent_fold (vs : list Vector3f) (idx : list Z) (max min : Vector3) :
  insideBox min max min ->
  let out := fold_left
               (fun mm i =>
                  fold_left (extentStep (at_ Vector3_Zero vs i)) (range 0 3) mm)
               idx (max, min) in
  insideBox (snd out) (fst out) (snd out)
  /\ insideBox (snd out) (fst out) min
  /\ insideBox (snd out) (fst out) max
  /\ forall i, In i idx -> insideBox (snd out) (fst out) (at_ Vector3_Zero vs i).
Proof.
  revert max min. induction idx as [|k idx IH]; intros max min Hb; cbn [fold_left]; cbv zeta.
  - cbn [fst snd]. split; [exact Hb|]. split; [exact Hb|].
    split; [unfold insideBox in *; lra|]. intros i [].
  - destruct (extentStep_vertex (at_ Vector3_Zero vs k) Hb) as [Hv [Hmin Hmax]].
    destruct (fold_left (extentStep (at_ Vector3_Zero vs k)) (range 0 3) (max, min))
      as [max' min'] eqn:Estep.
    cbn [fst snd] in Hv, Hmin, Hmax.
    assert (Hb' : insideBox min' max' min') by (unfold insideBox in *; lra).
    destruct (IH max' min' Hb') as [H1 [H2 [H3 H4]]]. cbv zeta in H1, H2, H3, H4.
    split; [exact H1|].
    split; [apply (insideBox_trans H2 H3 Hmin)|].
    split; [apply (insideBox_trans H2 H3 Hmax)|].
    intros i [<-|Hi]; [apply (insideBox_trans H2 H3 Hv) | apply H4, Hi].
Qed.

Lemma In_at {A : Type} (d : A) (l : list A) (x : A) :
  In x l -> exists i, 0 <= i < size l /\ at_ d l i = x.
Proof.
  intros H. apply In_nth with (d := d) in H as [n [Hn <-]].
  exists (Z.of_nat n). unfold size. split; [lia|].
  rewrite at_nth by lia. rewrite Nat2Z.id. reflexivity.
Qed.

Lemma vertexExtent_box (vs : list Vector3f) :
  Forall (insideBox (snd (vertexExtent vs)) (fst (vertexExtent vs))) vs.
Proof.
  unfold vertexExtent. cbv zeta.
  set (v0 := at_ Vector3_Zero vs 0).
  assert (Hb : insideBox v0 v0 v0) by (unfold insideBox; lra).
  destruct (vertexExtent_fold vs (range 1 (size vs)) Hb) as [_ [H0 [_ H]]].
  cbv zeta in H0, H.
  apply Forall_forall. intros v Hv.
  apply (@In_at Vector3f Vector3_Zero) in Hv as [i [Hi <-]].
  destruct (Z.eq_dec i 0) as [->|Hne]; [exact H0|].
  apply H, in_range. lia.
Qed.

Lemma textureAxes_spec (extent : Vector3) :
  let s := fst (textureAxes extent) in
  let t := snd (textureAxes extent) in
  0 <= s < 3 /\ 0 <= t < 3 /\ s <> t
  /\ (component extent t <= component extent s)%R
  /\ forall j, 0 <= j < 3 -> j <> s -> (component extent j <= component extent t)%R.
Proof.
  unfold textureAxes, component.
  destruct (Rleb (vy extent) (vx extent)) eqn:E1;
    [apply Rleb_true in E1 | apply Rleb_false in E1];
    (destruct (Rleb (vz extent) (vx extent)) eqn:E2;
     [apply Rleb_true in E2 | apply Rleb_false in E2]);
    (destruct (Rleb (vz extent) (vy extent)) eqn:E3;
     [apply Rleb_true in E3 | apply Rleb_false in E3]);
    cbn [fst snd Z.eqb Pos.eqb];
    (split; [lia|]); (split; [lia|]); (split; [lia|]); (split; [lra|]);
    intros j Hr Hj;
    destruct (Z.eqb_spec j 0); destruct (Z.eqb_spec j 1); try lia; try lra.
Qed.


(** When the second largest extent of the bounding box is positive, the
    texture of an indexed face set scales both texture axes by the largest
    extent: vertex [i] gets [((v[s] - min[s]) / L, (v[t] - min[t]) / L)] with
    [L = max[s] - min[s]], a point of the unit square.  There is one texture
    coordinate per vertex and the texture indices are the vertex indices
    of the triangles. *)
Theorem indexedFaceSet_texture (mesh : SgMesh) :
  let mesh' := generateTextureCoordinateForIndexedFaceSet mesh in
  let max := fst (vertexExtent (vertices mesh)) in
  let min := snd (vertexExtent (vertices mesh)) in
  let s := fst (textureAxes (Vector3_sub max min)) in
  let t := snd (textureAxes (Vector3_sub max min)) in
  let L := (component max s - component min s)%R in
  (0 < component max t - component min t)%R ->
  size (texCoords mesh') = size (vertices mesh)
  /\ texCoordIndices mesh' = triangleVertices mesh
  /\ forall i, 0 <= i < size (vertices mesh) ->
       let v := at_ Vector3_Zero (vertices mesh) i in
       at_ (V2 0 0) (texCoords mesh') i
       = V2 ((component v s - component min s) / L) ((component v t - component min t) / L)
       /\ inUnitSquare (at_ (V2 0 0) (texCoords mesh') i).
Proof.
  cbv zeta. intros Hpos.
  unfold generateTextureCoordinateForIndexedFaceSet. cbv zeta.
  cbn [setTexCoords texCoords texCoordIndices].
  set (max := fst (vertexExtent (vertices mesh))) in *.
  set (min := snd (vertexExtent (vertices mesh))) in *.
  destruct (textureAxes_spec (Vector3_sub max min)) as [Hs [Ht [Hne [Hts _]]]].
  cbv zeta in Hs, Ht, Hne, Hts.
  set (s := fst (textureAxes (Vector3_sub max min))) in *.
  set (t := snd (textureAxes (Vector3_sub max min))) in *.
  rewrite !component_sub in *.
  split; [rewrite size_map, size_range by apply size_nonneg; lia|].
  split; [reflexivity|].
  intros i Hi. rewrite at_map_range by lia. cbv beta.
  pose proof (vertexExtent_box (vertices mesh)) as Hbox. rewrite Forall_forall in Hbox.
  assert (Hin : insideBox min max (at_ Vector3_Zero (vertices mesh) i))
    by (apply Hbox, at_In; exact Hi).
  pose proof (insideBox_component s Hin) as Bs.
  pose proof (insideBox_component t Hin) as Bt.
  set (v := at_ Vector3_Zero (vertices mesh) i) in *.
  assert (E : ((component v t - component min t) / (component max t - component min t)
               * ((component max t - component min t) / (component max s - component min s))
               = (component v t - component min t) / (component max s - component min s))%R)
    by (field; lra).
  rewrite E. split; [reflexivity|].
  assert (U : forall a len : R, (0 < len -> 0 <= a <= len -> 0 <= a / len <= 1)%R).
  { intros a len Hl Ha. split.
    - apply Rle_mult_inv_pos; lra.
    - apply Rmult_le_reg_r with len; [lra|].
      replace (a / len * len)%R with a by (field; lra). lra. }
  split; cbn [ux uy]; apply U; lra.
Qed.

Lemma indexedFaceSet_texture_witness :
  (0 < component (fst (vertexExtent (vertices flatTriangle)))
         (snd (textureAxes
                 (Vector3_sub (fst (vertexExtent (vertices flatTriangle)))
                              (snd (vertexExtent (vertices flatTriangle))))))
       - component (snd (vertexExtent (vertices flatTriangle)))
           (snd (textureAxes
                   (Vector3_sub (fst (vertexExtent (vertices flatTriangle)))
                                (snd (vertexExtent (vertices flatTriangle)))))))%R
  /\ size (texCoords (generateTextureCoordinateForIndexedFaceSet flatTriangle)) = 3
  /\ texCoordIndices (generateTextureCoordinateForIndexedFaceSet flatTriangle) = [].
Proof.
  assert (X : vertexExtent (vertices flatTriangle) = (V3 2 1 0, V3 0 0 0)).
  { assert (S : forall vi mm j out,
               (let vij := component vi j in
                if Rltb (component (fst mm) j) vij then (setComponent (fst mm) j vij, snd mm)
                else if Rltb vij (component (snd mm) j)
                     then (fst mm, setComponent (snd mm) j vij)
                     else mm) = out ->
               extentStep vi mm j = out) by (intros vi mm j out H; exact H).
    assert (T : forall x y : R, (x < y)%R -> Rltb x y = true)
      by (intros x y H; apply Rltb_true; exact H).
    assert (F : forall x y : R, (y <= x)%R -> Rltb x y = false)
      by (intros x y H; apply Rltb_false; exact H).
    assert (S1 : extentStep (V3 2 1 0) (V3 0 0 0, V3 0 0 0) 0 = (V3 2 0 0, V3 0 0 0)).
    { apply S. cbn. rewrite T by lra. reflexivity. }
    assert (S2 : extentStep (V3 2 1 0) (V3 2 0 0, V3 0 0 0) 1 = (V3 2 1 0, V3 0 0 0)).
    { apply S. cbn. rewrite T by lra. reflexivity. }
    assert (S3 : extentStep (V3 2 1 0) (V3 2 1 0, V3 0 0 0) 2 = (V3 2 1 0, V3 0 0 0)).
    { apply S. cbn. rewrite !F by lra. reflexivity. }
    assert (S4 : forall j, 0 <= j < 3 ->
                 extentStep (V3 1 0 0) (V3 2 1 0, V3 0 0 0) j = (V3 2 1 0, V3 0 0 0)).
    { intros j Hj. apply S.
      assert (j = 0 \/ j = 1 \/ j = 2) as [-> | [-> | ->]] by lia;
        cbn; rewrite !F by lra; reflexivity. }
    unfold vertexExtent, flatTriangle. cbn [setVertices vertices]. cbv zeta.
    change (range 1 (size [V3 0 0 0; V3 2 1 0; V3 1 0 0])) with [1; 2].
    change (range 0 3) with [0; 1; 2]. cbn [fold_left].
    change (at_ Vector3_Zero [V3 0 0 0; V3 2 1 0; V3 1 0 0] 0) with (V3 0 0 0).
    change (at_ Vector3_Zero [V3 0 0 0; V3 2 1 0; V3 1 0 0] 1) with (V3 2 1 0).
    change (at_ Vector3_Zero [V3 0 0 0; V3 2 1 0; V3 1 0 0] 2) with (V3 1 0 0).
    rewrite S1, S2, S3, !S4 by lia. reflexivity. }
  assert (A : textureAxes (V3 2 1 0) = (0, 1)).
  { unfold textureAxes. cbn [vx vy vz].
    replace (Rleb 1 2) with true by (symmetry; apply Rleb_true; lra).
    replace (Rleb 0 2) with true by (symmetry; apply Rleb_true; lra).
    replace (Rleb 0 1) with true by (symmetry; apply Rleb_true; lra).
    reflexivity. }
  assert (S : Vector3_sub (V3 2 1 0) (V3 0 0 0) = V3 2 1 0)
    by (unfold Vector3_sub; cbn [vx vy vz]; f_equal; ring).
  assert (Hpos : (0 < component (fst (vertexExtent (vertices flatTriangle)))
                         (snd (textureAxes
                                 (Vector3_sub (fst (vertexExtent (vertices flatTriangle)))
                                              (snd (vertexExtent (vertices flatTriangle))))))
                     - component (snd (vertexExtent (vertices flatTriangle)))
                         (snd (textureAxes
                                 (Vector3_sub (fst (vertexExtent (vertices flatTriangle)))
                                              (snd (vertexExtent (vertices flatTriangle)))))))%R).
  { rewrite X. cbn [fst snd]. rewrite S, A. cbn. lra. }
  split; [exact Hpos|].
  destruct (indexedFaceSet_texture flatTriangle Hpos) as [H1 [H2 _]].
  split; [exact H1 | exact H2].
Defined.

(** ** Box *)

Lemma boxTriangles_oriented (x y z : R) :
  (0 <= x)%R -> (0 <= y)%R -> (0 <= z)%R ->
  Forall (fun t => inAxisPlane (boxVertices x y z) t /\ facesOutward (boxVertices x y z) t)
         boxTriangles.
Proof.
  intros Hx Hy Hz.
  assert (Hxy : (0 <= x * y)%R) by nra.
  assert (Hxyz : (0 <= x * y * z)%R) by nra.
  unfold boxTriangles, boxVertices.
  repeat apply Forall_cons; try apply Forall_nil;
    (split;
     [ unfold inAxisPlane, at_, component; simpl;
       first [ exists 0; split; [lia|]; split; reflexivity
             | exists 1; split; [lia|]; split; reflexivity
             | exists 2; split; [lia|]; split; reflexivity ]
     | unfold facesOutward, at_, dot, cross, Vector3_sub, Vector3_add; simpl; nra ]).
Qed.

Lemma generateNormals_boundingBox {collaborators : Collaborators}
      (m : SgMesh) (a : R) (g : MeshGenerator) :
  boundingBox (fst (generateNormals m a g)) = boundingBox m.
Proof.
  unfold generateNormals. destruct (isNormalGenerationEnabled_ g); [|reflexivity].
  destruct (MeshFilter_generateNormals m a). reflexivity.
Qed.

Lemma textureExtrusion_boundingBox (m : SgMesh) (cs : list Vector2) (sp : list Vector3)
      (nb ne idx : Z) :
  boundingBox (generateTextureCoordinateForExtrusion m cs sp nb ne idx) = boundingBox m.
Proof.
  unfold generateTextureCoordinateForExtrusion. cbv zeta.
  destruct (nb + ne =? 0); [reflexivity|].
  destruct (negb (nb =? 0)), (negb (ne =? 0)); reflexivity.
Qed.

(** The bounding box of a generated mesh follows the setting of the
    generator: with bounding box update enabled it is the box of the
    vertices the mesh is returned with, otherwise the mesh has none. *)
Theorem bounding_box_follows_setting {collaborators : Collaborators}
        (s : Shape) (g : MeshGenerator) (mesh : SgMesh) :
  result (generate s) g = Some mesh ->
  boundingBox mesh
  = if isBoundingBoxUpdateEnabled_ g then fold_left expandBy (vertices mesh) None else None.
Proof.
  destruct s as [sz tex|r tex|r h b t sd tex|r h b sd tex|r h|r ir|r c ba ea|grid tex|e tex];
    cbn [generate]; unfold result.
  - unfold generateBox. destruct (_ || _); [discriminate|].
    cbv zeta. run_gen. unfold updateBoundingBoxIfEnabled. cbn [fst snd].
    intros E. injection E as <-.
    destruct tex; geometry;
      cbn [generateTextureCoordinateForBox setTexCoords boundingBox];
      rewrite generateNormals_boundingBox;
      destruct (isBoundingBoxUpdateEnabled_ g); reflexivity.
  - unfold generateSphere. run_gen. destruct (_ || _); [discriminate|].
    cbv zeta. run_gen. unfold updateBoundingBoxIfEnabled. cbn [fst snd].
    intros E. injection E as <-.
    destruct tex; geometry;
      cbn [generateTextureCoordinateForSphere setTexCoords boundingBox];
      rewrite generateNormals_boundingBox;
      destruct (isBoundingBoxUpdateEnabled_ g); reflexivity.
  - unfold generateCylinder. run_gen. destruct (_ || _); [discriminate|].
    cbv zeta. run_gen. unfold updateBoundingBoxIfEnabled. cbn [fst snd].
    intros E. injection E as <-.
    destruct tex; geometry;
      cbn [generateTextureCoordinateForCylinder setTexCoords boundingBox];
      rewrite generateNormals_boundingBox;
      destruct (isBoundingBoxUpdateEnabled_ g); reflexivity.
  - unfold generateCone. run_gen. destruct (_ || _); [discriminate|].
    cbv zeta. run_gen. unfold updateBoundingBoxIfEnabled. cbn [fst snd].
    intros E. injection E as <-.
    destruct tex; geometry;
      cbn [generateTextureCoordinateForCone setTexCoords boundingBox];
      rewrite generateNormals_boundingBox;
      destruct (isBoundingBoxUpdateEnabled_ g); reflexivity.
  - unfold generateCapsule. run_gen. destruct (_ || _); [discriminate|].
    cbv zeta. run_gen. unfold updateBoundingBoxIfEnabled. cbn [fst snd].
    intros E. injection E as <-. geometry.
    rewrite generateNormals_boundingBox.
    destruct (isBoundingBoxUpdateEnabled_ g); reflexivity.
  - unfold generateDisc. run_gen. destruct (_ || _); [discriminate|].
    cbv zeta. run_gen. unfold updateBoundingBoxIfEnabled. cbn [fst snd].
    intros E. injection E as <-.
    destruct (isBoundingBoxUpdateEnabled_ g); reflexivity.
  - unfold generateTorus4. run_gen.
    cbv zeta. run_gen. unfold updateBoundingBoxIfEnabled. cbn [fst snd].
    intros E. injection E as <-. geometry.
    rewrite generateNormals_boundingBox.
    destruct (isBoundingBoxUpdateEnabled_ g); reflexivity.
  - unfold generateElevationGrid. destruct (negb _); [discriminate|].
    cbv zeta. run_gen. unfold updateBoundingBoxIfEnabled. cbn [fst snd].
    rewrite (proj1 (generateNormals_flags _ _ g)).
    intros E. injection E as <-.
    destruct tex, (isBoundingBoxUpdateEnabled_ g); try reflexivity;
      cbn [generateTextureCoordinateForElevationGrid setTexCoords boundingBox];
      rewrite generateNormals_boundingBox; reflexivity.
  - unfold generateExtrusion. cbv zeta.
    destruct (_ || _); [discriminate|].
    destruct (_ || _); [discriminate|].
    run_gen. unfold updateBoundingBoxIfEnabled. cbn [fst snd].
    intros E. injection E as <-.
    destruct tex; geometry; rewrite ?textureExtrusion_boundingBox;
      rewrite generateNormals_boundingBox;
      destruct (isBoundingBoxUpdateEnabled_ g); reflexivity.
Qed.

Lemma bounding_box_follows_setting_witness :
  exists mesh,
    result (@generate referenceCollaborators (DiscShape 2 1))
           (setBoundingBoxUpdateEnabled false MeshGenerator_new) = Some mesh
    /\ boundingBox mesh = None.
Proof.
  destruct (@generateDisc_accepts 2 1 (setBoundingBoxUpdateEnabled false MeshGenerator_new))
    as [mesh [E _]].
  { apply orb_false_iff. split; apply Rleb_false; lra. }
  exists mesh. split; [exact E|].
  exact (@bounding_box_follows_setting referenceCollaborators (DiscShape 2 1)
           (setBoundingBoxUpdateEnabled false MeshGenerator_new) mesh E).
Defined.

Lemma boxVertices_corners (x y z : R) :
  (0 <= x)%R -> (0 <= y)%R -> (0 <= z)%R ->
  Forall (fun v => Rabs (vx v) = x /\ Rabs (vy v) = y /\ Rabs (vz v) = z)
         (boxVertices x y z).
Proof.
  intros Hx Hy Hz. unfold boxVertices.
  repeat apply Forall_cons; try apply Forall_nil; cbn [vx vy vz];
    rewrite ?Rabs_Ropp, !Rabs_pos_eq by assumption; repeat split.
Qed.

Lemma boxVertices_boundingBox (x y z : R) :
  (0 <= x)%R -> (0 <= y)%R -> (0 <= z)%R ->
  fold_left expandBy (boxVertices x y z) None
  = Some (BBox (V3 (- x) (- y) (- z)) (V3 x y z)).
Proof.
  intros Hx Hy Hz. unfold boxVertices. cbn [fold_left expandBy vx vy vz].
  eval_min_max. reflexivity.
Qed.

(** A box with non-negative sizes has the 8 corners [(+-x/2, +-y/2, +-z/2)]
    as vertices and 12 triangles.  Each triangle lies in a face plane of
    the box and is wound so that its normal points outwards.  With
    bounding box update enabled the bounding box reaches from
    [- size / 2] to [size / 2]. *)
Theorem generateBox_mesh {collaborators : Collaborators}
        (size_ : Vector3) (tex : bool) (g : MeshGenerator) :
  (0 <= vx size_)%R -> (0 <= vy size_)%R -> (0 <= vz size_)%R ->
  exists mesh,
    result (generateBox size_ tex) g = Some mesh
    /\ size (vertices mesh) = 8
    /\ numTriangles mesh = 12
    /\ Forall (fun v => Rabs (vx v) = (vx size_ / 2)%R
                        /\ Rabs (vy v) = (vy size_ / 2)%R
                        /\ Rabs (vz v) = (vz size_ / 2)%R)
              (vertices mesh)
    /\ Forall (fun t => inAxisPlane (vertices mesh) t /\ facesOutward (vertices mesh) t)
              (triangles mesh)
    /\ (isBoundingBoxUpdateEnabled_ g = true ->
        boundingBox mesh
        = Some (BBox (V3 (- (vx size_ / 2)) (- (vy size_ / 2)) (- (vz size_ / 2)))
                     (V3 (vx size_ / 2) (vy size_ / 2) (vz size_ / 2)))).
Proof.
  intros Hx Hy Hz.
  destruct (@generateBox_accepts _ size_ tex g) as [mesh [E [V T]]];
    [apply guard3_false; assumption|].
  exists mesh. split; [exact E|].
  assert (B : isBoundingBoxUpdateEnabled_ g = true ->
              boundingBox mesh = fold_left expandBy (vertices mesh) None).
  { intros Hb. revert E. unfold result, generateBox.
    rewrite guard3_false by assumption. cbv zeta. run_gen.
    unfold updateBoundingBoxIfEnabled. rewrite Hb. cbn [fst snd].
    intros E. injection E as <-.
    destruct tex; geometry;
      cbn [generateTextureCoordinateForBox setTexCoords boundingBox];
      rewrite generateNormals_boundingBox; reflexivity. }
  unfold numTriangles. rewrite V, T in *.
  replace (vx size_ * 0.5)%R with (vx size_ / 2)%R in * by lra.
  replace (vy size_ * 0.5)%R with (vy size_ / 2)%R in * by lra.
  replace (vz size_ * 0.5)%R with (vz size_ / 2)%R in * by lra.
  assert (Hx' : (0 <= vx size_ / 2)%R) by lra.
  assert (Hy' : (0 <= vy size_ / 2)%R) by lra.
  assert (Hz' : (0 <= vz size_ / 2)%R) by lra.
  split; [reflexivity|]. split; [reflexivity|].
  split; [apply boxVertices_corners; assumption|].
  split; [apply boxTriangles_oriented; assumption|].
  intros Hb. rewrite (B Hb). apply boxVertices_boundingBox; assumption.
Qed.

Lemma generateBox_mesh_witness :
  (0 <= vx (V3 1 2 3))%R /\ (0 <= vy (V3 1 2 3))%R /\ (0 <= vz (V3 1 2 3))%R
  /\ exists mesh,
       result (@generateBox referenceCollaborators (V3 1 2 3) false) MeshGenerator_new
       = Some mesh
       /\ size (vertices mesh) = 8
       /\ numTriangles mesh = 12.
Proof.
  assert (Hx : (0 <= vx (V3 1 2 3))%R) by (cbn; lra).
  assert (Hy : (0 <= vy (V3 1 2 3))%R) by (cbn; lra).
  assert (Hz : (0 <= vz (V3 1 2 3))%R) by (cbn; lra).
  split; [exact Hx|]. split; [exact Hy|]. split; [exact Hz|].
  destruct (@generateBox_mesh referenceCollaborators (V3 1 2 3) false MeshGenerator_new
              Hx Hy Hz) as [mesh [E [V [T _]]]].
  exists mesh. split; [exact E|]. split; [exact V | exact T].
Defined.

(** ** Looking up a texture point *)

Lemma findTexCoordPoint_from_first (i : Z) (l : list Vector2f) (p : Vector2f) :
  0 <= i ->
  let k := findTexCoordPoint_from i l p in
  (k = -1 /\ Forall (fun c => isApprox c p = false) l)
  \/ (i <= k < i + size l
      /\ isApprox (at_ (V2 0 0) l (k - i)) p = true
      /\ forall j, 0 <= j < k - i -> isApprox (at_ (V2 0 0) l j) p = false).
Proof.
  revert i. induction l as [|c l IH]; intros i Hi; cbn [findTexCoordPoint_from]; cbv zeta.
  - left. split; [reflexivity | constructor].
  - destruct (isApprox c p) eqn:E.
    + right. split; [unfold size; cbn [length]; lia|].
      replace (i - i) with 0 by lia. split; [exact E|]. intros j Hj. lia.
    + destruct (IH (i + 1)) as [[H1 H2]|[H1 [H2 H3]]]; [lia| |]; cbv zeta in *.
      * left. split; [exact H1 | constructor; assumption].
      * right. split; [unfold size in *; cbn [length]; lia|].
        set (k := findTexCoordPoint_from (i + 1) l p) in *.
        assert (S : forall j, 1 <= j -> at_ (V2 0 0) (c :: l) j = at_ (V2 0 0) l (j - 1)).
        { intros j Hj. rewrite !at_nth by lia.
          replace (Z.to_nat j) with (S (Z.to_nat (j - 1))) by lia. reflexivity. }
        split.
        -- rewrite S by lia. replace (k - i - 1) with (k - (i + 1)) by lia. exact H2.
        -- intros j Hj. destruct (Z.eq_dec j 0) as [->|Hne]; [exact E|].
           rewrite S by lia. apply H3. lia.
Qed.

(** [findTexCoordPoint] returns [-1] exactly when no entry of the array
    approximates the point; otherwise it returns the index of the first
    entry that does. *)
Theorem findTexCoordPoint_first (texCoords : list Vector2f) (point : Vector2f) :
  let k := findTexCoordPoint texCoords point in
  (k = -1 <-> Forall (fun c => isApprox c point = false) texCoords)
  /\ (k <> -1 ->
      0 <= k < size texCoords
      /\ isApprox (at_ (V2 0 0) texCoords k) point = true
      /\ forall j, 0 <= j < k -> isApprox (at_ (V2 0 0) texCoords j) point = false).
Proof.
  cbv zeta. unfold findTexCoordPoint.
  destruct (@findTexCoordPoint_from_first 0 texCoords point) as [[H1 H2]|[H1 [H2 H3]]];
    [lia| |]; cbv zeta in *.
  - rewrite H1. split; [tauto | congruence].
  - set (k := findTexCoordPoint_from 0 texCoords point) in *.
    replace (k - 0) with k in * by lia. split.
    + split; [lia|]. intros F. rewrite Forall_forall in F.
      rewrite F in H2 by (apply at_In; lia). discriminate H2.
    + intros _. split; [lia|]. split; assumption.
Qed.
